(** * firmataBridge: the Firmata protocol engine of [firmata.js]

    A shallow embedding of the host-side Firmata driver: the 7-bit
    encode/decode primitives, the board state that decoded messages mutate,
    the two dispatch tables ([MIDI_RESPONSE], [SYSEX_RESPONSE]), the
    transport ['data'] handler that frames the inbound byte stream, and the
    pin-level commands ([pinMode], [digitalWrite], [digitalRead],
    [pwmWrite], [servoWrite], [analogRead]).

    JavaScript numbers that take part in bit operations are modelled as [Z]
    with the 32-bit wrap-around of [ToInt32] written out.  A JavaScript
    exception is an explicit outcome: code that throws returns [Raised].
    A command returns the board as the call leaves it together with its
    promise chain: what is chained on a write runs only once the write is
    answered, see [Chain]. *)

From Stdlib Require Import ZArith Lia List Bool String Ascii.
From stdpp Require Import base option list gmap.

Import ListNotations.
Local Open Scope Z_scope.

(** ** JavaScript 32-bit integer operators *)

Module JS.

(** [ToInt32]: reduce modulo 2^32 into the signed range. *)
Definition to_int32 (z : Z) : Z := (z + 2 ^ 31) mod 2 ^ 32 - 2 ^ 31.

(** [a & b] *)
Definition and (a b : Z) : Z := Z.land (to_int32 a) (to_int32 b).

(** [a | b] *)
Definition or (a b : Z) : Z := Z.lor (to_int32 a) (to_int32 b).

(** [~a] *)
Definition not (a : Z) : Z := Z.lnot (to_int32 a).

(** [a << n]: the shift count is taken modulo 32. *)
Definition shl (a n : Z) : Z := to_int32 (Z.shiftl (to_int32 a) (n mod 32)).

(** [a >> n]: sign-propagating, the shift count is taken modulo 32. *)
Definition sar (a n : Z) : Z := Z.shiftr (to_int32 a) (n mod 32).

(** Truthiness of a number. *)
Definition truthy (a : Z) : bool := negb (a =? 0).

End JS.

(** ** Protocol constants *)

Definition ANALOG_MAPPING_QUERY : Z := 0x69.
Definition ANALOG_MAPPING_RESPONSE : Z := 0x6A.
Definition ANALOG_MESSAGE : Z := 0xE0.
Definition CAPABILITY_QUERY : Z := 0x6B.
Definition CAPABILITY_RESPONSE : Z := 0x6C.
Definition DIGITAL_MESSAGE : Z := 0x90.
Definition END_SYSEX : Z := 0xF7.
Definition I2C_REPLY : Z := 0x77.
Definition PIN_MODE : Z := 0xF4.
Definition PIN_STATE_RESPONSE : Z := 0x6E.
Definition PING_READ : Z := 0x75.
Definition QUERY_FIRMWARE : Z := 0x79.
Definition REPORT_VERSION : Z := 0xF9.
Definition START_SYSEX : Z := 0xF0.
Definition STEPPER : Z := 0x72.
Definition STRING_DATA : Z := 0x71.
Definition MICRODUINO_OLED : Z := 0x01.
Definition MICRODUINO_IR : Z := 0x07.
Definition MICRODUINO_MOTION : Z := 0x0A.
Definition MICRODUINO_IBB : Z := 0x0C.

Definition KEY_PRESSED : Z := 0.
Definition KEY_RELEASED : Z := 1.

(** [board.MODES], in the insertion order [Object.keys] enumerates. *)
Module MODES.
Definition INPUT : Z := 0x00.
Definition OUTPUT : Z := 0x01.
Definition ANALOG : Z := 0x02.
Definition PWM : Z := 0x03.
Definition SERVO : Z := 0x04.
Definition SHIFT : Z := 0x05.
Definition I2C : Z := 0x06.
Definition ONEWIRE : Z := 0x07.
Definition STEPPER : Z := 0x08.
Definition SERIAL : Z := 0x0A.
Definition PULLUP : Z := 0x0B.
Definition IGNORE : Z := 0x7F.
Definition PING_READ : Z := 0x75.
Definition UNKOWN : Z := 0x10.

Definition values : list Z :=
  [INPUT; OUTPUT; ANALOG; PWM; SERVO; SHIFT; I2C; ONEWIRE; STEPPER;
   SERIAL; PULLUP; IGNORE; PING_READ; UNKOWN].
End MODES.

(** ** [Board.encode] and [Board.decode] *)

(** [Board.encode]: every value becomes two bytes, low seven bits first. *)
Definition encode (data : list Z) : list Z :=
  flat_map (fun v => [JS.and v 0x7F; JS.and (JS.sar v 7) 0x7F]) data.

(** The [while (data.length)] loop of [Board.decode]; on a list of odd
    length the second [shift()] yields [undefined], which [<<] reads as 0. *)
Fixpoint decode_pairs (data : list Z) : list Z :=
  match data with
  | lsb :: msb :: rest => JS.or lsb (JS.shl msb 7) :: decode_pairs rest
  | [lsb] => [JS.or lsb (JS.shl 0 7)]
  | [] => []
  end.

(** [Board.decode]: [None] is the thrown
    "called with odd number of data bytes" error. *)
Definition decode (data : list Z) : option (list Z) :=
  if Nat.even (length data) then Some (decode_pairs data) else None.

(** ** Board state *)

(** A pin object.  [mode], [analogChannel], [state] and [event] are absent
    ([undefined], or [null] after [init]) until something assigns them. *)
Record Pin := mkPin {
  supportedModes : list Z;
  mode : option Z;
  value : Z;
  report : Z;
  analogChannel : option Z;
  state : option Z;
  event : option Z
}.

Record Firmware := mkFirmware {
  name : option string;
  fw_major : option Z;
  fw_minor : option Z
}.

Record Resolution := mkResolution {
  ADC : option Z;
  PWM : option Z
}.

(** What the board raises through [emit], and the calls it makes into
    user-registered SysEx handlers. *)
Inductive Event :=
| Ev_reportversion
| Ev_analog_read_pin (pin val : Z)
| Ev_analog_read (pin val : Z)
| Ev_digital_read_pin (pinNumber val : Z)
| Ev_digital_read (pinNumber val : Z)
| Ev_queryfirmware
| Ev_capability_query
| Ev_pin_state (pin : Z)
| Ev_analog_mapping_query
| Ev_ready
| Ev_string (text : list Z)
| Ev_ping_read (pin duration : Z)
| Ev_stepper_done (deviceNum : option Z)
| Ev_oled_response
| Ev_buggy_response (frame : list Z)
| Ev_motion_read (type x y z : Z)
| Ev_i2c_reply (address register : Z) (reply : list Z)
| Call_user (handler : nat) (payload : list Z).

(** The entries of [SYSEX_RESPONSE].  A user handler is known by the
    number it was registered under. *)
Inductive Handler :=
| H_QUERY_FIRMWARE
| H_CAPABILITY_RESPONSE
| H_PIN_STATE_RESPONSE
| H_ANALOG_MAPPING_RESPONSE
| H_MICRODUINO_IR
| H_MICRODUINO_MOTION
| H_MICRODUINO_OLED
| H_MICRODUINO_IBB
| H_I2C_REPLY
| H_STRING_DATA
| H_PING_READ
| H_STEPPER
| H_user (handler : nat).

(** The [Board] instance together with what it shares with its
    surroundings: the [SYSEX_RESPONSE] table, the one-shot listeners the
    handshake registers on ['capability-query'] and
    ['analog-mapping-query'], the byte sequences handed to
    [writeToTransport] (in submission order) and the events raised.
    [ports] is a JavaScript array used through [ports[i]] reads and writes
    only, kept as a finite map from index to value.  The [isClean] flag,
    which only [reset] reads, is left out. *)
Record Board := mkBoard {
  currentBuffer : list Z;
  versionReceived : bool;
  isReady : bool;
  version : option Z * option Z;
  firmware : Firmware;
  pins : list Pin;
  ports : gmap Z Z;
  analogPins : list nat;
  RESOLUTION : Resolution;
  SYSEX_RESPONSE : gmap Z Handler;
  capabilityWaiters : nat;
  analogMappingWaiters : nat;
  sent : list (list Z);
  emitted : list Event
}.

Inductive Error :=
| TypeError
| RangeError
| Failure (message : string).

(** How a synchronous piece of code ends: normally, or by an exception
    that leaves the board as it was when thrown. *)
Inductive Outcome :=
| Done (b : Board)
| Raised (e : Error) (b : Board).

Definition board_of (o : Outcome) : Board :=
  match o with Done b | Raised _ b => b end.

Definition bind (o : Outcome) (k : Board -> Outcome) : Outcome :=
  match o with
  | Done b => k b
  | Raised e b => Raised e b
  end.

(** *** Field updates *)

Definition set_currentBuffer (buf : list Z) (b : Board) : Board :=
  mkBoard buf (versionReceived b) (isReady b) (version b) (firmware b)
    (pins b) (ports b) (analogPins b) (RESOLUTION b) (SYSEX_RESPONSE b)
    (capabilityWaiters b) (analogMappingWaiters b) (sent b) (emitted b).

Definition set_versionReceived (v : bool) (b : Board) : Board :=
  mkBoard (currentBuffer b) v (isReady b) (version b) (firmware b)
    (pins b) (ports b) (analogPins b) (RESOLUTION b) (SYSEX_RESPONSE b)
    (capabilityWaiters b) (analogMappingWaiters b) (sent b) (emitted b).

Definition set_isReady (v : bool) (b : Board) : Board :=
  mkBoard (currentBuffer b) (versionReceived b) v (version b) (firmware b)
    (pins b) (ports b) (analogPins b) (RESOLUTION b) (SYSEX_RESPONSE b)
    (capabilityWaiters b) (analogMappingWaiters b) (sent b) (emitted b).

Definition set_version (v : option Z * option Z) (b : Board) : Board :=
  mkBoard (currentBuffer b) (versionReceived b) (isReady b) v (firmware b)
    (pins b) (ports b) (analogPins b) (RESOLUTION b) (SYSEX_RESPONSE b)
    (capabilityWaiters b) (analogMappingWaiters b) (sent b) (emitted b).

Definition set_firmware (f : Firmware) (b : Board) : Board :=
  mkBoard (currentBuffer b) (versionReceived b) (isReady b) (version b) f
    (pins b) (ports b) (analogPins b) (RESOLUTION b) (SYSEX_RESPONSE b)
    (capabilityWaiters b) (analogMappingWaiters b) (sent b) (emitted b).

Definition set_pins (ps : list Pin) (b : Board) : Board :=
  mkBoard (currentBuffer b) (versionReceived b) (isReady b) (version b)
    (firmware b) ps (ports b) (analogPins b) (RESOLUTION b)
    (SYSEX_RESPONSE b) (capabilityWaiters b) (analogMappingWaiters b)
    (sent b) (emitted b).

Definition set_ports (m : gmap Z Z) (b : Board) : Board :=
  mkBoard (currentBuffer b) (versionReceived b) (isReady b) (version b)
    (firmware b) (pins b) m (analogPins b) (RESOLUTION b)
    (SYSEX_RESPONSE b) (capabilityWaiters b) (analogMappingWaiters b)
    (sent b) (emitted b).

Definition set_analogPins (l : list nat) (b : Board) : Board :=
  mkBoard (currentBuffer b) (versionReceived b) (isReady b) (version b)
    (firmware b) (pins b) (ports b) l (RESOLUTION b)
    (SYSEX_RESPONSE b) (capabilityWaiters b) (analogMappingWaiters b)
    (sent b) (emitted b).

Definition set_RESOLUTION (r : Resolution) (b : Board) : Board :=
  mkBoard (currentBuffer b) (versionReceived b) (isReady b) (version b)
    (firmware b) (pins b) (ports b) (analogPins b) r
    (SYSEX_RESPONSE b) (capabilityWaiters b) (analogMappingWaiters b)
    (sent b) (emitted b).

Definition set_SYSEX_RESPONSE (t : gmap Z Handler) (b : Board) : Board :=
  mkBoard (currentBuffer b) (versionReceived b) (isReady b) (version b)
    (firmware b) (pins b) (ports b) (analogPins b) (RESOLUTION b)
    t (capabilityWaiters b) (analogMappingWaiters b) (sent b) (emitted b).

Definition set_capabilityWaiters (n : nat) (b : Board) : Board :=
  mkBoard (currentBuffer b) (versionReceived b) (isReady b) (version b)
    (firmware b) (pins b) (ports b) (analogPins b) (RESOLUTION b)
    (SYSEX_RESPONSE b) n (analogMappingWaiters b) (sent b) (emitted b).

Definition set_analogMappingWaiters (n : nat) (b : Board) : Board :=
  mkBoard (currentBuffer b) (versionReceived b) (isReady b) (version b)
    (firmware b) (pins b) (ports b) (analogPins b) (RESOLUTION b)
    (SYSEX_RESPONSE b) (capabilityWaiters b) n (sent b) (emitted b).

Definition set_sent (l : list (list Z)) (b : Board) : Board :=
  mkBoard (currentBuffer b) (versionReceived b) (isReady b) (version b)
    (firmware b) (pins b) (ports b) (analogPins b) (RESOLUTION b)
    (SYSEX_RESPONSE b) (capabilityWaiters b) (analogMappingWaiters b)
    l (emitted b).

Definition set_emitted (l : list Event) (b : Board) : Board :=
  mkBoard (currentBuffer b) (versionReceived b) (isReady b) (version b)
    (firmware b) (pins b) (ports b) (analogPins b) (RESOLUTION b)
    (SYSEX_RESPONSE b) (capabilityWaiters b) (analogMappingWaiters b)
    (sent b) l.

Definition set_mode (m : option Z) (p : Pin) : Pin :=
  mkPin (supportedModes p) m (value p) (report p) (analogChannel p)
    (state p) (event p).

Definition set_value (v : Z) (p : Pin) : Pin :=
  mkPin (supportedModes p) (mode p) v (report p) (analogChannel p)
    (state p) (event p).

Definition set_analogChannel (c : option Z) (p : Pin) : Pin :=
  mkPin (supportedModes p) (mode p) (value p) (report p) c
    (state p) (event p).

Definition set_state (s : option Z) (p : Pin) : Pin :=
  mkPin (supportedModes p) (mode p) (value p) (report p) (analogChannel p)
    s (event p).

Definition set_event (e : option Z) (p : Pin) : Pin :=
  mkPin (supportedModes p) (mode p) (value p) (report p) (analogChannel p)
    (state p) e.

(** *** JavaScript array access *)

(** [arr[i]] for a numeric index: [None] is [undefined]. *)
Definition idx {A} (arr : list A) (i : Z) : option A :=
  if i <? 0 then None else arr !! Z.to_nat i.

(** An [undefined] operand of a bit operator counts as 0. *)
Definition num (o : option Z) : Z := default 0 o.

(** [arr[i] = x] on an element that exists. *)
Definition store {A} (arr : list A) (i : Z) (x : A) : list A :=
  <[Z.to_nat i := x]> arr.

(** [new Array(16).fill(0)] *)
Definition fresh_ports : gmap Z Z :=
  list_to_map (map (fun i => (Z.of_nat i, 0)) (seq 0 16)).

(** [ports[i]] as read by a bit operator. *)
Definition port_bits (b : Board) (i : Z) : Z := num (ports b !! i).

(** [board.currentBuffer.slice(2, -1)], which is also the index range
    [2 <= i < length - 1] the reply loops run over. *)
Definition payload (buf : list Z) : list Z := removelast (drop 2 buf).

Definition emit (e : Event) (b : Board) : Board :=
  set_emitted (emitted b ++ [e]) b.

(** [writeToTransport]: the bytes are queued on the ['comm'] lock, which
    hands them to the transport in submission order. *)
Definition writeToTransport (data : list Z) (b : Board) : Board :=
  set_sent (sent b ++ [data]) b.

(** ** Listeners the constructor and the handshake install *)

(** [Board.prototype.init]: forget port values and pin modes, then set the
    sampling interval. *)
Definition init (b : Board) : Board :=
  writeToTransport [0xF0; 0x7A; 0x64; 0x00; 0xF7]
    (set_pins (map (set_mode None) (pins b)) (set_ports fresh_ports b)).

(** [this.on('reportversion', ...)] *)
Definition on_reportversion (b : Board) : Board :=
  let b := set_versionReceived true b in
  if isReady b then init b else b.

(** [queryCapabilities(callback)] as the ['queryfirmware'] listener calls
    it: one more one-shot listener on ['capability-query'], and the query. *)
Definition queryCapabilities (b : Board) : Board :=
  writeToTransport [START_SYSEX; CAPABILITY_QUERY; END_SYSEX]
    (set_capabilityWaiters (S (capabilityWaiters b)) b).

(** [this.on('queryfirmware', ...)] *)
Definition on_queryfirmware (b : Board) : Board :=
  if isReady b then b else queryCapabilities b.

(** [queryAnalogMapping(ready)] *)
Definition queryAnalogMapping (b : Board) : Board :=
  writeToTransport [START_SYSEX; ANALOG_MAPPING_QUERY; END_SYSEX]
    (set_analogMappingWaiters (S (analogMappingWaiters b)) b).

(** The one-shot listeners of ['capability-query'], each run once. *)
Definition on_capability_query (b : Board) : Board :=
  Nat.iter (capabilityWaiters b) queryAnalogMapping
    (set_capabilityWaiters 0 b).

(** [ready()] *)
Definition ready (b : Board) : Board :=
  emit Ev_ready (init (set_isReady true b)).

(** The one-shot listeners of ['analog-mapping-query']. *)
Definition on_analog_mapping_query (b : Board) : Board :=
  Nat.iter (analogMappingWaiters b) ready (set_analogMappingWaiters 0 b).

(** ** [MIDI_RESPONSE] *)

Definition MIDI_REPORT_VERSION (b : Board) : Board :=
  let buf := currentBuffer b in
  on_reportversion
    (emit Ev_reportversion (set_version (buf !! 1%nat, buf !! 2%nat) b)).

Definition MIDI_ANALOG_MESSAGE (b : Board) : Board :=
  let buf := currentBuffer b in
  let pin := JS.and (num (buf !! 0%nat)) 0x0F in
  let value := JS.or (num (buf !! 1%nat)) (JS.shl (num (buf !! 2%nat)) 7) in
  let b :=
    match idx (analogPins b) pin with
    | Some pinNumber =>
        match pins b !! pinNumber with
        | Some p => set_pins (<[pinNumber := set_value value p]> (pins b)) b
        | None => b
        end
    | None => b
    end in
  emit (Ev_analog_read pin value) (emit (Ev_analog_read_pin pin value) b).

(** [pin.mode === board.MODES.INPUT || pin.mode === board.MODES.PULLUP] *)
Definition reads_input (pin : Pin) : bool :=
  bool_decide (mode pin = Some MODES.INPUT)
  || bool_decide (mode pin = Some MODES.PULLUP).

(** What the digital message handler does to a pin it reads: the edge
    checks against the stored value, then the assignment of the new one. *)
Definition read_bit (portValue i : Z) (pin : Pin) : Pin :=
  let currentValue := JS.and (JS.sar portValue (JS.and i 0x07)) 0x01 in
  let pin :=
    if (value pin =? 0) && (currentValue =? 1)
    then set_event (Some KEY_RELEASED) pin else pin in
  let pin :=
    if (value pin =? 1) && (currentValue =? 0)
    then set_event (Some KEY_PRESSED) pin else pin in
  set_value currentValue pin.

(** One turn of the [for (let i = 0; i < 8; i++)] loop of the digital
    message handler. *)
Definition digital_pin (port portValue : Z) (b : Board) (i : Z) : Board :=
  let pinNumber := 8 * port + i in
  let bit := JS.shl 1 i in
  match idx (pins b) pinNumber with
  | Some pin =>
      if reads_input pin then
        let pin := read_bit portValue i pin in
        let b := set_pins (store (pins b) pinNumber pin) b in
        let b :=
          if JS.truthy (value pin)
          then set_ports (<[port := JS.or (num (ports b !! port)) bit]> (ports b)) b
          else set_ports
                 (<[port := JS.and (num (ports b !! port)) (JS.not bit)]> (ports b)) b in
        emit (Ev_digital_read pinNumber (value pin))
          (emit (Ev_digital_read_pin pinNumber (value pin)) b)
      else b
  | None => b
  end.

Definition MIDI_DIGITAL_MESSAGE (b : Board) : Board :=
  let buf := currentBuffer b in
  let port := JS.and (num (buf !! 0%nat)) 0x0F in
  let portValue := JS.or (num (buf !! 1%nat)) (JS.shl (num (buf !! 2%nat)) 7) in
  fold_left (digital_pin port portValue) [0; 1; 2; 3; 4; 5; 6; 7] b.

(** [MIDI_RESPONSE[response]] *)
Definition MIDI_RESPONSE (response : Z) : option (Board -> Board) :=
  if response =? REPORT_VERSION then Some MIDI_REPORT_VERSION
  else if response =? ANALOG_MESSAGE then Some MIDI_ANALOG_MESSAGE
  else if response =? DIGITAL_MESSAGE then Some MIDI_DIGITAL_MESSAGE
  else None.

(** ** [SYSEX_RESPONSE] *)

(** [Math.round(n / 2)] for an integer [n]. *)
Definition round_half (n : Z) : Z := (n + 1) / 2.

Definition string_of_bytes (l : list Z) : string :=
  fold_right (fun c s => String (ascii_of_N (Z.to_N c)) s) EmptyString l.

(** The firmware name: one character per pair of 7-bit bytes at the even
    offsets [4 <= i < length]. *)
Definition firmware_name_bytes (buf : list Z) (length : Z) : list Z :=
  map (fun k =>
         let i := 4 + 2 * Z.of_nat k in
         JS.and (JS.or (JS.and (num (idx buf i)) 0x7F)
                       (JS.shl (JS.and (num (idx buf (i + 1))) 0x7F) 7))
                0xFF)
      (seq 0 (Z.to_nat (round_half (length - 4)))).

(** The reply to [QUERY_FIRMWARE].  [new Uint8Array(n)] throws a
    [RangeError] for a negative [n]. *)
Definition SYSEX_QUERY_FIRMWARE (b : Board) : Outcome :=
  let buf := currentBuffer b in
  let length := Z.of_nat (length buf) - 2 in
  if round_half (length - 4) <? 0 then Raised RangeError b
  else
    let fw := mkFirmware (Some (string_of_bytes (firmware_name_bytes buf length)))
                (buf !! 2%nat) (buf !! 3%nat) in
    Done (on_queryfirmware (emit Ev_queryfirmware (set_firmware fw b))).

(** The local [supportedModes(capability)]. *)
Definition supportedModes_of (capability : Z) : list Z :=
  filter (fun mode => JS.truthy (JS.and capability (JS.shl 1 mode)) = true)
    MODES.values.

Definition note_resolution (mode resolution : Z) (r : Resolution) : Resolution :=
  let r :=
    if (mode =? MODES.ANALOG) && bool_decide (ADC r = None)
    then mkResolution (Some resolution) (PWM r) else r in
  if (mode =? MODES.PWM) && bool_decide (PWM r = None)
  then mkResolution (ADC r) (Some resolution) else r.

(** The loop [for (let i = 2, n = 0; i < length - 1; i++)] of the
    capability reply, run over the buffer from index 2: a turn is taken
    for every byte that has a successor.  [n] is [true] for 1. *)
Fixpoint capability_loop (l : list Z) (capability : Z) (n : bool) (b : Board)
  : Board :=
  match l with
  | x :: ((y :: _) as rest) =>
      if x =? 127 then
        capability_loop rest 0 false
          (set_pins (pins b ++ [mkPin (supportedModes_of capability) None 0 1
                                  None None None]) b)
      else if n then capability_loop rest capability false b
      else
        let resolution := JS.shl 1 y - 1 in
        capability_loop rest (JS.or capability (JS.shl 1 x)) true
          (set_RESOLUTION (note_resolution x resolution (RESOLUTION b)) b)
  | _ => b
  end.

Definition SYSEX_CAPABILITY_RESPONSE (b : Board) : Board :=
  let b := set_pins [] (set_ports fresh_ports b) in
  let b := capability_loop (drop 2 (currentBuffer b)) 0 false b in
  on_capability_query (emit Ev_capability_query b).

(** The reply to a pin-state query.  Assigning to a property of
    [board.pins[pin]] throws a [TypeError] when there is no such pin. *)
Definition SYSEX_PIN_STATE_RESPONSE (b : Board) : Outcome :=
  let buf := currentBuffer b in
  match buf !! 2%nat ≫= (fun pin => (fun p => (pin, p)) <$> idx (pins b) pin) with
  | None => Raised TypeError b
  | Some (pin, p) =>
      let st := buf !! 4%nat in
      let st :=
        if (6 <? length buf)%nat
        then Some (JS.or (num st) (JS.shl (num (buf !! 5%nat)) 7)) else st in
      let st :=
        if (7 <? length buf)%nat
        then Some (JS.or (num st) (JS.shl (num (buf !! 6%nat)) 14)) else st in
      let p := set_state st (set_mode (buf !! 3%nat) p) in
      Done (emit (Ev_pin_state pin) (set_pins (store (pins b) pin p) b))
  end.

(** The loop of the analog-mapping reply over the bytes at
    [2 <= i < length - 1]; [pin] counts the turns. *)
Fixpoint analog_mapping_loop (l : list Z) (pin : nat) (b : Board) : Outcome :=
  match l with
  | [] => Done b
  | currentValue :: rest =>
      match pins b !! pin with
      | None => Raised TypeError b
      | Some p =>
          let b := set_pins (<[pin := set_analogChannel (Some currentValue) p]>
                               (pins b)) b in
          let b := if currentValue =? 127 then b
                   else set_analogPins (analogPins b ++ [pin]) b in
          analog_mapping_loop rest (S pin) b
      end
  end.

Definition SYSEX_ANALOG_MAPPING_RESPONSE (b : Board) : Outcome :=
  bind (analog_mapping_loop (payload (currentBuffer b)) 0 (set_analogPins [] b))
    (fun b => Done (on_analog_mapping_query (emit Ev_analog_mapping_query b))).

Definition SYSEX_STRING_DATA (b : Board) : Board :=
  emit (Ev_string (filter (fun c => c ≠ 0) (payload (currentBuffer b)))) b.

Definition SYSEX_PING_READ (b : Board) : Board :=
  let buf := currentBuffer b in
  let word i := JS.or (JS.and (num (idx buf i)) 0x7F)
                      (JS.shl (JS.and (num (idx buf (i + 1))) 0x7F) 7) in
  let duration := JS.shl (word 4) 24 + JS.shl (word 6) 16
                  + JS.shl (word 8) 8 + word 10 in
  emit (Ev_ping_read (word 2) duration) b.

(** A handler registered through [sysexResponse]: the user function is
    called with [board.currentBuffer.slice(2, -1)].  The function itself
    is the caller's; the call is what gets recorded. *)
Definition SYSEX_user (handler : nat) (b : Board) : Board :=
  emit (Call_user handler (payload (currentBuffer b))) b.

(** The keys of the module-level table [irData]. *)
Definition irData_keys : list Z :=
  [0x1FE48B7; 0x1FE807F; 0x1FE40BF; 0x1FEC03F; 0x1FE20DF; 0x1FE609F;
   0x1FEA05F; 0x1FED827; 0x1FEE01F; 0x1FE906F; 0x1FE10EF; 0x1FE50AF;
   0x1FEF807; 0x1FE708F; 0x1FEB04F; 0x1FE30CF].

(** The loop [for (let i = 3; i >= 0; i--)] of the infrared handler:
    [currentCode <<= 8], then
    [currentCode += buffer[i * 2] + (buffer[i * 2 + 1] << 7)]. *)
Definition ir_code (buffer : list Z) : Z :=
  fold_left
    (fun currentCode i =>
       JS.shl currentCode 8
       + (num (idx buffer (i * 2)) + JS.shl (num (idx buffer (i * 2 + 1))) 7))
    [3; 2; 1; 0] 0.

(** The infrared handler.  It touches nothing of the board and raises no
    event: what it decodes goes into the module-level [irData], [irCode]
    and [irTimer].  For a code that is no key of [irData] the lookup gives
    [undefined] and the assignment [key.value = 0] throws a [TypeError].
    ([irCode] is 0 or a key of [irData] whenever the handler runs: it is
    only ever set to 0 or to a code that passed that assignment, so the
    lookup under [irCode > 0] finds its key.)  The timer the handler arms
    runs outside the ['data'] handler and is left out. *)
Definition SYSEX_MICRODUINO_IR (b : Board) : Outcome :=
  let buffer := payload (currentBuffer b) in
  if (length buffer <? 8)%nat then Done b
  else
    let currentCode := ir_code buffer in
    if currentCode =? 0 then Done b
    else if (currentCode =? 0xFFFFFFFF) || (currentCode =? -1) then Done b
    else if bool_decide (currentCode ∈ irData_keys) then Done b
    else Raised TypeError b.

(** One axis of a motion report:
    [(b0 + b1 * 128) + ((b2 + b3 * 128) * 256)], brought below zero by
    [data - 0xFFFF] when above [0x7FFF]. *)
Definition motion_axis (buffer : list Z) (i : nat) : Z :=
  let data := (num (buffer !! i) + num (buffer !! (i + 1)%nat) * 128)
              + ((num (buffer !! (i + 2)%nat)
                  + num (buffer !! (i + 3)%nat) * 128) * 256) in
  if data >? 0x7FFF then data - 0xFFFF else data.

(** The motion handler: nothing for a payload of fewer than 13 bytes;
    otherwise the first byte is the type and the next twelve the three
    axes, raised as ['motion-read-type']. *)
Definition SYSEX_MICRODUINO_MOTION (b : Board) : Board :=
  let buffer := payload (currentBuffer b) in
  if (length buffer <? 13)%nat then b
  else
    let type := num (buffer !! 0%nat) in
    let buffer := tail buffer in
    emit (Ev_motion_read type (motion_axis buffer 0) (motion_axis buffer 4)
            (motion_axis buffer 8)) b.

(** The data words of an I2C reply: the loop
    [for (let i = 6, length = buffer.length - 1; i < length; i += 2)]
    with [buffer[i] | (buffer[i + 1] << 7)]. *)
Definition i2c_reply_words (buf : list Z) : list Z :=
  map (fun k =>
         let i := 6 + 2 * Z.of_nat k in
         JS.or (num (idx buf i)) (JS.shl (num (idx buf (i + 1))) 7))
      (seq 0 (Z.to_nat ((Z.of_nat (length buf) - 6) / 2))).

(** The I2C reply handler.  [ideaBoardKeyParser] reads
    [reply[0].toString(2)] for address 0x56 and register 0x09, which
    throws a [TypeError] when the reply holds no word; this comes before
    the event is raised.  The caches [i2cInputData] and [ideaBoardKey] are
    module-level. *)
Definition SYSEX_I2C_REPLY (b : Board) : Outcome :=
  let buf := currentBuffer b in
  let word i := JS.or (JS.and (num (idx buf i)) 0x7F)
                      (JS.shl (JS.and (num (idx buf (i + 1))) 0x7F) 7) in
  let address := word 2 in
  let register := word 4 in
  let reply := i2c_reply_words buf in
  if (address =? 0x56) && (register =? 0x09) && bool_decide (reply = [])
  then Raised TypeError b
  else Done (emit (Ev_i2c_reply address register reply) b).

(** Running an entry of [SYSEX_RESPONSE]. *)
Definition run_sysex (h : Handler) (b : Board) : Outcome :=
  match h with
  | H_QUERY_FIRMWARE => SYSEX_QUERY_FIRMWARE b
  | H_CAPABILITY_RESPONSE => Done (SYSEX_CAPABILITY_RESPONSE b)
  | H_PIN_STATE_RESPONSE => SYSEX_PIN_STATE_RESPONSE b
  | H_ANALOG_MAPPING_RESPONSE => SYSEX_ANALOG_MAPPING_RESPONSE b
  | H_MICRODUINO_IR => SYSEX_MICRODUINO_IR b
  | H_MICRODUINO_MOTION => Done (SYSEX_MICRODUINO_MOTION b)
  | H_MICRODUINO_OLED => Done (emit Ev_oled_response b)
  | H_MICRODUINO_IBB => Done (emit (Ev_buggy_response (currentBuffer b)) b)
  | H_I2C_REPLY => SYSEX_I2C_REPLY b
  | H_STRING_DATA => Done (SYSEX_STRING_DATA b)
  | H_PING_READ => Done (SYSEX_PING_READ b)
  | H_STEPPER => Done (emit (Ev_stepper_done (currentBuffer b !! 2%nat)) b)
  | H_user handler => Done (SYSEX_user handler b)
  end.

(** The table as the module sets it up. *)
Definition builtin_SYSEX_RESPONSE : gmap Z Handler :=
  list_to_map
    [(QUERY_FIRMWARE, H_QUERY_FIRMWARE);
     (CAPABILITY_RESPONSE, H_CAPABILITY_RESPONSE);
     (PIN_STATE_RESPONSE, H_PIN_STATE_RESPONSE);
     (ANALOG_MAPPING_RESPONSE, H_ANALOG_MAPPING_RESPONSE);
     (MICRODUINO_IR, H_MICRODUINO_IR);
     (MICRODUINO_MOTION, H_MICRODUINO_MOTION);
     (MICRODUINO_OLED, H_MICRODUINO_OLED);
     (MICRODUINO_IBB, H_MICRODUINO_IBB);
     (I2C_REPLY, H_I2C_REPLY);
     (STRING_DATA, H_STRING_DATA);
     (PING_READ, H_PING_READ);
     (STEPPER, H_STEPPER)].

(** The state the [Board] constructor leaves. *)
Definition new_Board : Board :=
  mkBoard [] false false (None, None) (mkFirmware None None None)
    [] fresh_ports [] (mkResolution None None) builtin_SYSEX_RESPONSE
    0 0 [] [].

(** ** The transport ['data'] handler *)

(** [first < START_SYSEX ? (first & START_SYSEX) : first] *)
Definition response_of (first : Z) : Z :=
  if first <? START_SYSEX then JS.and first START_SYSEX else first.

(** The SysEx branch: look the handler up by the second byte, call it
    only once the version has been received, then empty the buffer.  An
    exception from the handler skips the statement that empties it. *)
Definition complete_sysex (b : Board) : Outcome :=
  let handler := currentBuffer b !! 1%nat ≫= (fun c => SYSEX_RESPONSE b !! c) in
  let o :=
    match handler with
    | Some h => if versionReceived b then run_sysex h b else Done b
    | None => Done b
    end in
  bind o (fun b => Done (set_currentBuffer [] b)).

(** The check for a three-byte MIDI command that closes every turn. *)
Definition complete_midi (first : Z) (b : Board) : Board :=
  if (length (currentBuffer b) =? 3)%nat && negb (first =? START_SYSEX) then
    match MIDI_RESPONSE (response_of first) with
    | Some handler =>
        let b :=
          if versionReceived b || (first =? REPORT_VERSION)
          then handler (set_versionReceived true b) else b in
        set_currentBuffer [] b
    | None => set_currentBuffer [] b
    end
  else b.

(** One turn of [for (let i = 0; i < data.length; i++)]. *)
Definition receive_byte (byte : Z) (b : Board) : Outcome :=
  if (length (currentBuffer b) =? 0)%nat
     && ((byte =? 0) || (negb (versionReceived b) && negb (byte =? REPORT_VERSION)))
  then Done b
  else
    let b := set_currentBuffer (currentBuffer b ++ [byte]) b in
    let first := hd 0 (currentBuffer b) in
    let last := List.last (currentBuffer b) 0 in
    let o :=
      if (first =? START_SYSEX) && (last =? END_SYSEX) then complete_sysex b
      else if (first =? START_SYSEX) && (0 <? length (currentBuffer b))%nat then
        Done (if 0x7F <? byte then set_currentBuffer [byte] b else b)
      else if negb (first =? START_SYSEX) then
        let response := response_of first in
        Done (if negb (response =? REPORT_VERSION)
                 && negb (response =? ANALOG_MESSAGE)
                 && negb (response =? DIGITAL_MESSAGE)
              then set_currentBuffer [] b else b)
      else Done b in
    bind o (fun b => Done (complete_midi first b)).

(** The handler on one chunk: byte after byte, until the chunk ends or an
    exception leaves the loop. *)
Fixpoint feed (data : list Z) (b : Board) : Outcome :=
  match data with
  | [] => Done b
  | byte :: rest => bind (receive_byte byte b) (feed rest)
  end.

(** A sequence of ['data'] events.  An exception ends the handler's run on
    that chunk; the board stays as the exception left it and the next
    chunk is handled as usual. *)
Definition deliver (chunks : list (list Z)) (b : Board) : Board :=
  fold_left (fun b chunk => board_of (feed chunk b)) chunks b.

(** ** Commands *)

(** How the promise a command returns stands, or that the call itself
    threw.  [Refused] is the rejection of a write by the ['comm'] lock
    (more than 10 tasks pending, or 2 s without the lock) or by the
    transport; [Pending] is a promise that an event, or a timer, settles. *)
Inductive Reply :=
| Resolved (v : option Z)
| Pending
| Rejected (message : string)
| Refused
| Threw (e : Error).

(** What a command leaves behind.  [writeToTransport] hands the bytes over
    at once, but the callbacks chained on its promise run only when the
    lock and the transport have answered; until then inbound traffic and
    other commands may change the board.  [Awaiting k] is a chain that
    waits for that answer: [k] takes the answer, [true] for a write that
    went through and [false] for one that was refused, and the board as
    it is by then, and runs the callbacks up to the next write. *)
#[warnings="-register-all"] Inductive Chain :=
| Settled (r : Reply)
| Awaiting (k : bool -> Board -> Board * Chain).

(** The answer of the lock and the transport to the write a chain waits
    for. *)
Definition acknowledge (ack : bool) (bc : Board * Chain) : Board * Chain :=
  match snd bc with
  | Awaiting k => k ack (fst bc)
  | Settled _ => bc
  end.

(** Successive answers, with nothing else happening in between. *)
Definition acknowledge_all (acks : list bool) (bc : Board * Chain)
  : Board * Chain :=
  fold_left (fun bc ack => acknowledge ack bc) acks bc.

Definition error_name (e : Error) : string :=
  match e with
  | TypeError => "TypeError"
  | RangeError => "RangeError"
  | Failure message => message
  end.

(** A call made inside a [then] callback: an exception it throws rejects
    the promise. *)
Definition in_then (bc : Board * Chain) : Board * Chain :=
  match snd bc with
  | Settled (Threw e) => (fst bc, Settled (Rejected (error_name e)))
  | _ => bc
  end.

(** [p.then(f)]: [f] runs once [p] is resolved, on the board as it is by
    then; a rejection passes through.  The callbacks of a promise that is
    resolved already run in the microtasks that follow the call, before
    any event is handled: a command stands for the call together with
    those microtasks. *)
Fixpoint and_then (c : Chain) (f : Board -> Board * Chain) (b : Board)
  : Board * Chain :=
  match c with
  | Settled (Resolved _) => in_then (f b)
  | Settled r => (b, Settled r)
  | Awaiting k =>
      (b, Awaiting (fun ack b' =>
                      match k ack b' with
                      | (b'', c') => and_then c' f b''
                      end))
  end.

(** A chain whose outcome nobody holds: it runs on, while the promise the
    caller got waits for an event. *)
Fixpoint detached (c : Chain) : Chain :=
  match c with
  | Settled _ => Settled Pending
  | Awaiting k =>
      Awaiting (fun ack b =>
                  match k ack b with
                  | (b', c') => (b', detached c')
                  end)
  end.

(** [writeToTransport(this, data).then(f)] *)
Definition write_then (data : list Z) (f : Board -> Board * Chain) (b : Board)
  : Board * Chain :=
  (writeToTransport data b,
   Awaiting (fun ack b => if ack then f b else (b, Settled Refused))).

(** The callback [() => { this.pins[pin].mode = mode }], which throws
    when there is no such pin. *)
Definition assign_mode (pin mode : Z) (b : Board) : Board * Chain :=
  match idx (pins b) pin with
  | Some p => (set_pins (store (pins b) pin (set_mode (Some mode) p)) b,
               Settled (Resolved None))
  | None => (b, Settled (Rejected "TypeError"))
  end.

(** The callback [() => { this.pins[pin].value = value }] *)
Definition assign_value (pin val : Z) (b : Board) : Board * Chain :=
  match idx (pins b) pin with
  | Some p => (set_pins (store (pins b) pin (set_value val p)) b,
               Settled (Resolved None))
  | None => (b, Settled (Rejected "TypeError"))
  end.

(** [Board.prototype.pinMode]: the write, and on its promise the
    assignment to the pin's [mode]. *)
Definition pinMode (pin mode : Z) (b : Board) : Board * Chain :=
  write_then [PIN_MODE; pin; mode] (assign_mode pin mode) b.

(** [this.firmware.name && this.firmware.name.startsWith('sp')] *)
Definition is_sp (b : Board) : bool :=
  match name (firmware b) with
  | Some s => String.prefix "sp" s
  | None => false
  end.

(** The pin the digital commands address: on boards whose firmware name
    starts with [sp], pins 14 to 21 are moved up by 10. *)
Definition remap (b : Board) (pin : Z) : Z :=
  if is_sp b && (14 <=? pin) && (pin <=? 21) then pin + 10 else pin.

(** [if (value) { ports[port] |= bit } else { ports[port] &= ~bit }] for
    the port and bit of [pin]. *)
Definition set_port_bit (pin val : Z) (b : Board) : Board :=
  let port := JS.sar pin 3 in
  let bit := JS.shl 1 (JS.and pin 0x07) in
  if JS.truthy val
  then set_ports (<[port := JS.or (num (ports b !! port)) bit]> (ports b)) b
  else set_ports (<[port := JS.and (num (ports b !! port)) (JS.not bit)]> (ports b)) b.

(** The digital value-write message for a port, from the port's bits at
    the time it is sent. *)
Definition digital_message (port : Z) (b : Board) : list Z :=
  [JS.or DIGITAL_MESSAGE port;
   JS.and (num (ports b !! port)) 0x7F;
   JS.and (JS.sar (num (ports b !! port)) 7) 0x7F].

(** The value write of [digitalWrite]: the bytes are read from [ports]
    when its turn comes, and the assignment to the pin's [value] is
    chained on it. *)
Definition value_write (port pin val : Z) (b : Board) : Board * Chain :=
  write_then (digital_message port b) (assign_value pin val) b.

(** [Board.prototype.digitalWrite].  The port bit is set before anything
    is checked.  The chain starts from [Promise.resolve()]: the mode
    change if the pin is not in OUTPUT mode, then the value write, whose
    bytes are read from [ports] when its turn comes, then the assignment
    to the pin's [value]. *)
Definition digitalWrite (pin val : Z) (b : Board) : Board * Chain :=
  let pin := remap b pin in
  let port := JS.sar pin 3 in
  let b := set_port_bit pin val b in
  if Z.of_nat (length (pins b)) >? pin then
    match idx (pins b) pin with
    | None => (b, Settled (Threw TypeError))
    | Some p =>
        let setmode := negb (bool_decide (mode p = Some MODES.OUTPUT)) in
        let write := negb (value p =? val) || setmode in
        let p1 :=
          if setmode then pinMode pin MODES.OUTPUT b
          else (b, Settled (Resolved None)) in
        if write then
          and_then (snd p1) (value_write port pin val) (fst p1)
        else p1
    end
  else (b, Settled (Rejected "Invalid digital write")).

(** [Board.prototype.digitalRead].  For a pin that is not in INPUT mode
    the executor of the returned promise calls [pinMode] and, without
    waiting for it, submits the report request; the promise itself waits
    for ['digital-read-pin'] or for a second to pass. *)
Definition digitalRead (pin : Z) (b : Board) : Board * Chain :=
  let pin := remap b pin in
  if Z.of_nat (length (pins b)) >? pin then
    match idx (pins b) pin with
    | None => (b, Settled (Threw TypeError))
    | Some p =>
        if negb (bool_decide (mode p = Some MODES.INPUT)) then
          let p1 := pinMode pin MODES.INPUT b in
          let b := fst p1 in
          let b :=
            if is_sp b
            then writeToTransport [0xD0; 0x01; 0xD1; 0x01; 0xD2; 0x01; 0xD3; 0x01] b
            else writeToTransport [0xD0; 0x01; 0xD1; 0x01; 0xD2; 0x01] b in
          (b, detached (snd p1))
        else (b, Settled (Resolved (Some (value p))))
    end
  else (b, Settled (Rejected "Invalid digital read")).

(** [Board.prototype.sysexResponse]: a byte that has an entry is refused
    by an exception, any other byte gets the wrapper around the user's
    function. *)
Definition sysexResponse (commandByte : Z) (handler : nat) (b : Board)
  : Outcome :=
  match SYSEX_RESPONSE b !! commandByte with
  | Some _ => Raised (Failure "is not an available SYSEX_RESPONSE byte") b
  | None => Done (set_SYSEX_RESPONSE
                    (<[commandByte := H_user handler]> (SYSEX_RESPONSE b)) b)
  end.

(** ** Relating boards *)

(** What a reply handler leaves untouched of the parser's own state. *)
Definition same_link (b b' : Board) : Prop :=
  currentBuffer b' = currentBuffer b
  /\ versionReceived b' = versionReceived b
  /\ SYSEX_RESPONSE b' = SYSEX_RESPONSE b.

(** A chain whose callbacks neither read nor write the firmware record:
    run on two boards that differ in that record alone, they leave two
    boards that differ in it alone, and the same chain. *)
Fixpoint firmware_blind (c : Chain) : Prop :=
  match c with
  | Settled _ => True
  | Awaiting k =>
      forall ack b fw,
        fst (k ack (set_firmware fw b)) = set_firmware fw (fst (k ack b))
        /\ snd (k ack (set_firmware fw b)) = snd (k ack b)
        /\ match k ack b with (_, c') => firmware_blind c' end
  end.

(** ** Sample traffic *)

(** A version report (2.5). *)
Definition version_report : list Z := [0xF9; 0x02; 0x05].

(** A pin-state reply for pin 0. *)
Definition pin_state_reply : list Z := [0xF0; 0x6E; 0x00; 0x00; 0x00; 0xF7].

(** A later version report (2.6). *)
Definition version_report' : list Z := [0xF9; 0x02; 0x06].

(** A capability reply for two pins: pin 0 supports mode 0 at 1 bit,
    pin 1 supports mode 2 at 8 bits. *)
Definition capability_reply : list Z :=
  [0xF0; 0x6C; 0x00; 0x01; 0x7F; 0x02; 0x08; 0x7F; 0xF7].

(** An analog-mapping reply with a single entry. *)
Definition short_mapping_reply : list Z := [0xF0; 0x6A; 0x00; 0xF7].

(** A board that has seen the version report and the capability reply. *)
Definition two_pin_board : Board :=
  board_of (feed (version_report ++ capability_reply) new_Board).

(** Firmware reports (version 2.5) that carry the names [sp] and [st]. *)
Definition firmware_reply_sp : list Z :=
  [0xF0; 0x79; 0x02; 0x05; 0x73; 0x00; 0x70; 0x00; 0xF7].

Definition firmware_reply_st : list Z :=
  [0xF0; 0x79; 0x02; 0x05; 0x73; 0x00; 0x74; 0x00; 0xF7].

(** A capability reply for 25 pins without any mode. *)
Definition wide_capability_reply : list Z :=
  [0xF0; 0x6C] ++ repeat 0x7F 25 ++ [0xF7].

(** Two runs that differ in the reported firmware name alone. *)
Definition wide_board_sp : Board :=
  board_of (feed (version_report ++ firmware_reply_sp ++ wide_capability_reply)
              new_Board).

Definition wide_board_st : Board :=
  board_of (feed (version_report ++ firmware_reply_st ++ wide_capability_reply)
              new_Board).

(** Pin 0 of the two-pin board driven high once, both writes
    acknowledged. *)
Definition driven_board : Board :=
  fst (acknowledge_all [true; true] (digitalWrite 0 1 two_pin_board)).

(** A board that has no pins yet and whose firmware reported the name
    [sp]. *)
Definition sp_board : Board :=
  board_of (feed (version_report ++ firmware_reply_sp) new_Board).

(** The two-pin board with pin 0 set to INPUT (the write acknowledged)
    and a digital message for port 0, bit 0 high, in the buffer. *)
Definition input_board : Board :=
  set_currentBuffer [0x90; 0x01; 0x00]
    (fst (acknowledge true (pinMode 0 MODES.INPUT two_pin_board))).

(** A board that has seen the version report only. *)
Definition greeted_board : Board := board_of (feed version_report new_Board).

(** ** The transport's other signals *)

(** The events the board only passes on from its transport. *)
Inductive Signal :=
| Sig_close
| Sig_disconnect
| Sig_open
| Sig_error.

(** [this.transport.on('disconnect', ...)]: the hardware may have changed,
    so both flags fall, and ['disconnect'] is passed on.  The buffer, the
    pins and the ports stay. *)
Definition on_disconnect (b : Board) : Board * Signal :=
  (set_isReady false (set_versionReceived false b), Sig_disconnect).

(** ** What inbound traffic keeps *)

(** Neither flag falls from [true] to [false]. *)
Definition keeps (b b' : Board) : Prop :=
  (versionReceived b = true -> versionReceived b' = true)
  /\ (isReady b = true -> isReady b' = true).

(** ** More commands *)

Definition EXTENDED_ANALOG : Z := 0x6F.
Definition REPORT_ANALOG : Z := 0xC0.
Definition SAMPLING_INTERVAL : Z := 0x7A.
Definition SERVO_CONFIG : Z := 0x70.

Definition set_report (r : Z) (p : Pin) : Pin :=
  mkPin (supportedModes p) (mode p) (value p) r (analogChannel p)
    (state p) (event p).

(** The [data] array [pwmWrite] builds: an extended analog SysEx message
    for pins above 15, with a third, fourth and fifth 7-bit group only
    when the value exceeds 0x4000, 0x200000 and 0x10000000; the plain
    analog message otherwise. *)
Definition pwm_message (pin val : Z) : list Z :=
  if pin >? 15 then
    [START_SYSEX; EXTENDED_ANALOG; pin;
     JS.and val 0x7F; JS.and (JS.sar val 7) 0x7F]
    ++ (if val >? 0x00004000 then [JS.and (JS.sar val 14) 0x7F] else [])
    ++ (if val >? 0x00200000 then [JS.and (JS.sar val 21) 0x7F] else [])
    ++ (if val >? 0x10000000 then [JS.and (JS.sar val 28) 0x7F] else [])
    ++ [END_SYSEX]
  else
    [JS.or ANALOG_MESSAGE pin; JS.and val 0x7F; JS.and (JS.sar val 7) 0x7F].

(** [Board.prototype.pwmWrite]: the message is built at the call; the
    chain is the one of [digitalWrite]. *)
Definition pwmWrite (md pin val : Z) (b : Board) : Board * Chain :=
  let data := pwm_message pin val in
  if Z.of_nat (length (pins b)) >? pin then
    match idx (pins b) pin with
    | None => (b, Settled (Threw TypeError))
    | Some p =>
        let setmode := negb (bool_decide (mode p = Some md)) in
        let write := negb (value p =? val) || setmode in
        let p1 :=
          if setmode then pinMode pin md b
          else (b, Settled (Resolved None)) in
        if write then
          and_then (snd p1) (write_then data (assign_value pin val)) (fst p1)
        else p1
    end
  else (b, Settled (Rejected "Invalid PWM write")).

(** [Board.prototype.analogWrite] *)
Definition analogWrite (pin val : Z) (b : Board) : Board * Chain :=
  pwmWrite MODES.PWM pin val b.

(** [Board.prototype.servoConfig]: reading [this.pins[pin].mode] throws
    when there is no such pin; the promise is the write's own. *)
Definition servoConfig (pin min max : Z) (b : Board) : Board * Chain :=
  match idx (pins b) pin with
  | None => (b, Settled (Threw TypeError))
  | Some p =>
      if bool_decide (mode p = Some MODES.SERVO)
      then (b, Settled (Resolved None))
      else
        write_then
          [START_SYSEX; SERVO_CONFIG; pin;
           JS.and min 0x7F; JS.and (JS.sar min 7) 0x7F;
           JS.and max 0x7F; JS.and (JS.sar max 7) 0x7F;
           END_SYSEX]
          (fun b => (b, Settled (Resolved None))) b
  end.

(** [Board.prototype.servoWrite]: [servoConfig(...).then(pwmWrite)]; an
    exception from [servoConfig] leaves the call. *)
Definition servoWrite (pin val : Z) (b : Board) : Board * Chain :=
  and_then (snd (servoConfig pin 544 2400 b)) (pwmWrite MODES.SERVO pin val)
    (fst (servoConfig pin 544 2400 b)).

(** The callback
    [() => { this.pins[this.analogPins[pin]].report = value }] *)
Definition assign_report (pin val : Z) (b : Board) : Board * Chain :=
  match idx (analogPins b) pin
        ≫= (fun pn => (fun p => (pn, p)) <$> pins b !! pn) with
  | Some (pn, p) =>
      (set_pins (<[pn := set_report val p]> (pins b)) b,
       Settled (Resolved None))
  | None => (b, Settled (Rejected "TypeError"))
  end.

(** [Board.prototype.reportAnalogPin] *)
Definition reportAnalogPin (pin val : Z) (b : Board) : Board * Chain :=
  if (val =? 0) || (val =? 1) then
    write_then [JS.or REPORT_ANALOG pin; val] (assign_report pin val) b
  else (b, Settled (Rejected "Invalid report analog")).

(** [Board.prototype.analogRead]: for a pin that is not in ANALOG mode,
    [pinMode(...).then(() => reportAnalogPin(pin, 1))] is started and a
    promise returned that waits for ['analog-read-pin'] or for a second
    to pass. *)
Definition analogRead (pin : Z) (b : Board) : Board * Chain :=
  if Z.of_nat (length (analogPins b)) >? pin then
    match idx (analogPins b) pin
          ≫= (fun pn => (fun p => (pn, p)) <$> pins b !! pn) with
    | None => (b, Settled (Threw TypeError))
    | Some (pn, p) =>
        if negb (bool_decide (mode p = Some MODES.ANALOG)) then
          let p1 := pinMode (Z.of_nat pn) MODES.ANALOG b in
          let p2 := and_then (snd p1) (reportAnalogPin pin 1) (fst p1) in
          (fst p2, detached (snd p2))
        else (b, Settled (Resolved (Some (value p))))
    end
  else (b, Settled (Rejected "Invalid analog read")).

(** [Board.prototype.setSamplingInterval]: the board with the message
    sent, and the value stored in [settings.samplingInterval]. *)
Definition setSamplingInterval (interval : Z) (b : Board) : Board * Z :=
  let safeint :=
    if interval <? 10 then 10
    else if interval >? 65535 then 65535 else interval in
  (writeToTransport
     [START_SYSEX; SAMPLING_INTERVAL;
      JS.and safeint 0x7F; JS.and (JS.sar safeint 7) 0x7F; END_SYSEX] b,
   safeint).

(** [Board.prototype.sendString] on the UTF-8 bytes of the string: the
    bytes and a closing NUL, two 7-bit bytes each. *)
Definition sendString (bytes : list Z) (b : Board) : Board :=
  writeToTransport
    (START_SYSEX :: STRING_DATA
     :: flat_map (fun c => [JS.and c 0x7F; JS.and (JS.sar c 7) 0x7F])
          (bytes ++ [0])
     ++ [END_SYSEX]) b.

(** The number a sequence of 7-bit groups stands for, low group first. *)
Fixpoint join7 (groups : list Z) : Z :=
  match groups with
  | [] => 0
  | g :: rest => g + 128 * join7 rest
  end.

(** ** More sample traffic *)

(** An analog-mapping reply for the two-pin board: pin 0 is not analog,
    pin 1 is channel 0. *)
Definition mapping_reply : list Z := [0xF0; 0x6A; 0x7F; 0x00; 0xF7].

(** A board that has completed the handshake: version report, firmware
    report, capability reply, analog-mapping reply. *)
Definition ready_board : Board :=
  board_of (feed (version_report ++ firmware_reply_st ++ capability_reply
                  ++ mapping_reply) new_Board).

(** * Properties *)

(** Closed statements about sample traffic are settled by running the
    model. *)
Ltac by_evaluation :=
  repeat match goal with |- _ /\ _ => split end; vm_compute; reflexivity.

(** ** Facts about the 32-bit operators *)

Lemma to_int32_small z : - 2 ^ 31 <= z < 2 ^ 31 -> JS.to_int32 z = z.
Proof.
  intros H. unfold JS.to_int32.
  rewrite Z.mod_small by lia. lia.
Qed.

Lemma to_int32_testbit z k :
  0 <= k < 32 -> Z.testbit (JS.to_int32 z) k = Z.testbit z k.
Proof.
  intros Hk. unfold JS.to_int32.
  rewrite <- (Z.mod_pow2_bits_low (_ - _) 32 k) by lia.
  rewrite <- (Z.mod_pow2_bits_low z 32 k) by lia.
  f_equal.
  rewrite Zminus_mod, Zmod_mod, <- Zminus_mod.
  f_equal. lia.
Qed.

Lemma land_127_range z : 0 <= Z.land z 127 <= 127.
Proof.
  replace (Z.land z 127) with (z mod 2 ^ 7)
    by (symmetry; apply (Z.land_ones z 7); lia).
  pose proof (Z.mod_pos_bound z (2 ^ 7) ltac:(lia)). lia.
Qed.

(** A 14-bit value is its low seven bits joined with the next seven. *)
Lemma split_14bit v :
  0 <= v <= 16383 ->
  Z.lor (Z.land v 127) (Z.shiftl (Z.land (Z.shiftr v 7) 127) 7) = v.
Proof.
  intros Hv. apply Z.bits_inj'. intros n Hn.
  rewrite Z.lor_spec, Z.land_spec.
  destruct (Z.ltb_spec n 7) as [Hlt | Hge].
  - rewrite Z.shiftl_spec_low by lia.
    change 127 with (Z.ones 7). rewrite Z.ones_spec_low by lia.
    now rewrite andb_true_r, orb_false_r.
  - rewrite Z.shiftl_spec by lia.
    rewrite Z.land_spec, Z.shiftr_spec by lia.
    replace (n - 7 + 7) with n by lia.
    change 127 with (Z.ones 7).
    rewrite Z.ones_spec_high by lia. rewrite andb_false_r. simpl.
    destruct (Z.ltb_spec n 14) as [Hlt | Hge'].
    + rewrite Z.ones_spec_low by lia. now rewrite andb_true_r.
    + rewrite Z.ones_spec_high by lia. rewrite andb_false_r.
      symmetry. apply (Z.bits_above_log2 v n); [lia |].
      destruct (Z.eq_dec v 0) as [-> | Hnz]; [simpl; lia |].
      apply Z.log2_lt_pow2; [lia |].
      apply Z.lt_le_trans with (2 ^ 14); [lia |].
      apply Z.pow_le_mono_r; lia.
Qed.

(** ** Encoding and decoding *)

Lemma encode_pair v :
  0 <= v <= 16383 ->
  JS.and v 0x7F = Z.land v 0x7F
  /\ JS.and (JS.sar v 7) 0x7F = Z.land (Z.shiftr v 7) 0x7F.
Proof.
  intros Hv. unfold JS.and, JS.sar. change (7 mod 32) with 7.
  rewrite !to_int32_small; [split; reflexivity | | lia | lia].
  rewrite Z.shiftr_div_pow2 by lia.
  split; [| apply Z.lt_le_trans with (2 ^ 14); [| lia]].
  - apply Z.le_trans with 0; [lia | apply Z.div_pos; lia].
  - apply Z.le_lt_trans with v; [| lia].
    apply Z.div_le_upper_bound; lia.
Qed.

Lemma decode_pair lsb msb :
  0 <= lsb <= 127 -> 0 <= msb <= 127 ->
  JS.or lsb (JS.shl msb 7) = Z.lor lsb (Z.shiftl msb 7).
Proof.
  intros H1 H2. unfold JS.or, JS.shl. change (7 mod 32) with 7.
  rewrite (to_int32_small lsb), (to_int32_small msb) by lia.
  assert (Hs : 0 <= Z.shiftl msb 7 < 2 ^ 14)
    by (rewrite Z.shiftl_mul_pow2 by lia; lia).
  rewrite !(to_int32_small (Z.shiftl msb 7)) by lia. reflexivity.
Qed.

Lemma decode_encode_value v :
  0 <= v <= 16383 ->
  JS.or (JS.and v 0x7F) (JS.shl (JS.and (JS.sar v 7) 0x7F) 7) = v.
Proof.
  intros Hv. destruct (encode_pair v Hv) as [-> ->].
  rewrite decode_pair by apply land_127_range.
  now apply split_14bit.
Qed.

Lemma encode_cons v l :
  encode (v :: l) = JS.and v 0x7F :: JS.and (JS.sar v 7) 0x7F :: encode l.
Proof. reflexivity. Qed.

Lemma encode_length_even l : Nat.even (length (encode l)) = true.
Proof. induction l as [| v l IH]; [reflexivity | exact IH]. Qed.

(** [decode] undoes [encode] on any list of 14-bit values. *)
Lemma decode_encode_list l :
  Forall (fun v => 0 <= v <= 16383) l -> decode (encode l) = Some l.
Proof.
  intros Hl. unfold decode. rewrite encode_length_even. f_equal.
  induction Hl as [| v l Hv Hl IH]; [reflexivity |].
  rewrite encode_cons. cbn [decode_pairs].
  now rewrite decode_encode_value, IH.
Qed.

(** C3. For every [v] in [0, 16383], [Board.encode] of [[v]] is the two
    bytes [v & 0x7F] and [(v >> 7) & 0x7F], low bits first, and
    [Board.decode] of those two bytes gives [[v]] back. *)
Theorem decode_encode_14bit (v : Z) :
  0 <= v <= 16383 ->
  encode [v] = [Z.land v 0x7F; Z.land (Z.shiftr v 7) 0x7F]
  /\ decode [Z.land v 0x7F; Z.land (Z.shiftr v 7) 0x7F] = Some [v].
Proof.
  intros Hv. destruct (encode_pair v Hv) as [E1 E2].
  assert (He : encode [v] = [Z.land v 0x7F; Z.land (Z.shiftr v 7) 0x7F])
    by (rewrite encode_cons, E1, E2; reflexivity).
  split; [exact He |].
  rewrite <- He. apply decode_encode_list. now repeat constructor.
Qed.

Lemma decode_encode_14bit_witness :
  encode [300] = [Z.land 300 0x7F; Z.land (Z.shiftr 300 7) 0x7F]
  /\ decode [Z.land 300 0x7F; Z.land (Z.shiftr 300 7) 0x7F] = Some [300].
Proof. apply (decode_encode_14bit 300). lia. Defined.

(** ** The frame parser *)

Lemma bind_Done o : bind o Done = o.
Proof. now destruct o. Qed.

Lemma bind_assoc o f g :
  bind (bind o f) g = bind o (fun b => bind (f b) g).
Proof. now destruct o. Qed.

Lemma feed_app l1 l2 b : feed (l1 ++ l2) b = bind (feed l1 b) (feed l2).
Proof.
  revert b. induction l1 as [| x l1 IH]; intros b; simpl; [reflexivity |].
  destruct (receive_byte x b) as [b1 | e b1]; simpl; [apply IH | reflexivity].
Qed.

(** Any split of a byte sequence is handled like the whole, as long as no
    handler throws while the whole is being processed. *)
Lemma deliver_concat_Done chunks b b' :
  feed (concat chunks) b = Done b' ->
  deliver chunks b = b' /\ deliver [concat chunks] b = b'.
Proof.
  intros H. split; [| unfold deliver; simpl; now rewrite H].
  revert b H. induction chunks as [| c cs IH]; intros b H; simpl in *.
  - now inversion H.
  - rewrite feed_app in H.
    destruct (feed c b) as [b1 | e b1]; simpl in H; [| discriminate].
    now apply IH.
Qed.

(** What the SysEx branch does: the handler runs exactly when the table
    has an entry for the second byte and the version has been received;
    the buffer is emptied unless the handler throws. *)
Lemma complete_sysex_cases b :
  match currentBuffer b !! 1%nat ≫= (fun c => SYSEX_RESPONSE b !! c) with
  | Some h =>
      if versionReceived b
      then complete_sysex b =
           bind (run_sysex h b) (fun b => Done (set_currentBuffer [] b))
      else complete_sysex b = Done (set_currentBuffer [] b)
  | None => complete_sysex b = Done (set_currentBuffer [] b)
  end.
Proof.
  unfold complete_sysex.
  destruct (currentBuffer b !! 1%nat ≫= _) as [h |]; [| reflexivity].
  destruct (versionReceived b); reflexivity.
Qed.

Lemma last_snoc (l : list Z) x d : List.last (l ++ [x]) d = x.
Proof. apply last_last. Qed.

Lemma receive_byte_sysex_start b :
  currentBuffer b = [] -> versionReceived b = true ->
  receive_byte START_SYSEX b = Done (set_currentBuffer [START_SYSEX] b).
Proof.
  intros Hb Hv. unfold receive_byte. rewrite Hb, Hv. reflexivity.
Qed.

Lemma complete_midi_sysex b : complete_midi START_SYSEX b = b.
Proof.
  unfold complete_midi. change (START_SYSEX =? START_SYSEX) with true.
  now rewrite andb_false_r.
Qed.

Lemma receive_byte_sysex_body b pre x :
  currentBuffer b = START_SYSEX :: pre -> x <= 0x7F ->
  receive_byte x b = Done (set_currentBuffer (START_SYSEX :: pre ++ [x]) b).
Proof.
  intros Hb Hx. unfold receive_byte. rewrite Hb. cbn [length Nat.eqb andb].
  cbn [set_currentBuffer currentBuffer].
  change (hd 0 ((START_SYSEX :: pre) ++ [x])) with START_SYSEX.
  rewrite last_snoc.
  replace (x =? END_SYSEX) with false
    by (symmetry; apply Z.eqb_neq; unfold END_SYSEX; lia).
  replace (127 <? x) with false by (symmetry; apply Z.ltb_ge; lia).
  change (START_SYSEX =? START_SYSEX) with true.
  cbn [andb negb].
  destruct (0 <? _)%nat; cbn [bind]; now rewrite complete_midi_sysex.
Qed.

Lemma receive_byte_sysex_end b pre :
  currentBuffer b = START_SYSEX :: pre ->
  receive_byte END_SYSEX b =
  complete_sysex (set_currentBuffer (START_SYSEX :: pre ++ [END_SYSEX]) b).
Proof.
  intros Hb. unfold receive_byte. rewrite Hb. cbn [length Nat.eqb andb].
  cbn [set_currentBuffer currentBuffer].
  change (hd 0 ((START_SYSEX :: pre) ++ [END_SYSEX])) with START_SYSEX.
  rewrite last_snoc.
  change (START_SYSEX =? START_SYSEX) with true.
  change (END_SYSEX =? END_SYSEX) with true.
  cbn [andb negb].
  change ((START_SYSEX :: pre) ++ [END_SYSEX])
    with (START_SYSEX :: pre ++ [END_SYSEX]).
  destruct (complete_sysex _) as [b1 | e b1]; cbn [bind];
    [now rewrite complete_midi_sysex | reflexivity].
Qed.

(** A whole SysEx frame, arriving on an empty buffer after the version
    report, reaches the SysEx branch with the frame as the buffer. *)
Lemma feed_sysex_body body : forall b pre,
  currentBuffer b = START_SYSEX :: pre ->
  Forall (fun x => x <= 0x7F) body ->
  feed (body ++ [END_SYSEX]) b =
  complete_sysex
    (set_currentBuffer (START_SYSEX :: pre ++ body ++ [END_SYSEX]) b).
Proof.
  induction body as [| x body IH]; intros b pre Hb Hall.
  - simpl. rewrite (receive_byte_sysex_end b pre Hb). apply bind_Done.
  - inversion Hall as [| ? ? Hx Hall']; subst.
    simpl. rewrite (receive_byte_sysex_body b pre x Hb Hx). cbn [bind].
    rewrite (IH _ (pre ++ [x])); [| reflexivity | assumption].
    cbn [set_currentBuffer currentBuffer versionReceived isReady version
         firmware pins ports analogPins RESOLUTION SYSEX_RESPONSE
         capabilityWaiters analogMappingWaiters sent emitted].
    now rewrite <- app_assoc.
Qed.

Lemma feed_sysex_frame body b :
  currentBuffer b = [] -> versionReceived b = true ->
  Forall (fun x => x <= 0x7F) body ->
  feed (START_SYSEX :: body ++ [END_SYSEX]) b =
  complete_sysex (set_currentBuffer (START_SYSEX :: body ++ [END_SYSEX]) b).
Proof.
  intros Hb Hv Hall. cbn [feed].
  rewrite (receive_byte_sysex_start b Hb Hv). cbn [bind].
  now rewrite (feed_sysex_body body _ []).
Qed.

(** ** Short messages through the parser *)

Lemma response_of_digital first :
  0x90 <= first <= 0x9F -> response_of first = DIGITAL_MESSAGE.
Proof.
  intros H.
  assert (Hc : exists k, (k < 16)%nat /\ first = 0x90 + Z.of_nat k)
    by (exists (Z.to_nat (first - 0x90)); lia).
  destruct Hc as (k & Hk & ->).
  do 16 (destruct k as [| k]; [reflexivity |]). lia.
Qed.

(** A byte appended to a buffer whose first byte opens a digital message
    only runs the closing three-byte check. *)
Lemma receive_byte_digital b first pre byte :
  0x90 <= first <= 0x9F ->
  (currentBuffer b = first :: pre
   \/ currentBuffer b = [] /\ pre = [] /\ byte = first /\ versionReceived b = true) ->
  receive_byte byte b
  = Done (complete_midi first
            (set_currentBuffer (currentBuffer b ++ [byte]) b)).
Proof.
  intros Hf Hbuf. unfold receive_byte.
  assert (Hskip : (length (currentBuffer b) =? 0)%nat
                  && ((byte =? 0) || (negb (versionReceived b)
                                      && negb (byte =? REPORT_VERSION))) = false).
  { destruct Hbuf as [-> | (-> & _ & -> & ->)]; [reflexivity |].
    replace (first =? 0) with false by (symmetry; apply Z.eqb_neq; lia).
    reflexivity. }
  rewrite Hskip. cbn [currentBuffer set_currentBuffer].
  assert (Hhd : hd 0 (currentBuffer b ++ [byte]) = first)
    by (destruct Hbuf as [-> | (-> & _ & -> & _)]; reflexivity).
  rewrite Hhd.
  replace (first =? START_SYSEX) with false
    by (symmetry; apply Z.eqb_neq; unfold START_SYSEX; lia).
  cbn [andb negb]. rewrite (response_of_digital first Hf).
  reflexivity.
Qed.

(** A digital message arriving on an empty buffer after the version
    report reaches its handler with the three bytes as the buffer; the
    buffer is empty afterwards. *)
Lemma feed_digital_message b first lsb msb :
  currentBuffer b = [] -> versionReceived b = true ->
  0x90 <= first <= 0x9F ->
  feed [first; lsb; msb] b
  = Done (set_currentBuffer []
            (MIDI_DIGITAL_MESSAGE
               (set_versionReceived true
                  (set_currentBuffer [first; lsb; msb] b)))).
Proof.
  intros Hbuf Hv Hf. cbn [feed].
  rewrite (receive_byte_digital b first [] first Hf)
    by (right; repeat split; assumption).
  rewrite Hbuf. cbn [bind app]. unfold complete_midi at 1.
  cbn [currentBuffer set_currentBuffer length Nat.eqb andb].
  rewrite (receive_byte_digital _ first [] lsb Hf) by (left; reflexivity).
  cbn [bind app currentBuffer set_currentBuffer]. unfold complete_midi at 1.
  cbn [currentBuffer set_currentBuffer length Nat.eqb andb].
  rewrite (receive_byte_digital _ first [lsb] msb Hf) by (left; reflexivity).
  cbn [bind app currentBuffer set_currentBuffer]. unfold complete_midi.
  cbn [currentBuffer set_currentBuffer length Nat.eqb versionReceived].
  replace (first =? START_SYSEX) with false
    by (symmetry; apply Z.eqb_neq; unfold START_SYSEX; lia).
  cbn [andb negb]. rewrite (response_of_digital first Hf).
  change (MIDI_RESPONSE DIGITAL_MESSAGE) with (Some MIDI_DIGITAL_MESSAGE).
  rewrite Hv. reflexivity.
Qed.

(** The scenarios of the specification. *)
Example version_report_scenario :
  version (board_of (feed [0xF9; 0x02; 0x05] new_Board)) = (Some 2, Some 5)
  /\ emitted (board_of (feed [0xF9; 0x02; 0x05] new_Board)) = [Ev_reportversion].
Proof. by_evaluation. Qed.

Example capability_reply_scenario :
  map supportedModes (pins two_pin_board) = [[0]; [2]].
Proof. by_evaluation. Qed.

(** The same capability reply once more: still two pins. *)
Example capability_reply_twice :
  map supportedModes (pins (board_of (feed capability_reply two_pin_board)))
  = [[0]; [2]].
Proof. by_evaluation. Qed.

(** A user handler registered for a free byte is called with the payload
    of the next frame for that byte; a second registration for the byte
    throws. *)
Example user_handler_scenario :
  emitted (board_of (feed [0xF0; 0x42; 0x01; 0x02; 0xF7]
                       (board_of (sysexResponse 0x42 7 greeted_board))))
  = [Ev_reportversion; Call_user 7 [0x01; 0x02]]
  /\ sysexResponse 0x42 8 (board_of (sysexResponse 0x42 7 greeted_board))
     = Raised (Failure "is not an available SYSEX_RESPONSE byte")
         (board_of (sysexResponse 0x42 7 greeted_board)).
Proof. by_evaluation. Qed.

(** C1. Splitting a byte sequence into chunks changes what is dispatched
    when a handler throws: the version report that follows a pin-state
    reply for a pin that does not exist is lost when it arrives in the same
    chunk as the reply, and is dispatched when it arrives in the next
    chunk.  (Whenever nothing throws, [deliver_concat_Done] shows every
    split to agree with the whole.) *)
Theorem chunk_split_changes_dispatch :
  emitted (deliver [version_report ++ pin_state_reply ++ version_report']
             new_Board)
  = [Ev_reportversion]
  /\ emitted (deliver [version_report ++ pin_state_reply; version_report']
                new_Board)
     = [Ev_reportversion; Ev_reportversion]
  /\ version (deliver [version_report ++ pin_state_reply ++ version_report']
                new_Board)
     = (Some 2, Some 5)
  /\ version (deliver [version_report ++ pin_state_reply; version_report']
                new_Board)
     = (Some 2, Some 6).
Proof. by_evaluation. Qed.

(** C2. A completed SysEx frame whose handler throws stays in the buffer:
    after the version report, a pin-state reply for a pin that does not
    exist reaches its handler (the table has it, the version has been
    received), the handler throws a TypeError, and the buffer still holds
    the whole frame.  ([complete_sysex_cases] is the general statement: the
    handler runs exactly when it exists and the version has been received,
    and the buffer is emptied whenever the handler returns or is not
    run.) *)
Theorem sysex_frame_kept_when_handler_throws :
  exists b,
    feed (version_report ++ pin_state_reply) new_Board = Raised TypeError b
    /\ currentBuffer b = pin_state_reply
    /\ versionReceived b = true
    /\ SYSEX_RESPONSE b !! PIN_STATE_RESPONSE = Some H_PIN_STATE_RESPONSE.
Proof.
  eexists. by_evaluation.
Qed.

(** ** Registering SysEx handlers *)

Lemma payload_frame s c pl t : payload (s :: c :: pl ++ [t]) = pl.
Proof. unfold payload. simpl. apply removelast_last. Qed.

Lemma clear_after_emit e frame b :
  currentBuffer b = [] ->
  set_currentBuffer [] (emit e (set_currentBuffer frame b)) = emit e b.
Proof. destruct b; simpl; intros ->; reflexivity. Qed.

(** C8. [sysexResponse] on a command byte that already has an entry in the
    table throws at once and leaves the board, table included, as it was;
    on a byte without an entry it installs a handler, and a frame for that
    byte then calls the user's function, once, with the frame minus its
    two leading bytes and its terminator: that call is what is added to
    the record of events and calls, and nothing else is. *)
Theorem sysexResponse_registration (b : Board) (commandByte : Z) (handler : nat) :
  (is_Some (SYSEX_RESPONSE b !! commandByte) ->
   exists message,
     sysexResponse commandByte handler b = Raised (Failure message) b)
  /\ (SYSEX_RESPONSE b !! commandByte = None ->
      exists b',
        sysexResponse commandByte handler b = Done b'
        /\ b' = set_SYSEX_RESPONSE
                  (<[commandByte := H_user handler]> (SYSEX_RESPONSE b)) b
        /\ SYSEX_RESPONSE b' !! commandByte = Some (H_user handler)
        /\ (forall bb s c pl t,
               currentBuffer bb = s :: c :: pl ++ [t] ->
               run_sysex (H_user handler) bb
               = Done (emit (Call_user handler pl) bb)
               /\ emitted (board_of (run_sysex (H_user handler) bb))
                  = emitted bb ++ [Call_user handler pl])
        /\ (forall pl,
               currentBuffer b = [] -> versionReceived b = true ->
               commandByte <= 0x7F -> Forall (fun x => x <= 0x7F) pl ->
               feed (START_SYSEX :: commandByte :: pl ++ [END_SYSEX]) b'
               = Done (emit (Call_user handler pl) b')
               /\ emitted
                    (board_of
                       (feed (START_SYSEX :: commandByte :: pl ++ [END_SYSEX])
                          b'))
                  = emitted b ++ [Call_user handler pl])).
Proof.
  split.
  - intros [h Hh]. unfold sysexResponse. rewrite Hh. eauto.
  - intros Hnone. unfold sysexResponse. rewrite Hnone.
    eexists. split; [reflexivity |]. split; [reflexivity |].
    split; [cbn [SYSEX_RESPONSE set_SYSEX_RESPONSE]; apply lookup_insert_eq |].
    split.
    + intros bb s c pl t Hbb. cbn [run_sysex]. unfold SYSEX_user.
      rewrite Hbb, payload_frame. split; reflexivity.
    + intros pl Hbuf Hv Hc Hall.
      assert (Hfeed : feed (START_SYSEX :: commandByte :: pl ++ [END_SYSEX])
                        (set_SYSEX_RESPONSE
                           (<[commandByte := H_user handler]> (SYSEX_RESPONSE b))
                           b)
                      = Done (emit (Call_user handler pl)
                                (set_SYSEX_RESPONSE
                                   (<[commandByte := H_user handler]>
                                      (SYSEX_RESPONSE b)) b)));
        [| rewrite Hfeed; split; reflexivity].
      rewrite (feed_sysex_frame (commandByte :: pl)); [| assumption ..| now constructor].
      unfold complete_sysex.
      cbn [currentBuffer set_currentBuffer set_SYSEX_RESPONSE SYSEX_RESPONSE
           versionReceived lookup list_lookup app mbind option_bind].
      rewrite lookup_insert_eq, Hv. cbn [run_sysex bind]. unfold SYSEX_user.
      cbn [currentBuffer set_currentBuffer set_SYSEX_RESPONSE].
      change ((commandByte :: pl) ++ [END_SYSEX])
        with (commandByte :: pl ++ [END_SYSEX]).
      rewrite payload_frame. f_equal.
      destruct b; simpl in *; subst; reflexivity.
Qed.

Lemma sysexResponse_registration_witness :
  (exists message,
      sysexResponse CAPABILITY_RESPONSE 0 greeted_board
      = Raised (Failure message) greeted_board)
  /\ (exists b',
         sysexResponse 0x42 0 greeted_board = Done b'
         /\ SYSEX_RESPONSE b' !! 0x42 = Some (H_user 0)
         /\ emitted
              (board_of
                 (feed (START_SYSEX :: 0x42 :: [0x01; 0x02] ++ [END_SYSEX]) b'))
            = emitted greeted_board ++ [Call_user 0 [0x01; 0x02]]).
Proof.
  split.
  - apply (proj1 (sysexResponse_registration greeted_board
                    CAPABILITY_RESPONSE 0)).
    vm_compute. eauto.
  - destruct (proj2 (sysexResponse_registration greeted_board 0x42 0))
      as (b' & H1 & _ & H3 & _ & H5); [vm_compute; reflexivity |].
    exists b'. split; [exact H1 |]. split; [exact H3 |].
    apply (H5 [0x01; 0x02]).
    + vm_compute. reflexivity.
    + vm_compute. reflexivity.
    + lia.
    + repeat constructor; lia.
Defined.

(** ** Single bits of a port *)

Lemma js_and_7_range x : 0 <= JS.and x 0x07 <= 7.
Proof.
  unfold JS.and. rewrite (to_int32_small 7) by lia.
  replace (Z.land (JS.to_int32 x) 7) with (JS.to_int32 x mod 2 ^ 3)
    by (symmetry; apply (Z.land_ones _ 3); lia).
  pose proof (Z.mod_pos_bound (JS.to_int32 x) (2 ^ 3) ltac:(lia)). lia.
Qed.

Lemma js_shl_1 k : 0 <= k <= 30 -> JS.shl 1 k = 2 ^ k.
Proof.
  intros Hk. unfold JS.shl.
  rewrite (to_int32_small 1) by lia.
  rewrite (Z.mod_small k 32) by lia.
  rewrite Z.shiftl_1_l.
  apply to_int32_small. split.
  - apply Z.le_trans with 0; [lia | apply Z.pow_nonneg; lia].
  - apply Z.pow_lt_mono_r; lia.
Qed.

Lemma testbit_js_or_bit x k j :
  0 <= k <= 30 -> 0 <= j < 32 ->
  Z.testbit (JS.or x (JS.shl 1 k)) j = Z.testbit x j || (k =? j).
Proof.
  intros Hk Hj. unfold JS.or.
  rewrite Z.lor_spec, !to_int32_testbit by lia.
  rewrite js_shl_1 by lia. now rewrite Z.pow2_bits_eqb by lia.
Qed.

Lemma testbit_js_and_not_bit x k j :
  0 <= k <= 30 -> 0 <= j < 32 ->
  Z.testbit (JS.and x (JS.not (JS.shl 1 k))) j = Z.testbit x j && negb (k =? j).
Proof.
  intros Hk Hj. unfold JS.and, JS.not.
  rewrite Z.land_spec, !to_int32_testbit by lia.
  rewrite Z.lnot_spec, to_int32_testbit by lia.
  rewrite js_shl_1 by lia. now rewrite Z.pow2_bits_eqb by lia.
Qed.

(** ** Pin commands *)

Lemma idx_store_eq {A} (arr : list A) i x y :
  idx arr i = Some y -> idx (store arr i x) i = Some x.
Proof.
  unfold idx, store. destruct (i <? 0); [discriminate |].
  intros H. apply list_lookup_insert_eq. now apply lookup_lt_Some in H.
Qed.

Lemma idx_store_ne {A} (arr : list A) i j x :
  0 <= i -> i <> j -> idx (store arr i x) j = idx arr j.
Proof.
  intros Hi Hne. unfold idx, store.
  destruct (Z.ltb_spec j 0) as [Hneg | Hpos]; [reflexivity |].
  apply list_lookup_insert_ne. lia.
Qed.

Lemma idx_Some_range {A} (arr : list A) i x :
  idx arr i = Some x -> 0 <= i < Z.of_nat (length arr).
Proof.
  unfold idx. destruct (Z.ltb_spec i 0) as [Hneg | Hpos]; [discriminate |].
  intros H. apply lookup_lt_Some in H. lia.
Qed.

Lemma remap_ge b pin : pin <= remap b pin.
Proof. unfold remap. destruct (_ && _ && _); lia. Qed.

Lemma remap_plain b pin : is_sp b = false -> remap b pin = pin.
Proof. unfold remap. now intros ->. Qed.

Lemma pins_writeToTransport data b : pins (writeToTransport data b) = pins b.
Proof. reflexivity. Qed.

Lemma sent_writeToTransport data b :
  sent (writeToTransport data b) = sent b ++ [data].
Proof. reflexivity. Qed.

Lemma set_port_bit_frame pin val b :
  set_port_bit pin val b = set_ports (ports (set_port_bit pin val b)) b.
Proof. unfold set_port_bit. destruct (JS.truthy val); reflexivity. Qed.

Lemma set_port_bit_pins pin val b : pins (set_port_bit pin val b) = pins b.
Proof. now rewrite set_port_bit_frame. Qed.

Lemma set_port_bit_sent pin val b : sent (set_port_bit pin val b) = sent b.
Proof. now rewrite set_port_bit_frame. Qed.

Lemma num_Some x : num (Some x) = x.
Proof. reflexivity. Qed.

Lemma set_port_bit_testbit pin val b :
  Z.testbit (port_bits (set_port_bit pin val b) (JS.sar pin 3)) (JS.and pin 0x07)
  = JS.truthy val.
Proof.
  pose proof (js_and_7_range pin) as Hk.
  unfold port_bits, set_port_bit.
  destruct (JS.truthy val); cbn [ports set_ports];
    rewrite lookup_insert_eq, num_Some.
  - rewrite testbit_js_or_bit by lia. rewrite Z.eqb_refl. apply orb_true_r.
  - rewrite testbit_js_and_not_bit by lia. rewrite Z.eqb_refl.
    apply andb_false_r.
Qed.

(** *** What the commands leave, case by case *)

(** [pinMode]: the bytes are handed over at the call, the pins wait for
    the answer. *)
Lemma pinMode_submitted pin mode' b :
  pinMode pin mode' b
  = (writeToTransport [PIN_MODE; pin; mode'] b,
     Awaiting (fun ack b' =>
                 if ack then assign_mode pin mode' b'
                 else (b', Settled Refused))).
Proof. reflexivity. Qed.

Lemma assign_mode_Some pin mode' b p :
  idx (pins b) pin = Some p ->
  assign_mode pin mode' b
  = (set_pins (store (pins b) pin (set_mode (Some mode') p)) b,
     Settled (Resolved None)).
Proof. intros H. unfold assign_mode. now rewrite H. Qed.

Lemma assign_value_Some pin val b p :
  idx (pins b) pin = Some p ->
  assign_value pin val b
  = (set_pins (store (pins b) pin (set_value val p)) b,
     Settled (Resolved None)).
Proof. intros H. unfold assign_value. now rewrite H. Qed.

(** [digitalWrite] on a pin that exists, by the state of the pin. *)
Lemma digitalWrite_same b pin val p :
  idx (pins b) (remap b pin) = Some p ->
  mode p = Some MODES.OUTPUT -> value p = val ->
  digitalWrite pin val b
  = (set_port_bit (remap b pin) val b, Settled (Resolved None)).
Proof.
  intros Hp Hm Hv. pose proof (idx_Some_range _ _ _ Hp) as Hr.
  unfold digitalWrite. cbv zeta. rewrite set_port_bit_pins, Hp.
  replace (Z.of_nat (length (pins b)) >? remap b pin) with true
    by (symmetry; apply Z.gtb_lt; lia).
  rewrite bool_decide_eq_true_2 by exact Hm.
  replace (value p =? val) with true by (symmetry; now apply Z.eqb_eq).
  reflexivity.
Qed.

Lemma digitalWrite_value b pin val p :
  idx (pins b) (remap b pin) = Some p ->
  mode p = Some MODES.OUTPUT -> value p <> val ->
  digitalWrite pin val b
  = value_write (JS.sar (remap b pin) 3) (remap b pin) val
      (set_port_bit (remap b pin) val b).
Proof.
  intros Hp Hm Hv. pose proof (idx_Some_range _ _ _ Hp) as Hr.
  unfold digitalWrite. cbv zeta. rewrite set_port_bit_pins, Hp.
  replace (Z.of_nat (length (pins b)) >? remap b pin) with true
    by (symmetry; apply Z.gtb_lt; lia).
  rewrite bool_decide_eq_true_2 by exact Hm.
  replace (value p =? val) with false by (symmetry; now apply Z.eqb_neq).
  reflexivity.
Qed.

Lemma digitalWrite_setmode b pin val p :
  idx (pins b) (remap b pin) = Some p ->
  mode p <> Some MODES.OUTPUT ->
  digitalWrite pin val b
  = (writeToTransport [PIN_MODE; remap b pin; MODES.OUTPUT]
       (set_port_bit (remap b pin) val b),
     Awaiting (fun ack b' =>
                 match (if ack then assign_mode (remap b pin) MODES.OUTPUT b'
                        else (b', Settled Refused)) with
                 | (b'', c') =>
                     and_then c'
                       (value_write (JS.sar (remap b pin) 3) (remap b pin) val)
                       b''
                 end)).
Proof.
  intros Hp Hm. pose proof (idx_Some_range _ _ _ Hp) as Hr.
  unfold digitalWrite. cbv zeta. rewrite set_port_bit_pins, Hp.
  replace (Z.of_nat (length (pins b)) >? remap b pin) with true
    by (symmetry; apply Z.gtb_lt; lia).
  rewrite bool_decide_eq_false_2 by exact Hm.
  cbn [negb]. rewrite orb_true_r. reflexivity.
Qed.

(** C4. [pinMode] does not consult [supportedModes]: for every pin that
    exists and every mode, supported or not, it hands [PIN_MODE, pin,
    mode] to the transport at once and changes no pin until the write is
    answered.  When the write is acknowledged, whatever the board has
    become by then, the promise resolves and the pin's mode is set to the
    requested one, the other pins left alone; when the write is refused,
    the promise is rejected and the board stays as it is.  A digital write
    whose pin (the one the command addresses) is not in OUTPUT mode hands
    over the mode change the same way, and the value-write message once
    the mode change is acknowledged. *)
Theorem pinMode_sends_and_sets (b : Board) (pin mode' : Z) (p : Pin) :
  idx (pins b) pin = Some p ->
  sent (fst (pinMode pin mode' b)) = sent b ++ [[PIN_MODE; pin; mode']]
  /\ pins (fst (pinMode pin mode' b)) = pins b
  /\ (exists k,
         snd (pinMode pin mode' b) = Awaiting k
         /\ (forall b' p',
                idx (pins b') pin = Some p' ->
                k true b'
                = (set_pins (store (pins b') pin (set_mode (Some mode') p')) b',
                   Settled (Resolved None)))
         /\ (forall b', k false b' = (b', Settled Refused)))
  /\ snd (acknowledge true (pinMode pin mode' b)) = Settled (Resolved None)
  /\ sent (fst (acknowledge true (pinMode pin mode' b)))
     = sent b ++ [[PIN_MODE; pin; mode']]
  /\ idx (pins (fst (acknowledge true (pinMode pin mode' b)))) pin
     = Some (set_mode (Some mode') p)
  /\ (forall j, j <> pin ->
        idx (pins (fst (acknowledge true (pinMode pin mode' b)))) j
        = idx (pins b) j)
  /\ acknowledge false (pinMode pin mode' b)
     = (fst (pinMode pin mode' b), Settled Refused)
  /\ (forall val p',
        idx (pins b) (remap b pin) = Some p' ->
        mode p' <> Some MODES.OUTPUT ->
        sent (fst (digitalWrite pin val b))
        = sent b ++ [[PIN_MODE; remap b pin; MODES.OUTPUT]]
        /\ pins (fst (digitalWrite pin val b)) = pins b
        /\ sent (fst (acknowledge true (digitalWrite pin val b)))
           = sent b ++ [[PIN_MODE; remap b pin; MODES.OUTPUT];
                        digital_message (JS.sar (remap b pin) 3)
                          (set_port_bit (remap b pin) val b)]
        /\ idx (pins (fst (acknowledge true (digitalWrite pin val b))))
             (remap b pin)
           = Some (set_mode (Some MODES.OUTPUT) p')
        /\ acknowledge false (digitalWrite pin val b)
           = (fst (digitalWrite pin val b), Settled Refused)).
Proof.
  intros Hp. pose proof (idx_Some_range _ _ _ Hp) as Hr.
  rewrite pinMode_submitted. unfold acknowledge. cbn [fst snd].
  rewrite (assign_mode_Some pin mode' _ p)
    by (rewrite pins_writeToTransport; exact Hp).
  cbn [fst snd pins set_pins]. rewrite !pins_writeToTransport.
  split; [reflexivity |]. split; [reflexivity |]. split.
  { eexists. split; [reflexivity |]. split.
    - intros b' p' Hp'. now apply assign_mode_Some.
    - reflexivity. }
  split; [reflexivity |]. split; [reflexivity |].
  split; [now apply idx_store_eq with p |].
  split; [intros j Hj; apply idx_store_ne; lia |].
  split; [reflexivity |].
  intros val p' Hp' Hm'.
  rewrite (digitalWrite_setmode b pin val p' Hp' Hm'). cbn [fst snd].
  rewrite (assign_mode_Some (remap b pin) MODES.OUTPUT _ p')
    by (rewrite pins_writeToTransport, set_port_bit_pins; exact Hp').
  cbn [and_then in_then value_write write_then fst snd].
  rewrite !sent_writeToTransport, !pins_writeToTransport.
  cbn [sent pins set_pins]. rewrite sent_writeToTransport.
  rewrite set_port_bit_pins, set_port_bit_sent.
  split; [reflexivity |]. split; [reflexivity |].
  split.
  - rewrite <- app_assoc. reflexivity.
  - split; [now apply idx_store_eq with p' | reflexivity].
Qed.

Lemma pinMode_sends_and_sets_witness :
  sent (fst (pinMode 0 MODES.OUTPUT two_pin_board))
  = sent two_pin_board ++ [[PIN_MODE; 0; MODES.OUTPUT]]
  /\ pins (fst (pinMode 0 MODES.OUTPUT two_pin_board)) = pins two_pin_board
  /\ snd (acknowledge true (pinMode 0 MODES.OUTPUT two_pin_board))
     = Settled (Resolved None)
  /\ idx (pins (fst (acknowledge true (pinMode 0 MODES.OUTPUT two_pin_board)))) 0
     = Some (set_mode (Some MODES.OUTPUT) (mkPin [0] None 0 1 None None None))
  /\ acknowledge false (pinMode 0 MODES.OUTPUT two_pin_board)
     = (fst (pinMode 0 MODES.OUTPUT two_pin_board), Settled Refused)
  /\ sent (fst (digitalWrite 0 1 two_pin_board))
     = sent two_pin_board ++ [[PIN_MODE; 0; MODES.OUTPUT]]
  /\ sent (fst (acknowledge true (digitalWrite 0 1 two_pin_board)))
     = sent two_pin_board ++ [[PIN_MODE; 0; MODES.OUTPUT]; [0x90; 0x01; 0x00]].
Proof.
  destruct (pinMode_sends_and_sets two_pin_board 0 MODES.OUTPUT
              (mkPin [0] None 0 1 None None None))
    as (H1 & H2 & _ & H4 & _ & H6 & _ & H8 & H9);
    [vm_compute; reflexivity |].
  destruct (H9 1 (mkPin [0] None 0 1 None None None))
    as (D1 & _ & D3 & _); [vm_compute; reflexivity | discriminate |].
  split; [exact H1 |]. split; [exact H2 |]. split; [exact H4 |].
  split; [exact H6 |]. split; [exact H8 |].
  split; [exact D1 |].
  rewrite D3. vm_compute. reflexivity.
Defined.

(** Counterexample to C4 as stated: pin 0 of the two-pin board supports
    mode 0 only, yet a request for OUTPUT is handed to the transport and,
    once acknowledged, resolves and takes effect. *)
Lemma pinMode_unsupported_mode_accepted :
  supportedModes <$> pins two_pin_board !! 0%nat = Some [MODES.INPUT]
  /\ sent (fst (pinMode 0 MODES.OUTPUT two_pin_board))
     = [[PIN_MODE; 0; MODES.OUTPUT]]
  /\ snd (acknowledge true (pinMode 0 MODES.OUTPUT two_pin_board))
     = Settled (Resolved None)
  /\ mode <$> pins (fst (acknowledge true
                           (pinMode 0 MODES.OUTPUT two_pin_board))) !! 0%nat
     = Some (Some MODES.OUTPUT).
Proof. by_evaluation. Qed.

(** C7. On a pin that is in OUTPUT mode [digitalWrite] never sends the
    mode-set sequence.  When the stored value equals the value written it
    sends nothing at all, resolves and leaves the pins as they were; when
    the stored value differs it hands over the digital value-write
    message and nothing else, at the call or when the write is answered:
    acknowledged, the promise resolves with the value stored in the pin;
    refused, it is rejected. *)
Theorem digitalWrite_output_pin (b : Board) (pin val : Z) (p : Pin) :
  idx (pins b) (remap b pin) = Some p ->
  mode p = Some MODES.OUTPUT ->
  (value p = val ->
     sent (fst (digitalWrite pin val b)) = sent b
     /\ snd (digitalWrite pin val b) = Settled (Resolved None)
     /\ pins (fst (digitalWrite pin val b)) = pins b)
  /\ (value p <> val ->
     sent (fst (digitalWrite pin val b))
     = sent b ++ [digital_message (JS.sar (remap b pin) 3)
                    (set_port_bit (remap b pin) val b)]
     /\ pins (fst (digitalWrite pin val b)) = pins b
     /\ (forall ack,
           sent (fst (acknowledge ack (digitalWrite pin val b)))
           = sent (fst (digitalWrite pin val b)))
     /\ snd (acknowledge true (digitalWrite pin val b))
        = Settled (Resolved None)
     /\ idx (pins (fst (acknowledge true (digitalWrite pin val b))))
          (remap b pin)
        = Some (set_value val p)
     /\ acknowledge false (digitalWrite pin val b)
        = (fst (digitalWrite pin val b), Settled Refused)).
Proof.
  intros Hp Hm. split; intros Hv.
  - rewrite (digitalWrite_same b pin val p Hp Hm Hv). cbn [fst snd].
    split; [apply set_port_bit_sent |].
    split; [reflexivity | apply set_port_bit_pins].
  - rewrite (digitalWrite_value b pin val p Hp Hm Hv).
    unfold value_write, write_then, acknowledge. cbn [fst snd].
    rewrite (assign_value_Some (remap b pin) val _ p)
      by (rewrite pins_writeToTransport, set_port_bit_pins; exact Hp).
    cbn [fst snd pins set_pins sent].
    rewrite sent_writeToTransport, pins_writeToTransport,
      set_port_bit_sent, set_port_bit_pins.
    split; [reflexivity |]. split; [reflexivity |].
    split;
      [intros [|]; cbn [fst sent set_pins];
       rewrite ?sent_writeToTransport, ?set_port_bit_sent; reflexivity |].
    split; [reflexivity |].
    split; [now apply idx_store_eq with p | reflexivity].
Qed.

Lemma digitalWrite_output_pin_witness :
  (sent (fst (digitalWrite 0 1 driven_board)) = sent driven_board
   /\ snd (digitalWrite 0 1 driven_board) = Settled (Resolved None)
   /\ pins (fst (digitalWrite 0 1 driven_board)) = pins driven_board)
  /\ sent (fst (digitalWrite 0 0 driven_board))
     = sent driven_board ++ [[0x90; 0x00; 0x00]]
  /\ snd (acknowledge true (digitalWrite 0 0 driven_board))
     = Settled (Resolved None)
  /\ idx (pins (fst (acknowledge true (digitalWrite 0 0 driven_board)))) 0
     = Some (mkPin [0] (Some 1) 0 1 None None None).
Proof.
  split.
  - apply (digitalWrite_output_pin driven_board 0 1
             (mkPin [0] (Some 1) 1 1 None None None));
      vm_compute; reflexivity.
  - destruct (digitalWrite_output_pin driven_board 0 0
                (mkPin [0] (Some 1) 1 1 None None None)) as [_ H];
      [vm_compute; reflexivity | vm_compute; reflexivity |].
    destruct H as (S1 & _ & _ & S4 & S5 & _); [discriminate |].
    split; [rewrite S1; vm_compute; reflexivity |].
    split; [exact S4 | exact S5].
Defined.

(** Counterexample to C7 as stated: pin 0 of the driven board is in
    OUTPUT mode with value 1, and writing 1 to it again sends no
    value-write message: the transport sees nothing new. *)
Lemma digitalWrite_same_value_sends_nothing :
  mode <$> pins driven_board !! 0%nat = Some (Some MODES.OUTPUT)
  /\ value <$> pins driven_board !! 0%nat = Some 1
  /\ sent driven_board = [[PIN_MODE; 0; MODES.OUTPUT]; [0x90; 0x01; 0x00]]
  /\ sent (fst (digitalWrite 0 1 driven_board)) = sent driven_board
  /\ snd (digitalWrite 0 1 driven_board) = Settled (Resolved None).
Proof. by_evaluation. Qed.

(** *** The port bitmask *)

Lemma js_and_7_shift_range x : 0 <= JS.and x 0x07 <= 30.
Proof. pose proof (js_and_7_range x). lia. Qed.

(** Setting a bit changes that bit of the 32-bit value and no other. *)
Lemma testbit_js_or_bit_all x k j :
  0 <= k <= 30 -> 0 <= j ->
  Z.testbit (JS.or x (JS.shl 1 k)) j
  = if j =? k then true else Z.testbit (JS.to_int32 x) j.
Proof.
  intros Hk Hj. unfold JS.or. rewrite js_shl_1 by lia.
  assert (Hpow : 0 < 2 ^ k < 2 ^ 31)
    by (split; [apply Z.pow_pos_nonneg; lia | apply Z.pow_lt_mono_r; lia]).
  rewrite (to_int32_small (2 ^ k)) by lia.
  rewrite Z.lor_spec, Z.pow2_bits_eqb by lia.
  rewrite (Z.eqb_sym k j). destruct (j =? k); [apply orb_true_r | apply orb_false_r].
Qed.

(** Clearing a bit changes that bit of the 32-bit value and no other. *)
Lemma testbit_js_and_not_bit_all x k j :
  0 <= k <= 30 -> 0 <= j ->
  Z.testbit (JS.and x (JS.not (JS.shl 1 k))) j
  = if j =? k then false else Z.testbit (JS.to_int32 x) j.
Proof.
  intros Hk Hj. unfold JS.and, JS.not. rewrite js_shl_1 by lia.
  assert (Hpow : 0 < 2 ^ k < 2 ^ 31)
    by (split; [apply Z.pow_pos_nonneg; lia | apply Z.pow_lt_mono_r; lia]).
  rewrite (to_int32_small (2 ^ k)) by lia.
  rewrite (to_int32_small (Z.lnot (2 ^ k))) by (unfold Z.lnot; lia).
  rewrite Z.land_spec, Z.lnot_spec, Z.pow2_bits_eqb by lia.
  rewrite (Z.eqb_sym k j). destruct (j =? k); [apply andb_false_r | apply andb_true_r].
Qed.

(** [set_port_bit] as one assignment to [ports], with the value assigned
    given bit by bit. *)
Lemma set_port_bit_exact pin val b :
  exists x,
    set_port_bit pin val b = set_ports (<[JS.sar pin 3 := x]> (ports b)) b
    /\ forall j, 0 <= j ->
         Z.testbit x j
         = if j =? JS.and pin 0x07 then JS.truthy val
           else Z.testbit (JS.to_int32 (port_bits b (JS.sar pin 3))) j.
Proof.
  pose proof (js_and_7_shift_range pin) as Hk.
  unfold set_port_bit, port_bits. cbv zeta.
  destruct (JS.truthy val); eexists; (split; [reflexivity |]); intros j Hj.
  - now apply testbit_js_or_bit_all.
  - now apply testbit_js_and_not_bit_all.
Qed.

(** C10. A digital write to a pin index beyond the pins array is rejected
    with "Invalid digital write" and sends nothing, yet the port bitmask
    has been changed by then: with [p] the pin the command addresses
    ([pin + 10] for pins 14 to 21 under a firmware whose name starts with
    [sp], [pin] otherwise), [ports[p >> 3]] is assigned its 32-bit value
    with bit [p & 7] set or cleared according to the value written and
    every other bit as it was.  Nothing else on the board changes: the
    other ports, the pins and every other field are the same. *)
Theorem digitalWrite_out_of_range (b : Board) (pin val : Z) :
  Z.of_nat (length (pins b)) <= pin ->
  snd (digitalWrite pin val b) = Settled (Rejected "Invalid digital write")
  /\ sent (fst (digitalWrite pin val b)) = sent b
  /\ Z.testbit (port_bits (fst (digitalWrite pin val b)) (JS.sar (remap b pin) 3))
       (JS.and (remap b pin) 0x07)
     = JS.truthy val
  /\ fst (digitalWrite pin val b)
     = set_ports (ports (fst (digitalWrite pin val b))) b
  /\ (is_sp b = false -> remap b pin = pin)
  /\ (exists x,
         fst (digitalWrite pin val b)
         = set_ports (<[JS.sar (remap b pin) 3 := x]> (ports b)) b
         /\ forall j, 0 <= j ->
              Z.testbit x j
              = if j =? JS.and (remap b pin) 0x07 then JS.truthy val
                else Z.testbit
                       (JS.to_int32 (port_bits b (JS.sar (remap b pin) 3))) j)
  /\ (forall prt, prt <> JS.sar (remap b pin) 3 ->
        ports (fst (digitalWrite pin val b)) !! prt = ports b !! prt)
  /\ (forall j, 0 <= j -> j <> JS.and (remap b pin) 0x07 ->
        Z.testbit (port_bits (fst (digitalWrite pin val b))
                     (JS.sar (remap b pin) 3)) j
        = Z.testbit (JS.to_int32 (port_bits b (JS.sar (remap b pin) 3))) j)
  /\ pins (fst (digitalWrite pin val b)) = pins b.
Proof.
  intros Hlen. pose proof (remap_ge b pin) as Hge.
  assert (Hd : digitalWrite pin val b
               = (set_port_bit (remap b pin) val b,
                  Settled (Rejected "Invalid digital write"))).
  { unfold digitalWrite. cbv zeta. rewrite set_port_bit_pins.
    replace (Z.of_nat (length (pins b)) >? remap b pin) with false
      by (symmetry; rewrite Z.gtb_ltb; apply Z.ltb_ge; lia).
    reflexivity. }
  rewrite Hd. cbn [fst snd].
  destruct (set_port_bit_exact (remap b pin) val b) as (x & Hx & Hbits).
  split; [reflexivity |]. split; [apply set_port_bit_sent |].
  split; [apply set_port_bit_testbit |].
  split; [apply set_port_bit_frame |].
  split; [apply remap_plain |].
  split; [exists x; split; [exact Hx | exact Hbits] |].
  split; [| split; [| apply set_port_bit_pins]].
  - intros prt Hprt. rewrite Hx. cbn [ports set_ports].
    apply lookup_insert_ne. congruence.
  - intros j Hj Hne. rewrite Hx. unfold port_bits at 1. cbn [ports set_ports].
    rewrite lookup_insert_eq, num_Some, (Hbits j Hj).
    now replace (j =? JS.and (remap b pin) 7) with false
      by (symmetry; now apply Z.eqb_neq).
Qed.

Lemma digitalWrite_out_of_range_witness :
  snd (digitalWrite 14 1 sp_board) = Settled (Rejected "Invalid digital write")
  /\ sent (fst (digitalWrite 14 1 sp_board)) = sent sp_board
  /\ Z.testbit (port_bits (fst (digitalWrite 14 1 sp_board)) 3) 0 = true
  /\ (forall prt, prt <> 3 ->
        ports (fst (digitalWrite 14 1 sp_board)) !! prt = ports sp_board !! prt)
  /\ (forall j, 0 <= j -> j <> 0 ->
        Z.testbit (port_bits (fst (digitalWrite 14 1 sp_board)) 3) j
        = Z.testbit (JS.to_int32 (port_bits sp_board 3)) j)
  /\ pins (fst (digitalWrite 14 1 sp_board)) = pins sp_board.
Proof.
  destruct (digitalWrite_out_of_range sp_board 14 1)
    as (H1 & H2 & H3 & _ & _ & _ & H7 & H8 & H9);
    [vm_compute; discriminate |].
  split; [exact H1 |]. split; [exact H2 |]. split; [exact H3 |].
  split; [exact H7 |]. split; [exact H8 | exact H9].
Defined.

(** Counterexample to C10 as stated: after a firmware report with the
    name [sp] and before any capability reply, a write of 1 to pin 14 is
    rejected, but bit [14 & 7] of [ports[14 >> 3]] stays clear; the bit
    that is set belongs to pin 24. *)
Lemma digitalWrite_out_of_range_remapped :
  name (firmware sp_board) = Some "sp"%string
  /\ pins sp_board = []
  /\ snd (digitalWrite 14 1 sp_board)
     = Settled (Rejected "Invalid digital write")
  /\ Z.testbit (port_bits (fst (digitalWrite 14 1 sp_board)) (JS.sar 14 3))
       (JS.and 14 0x07) = false
  /\ Z.testbit (port_bits (fst (digitalWrite 14 1 sp_board)) (JS.sar 24 3))
       (JS.and 24 0x07) = true.
Proof. by_evaluation. Qed.

(** ** The firmware name *)

Lemma set_port_bit_firmware fw pin val b :
  set_port_bit pin val (set_firmware fw b)
  = set_firmware fw (set_port_bit pin val b).
Proof. unfold set_port_bit. destruct (JS.truthy val); reflexivity. Qed.

Lemma is_sp_pinMode pin mode' b : is_sp (fst (pinMode pin mode' b)) = is_sp b.
Proof. reflexivity. Qed.

Lemma assign_mode_firmware fw pin mode' b :
  assign_mode pin mode' (set_firmware fw b)
  = (set_firmware fw (fst (assign_mode pin mode' b)),
     snd (assign_mode pin mode' b)).
Proof.
  unfold assign_mode. cbn [pins set_firmware].
  destruct (idx (pins b) pin); reflexivity.
Qed.

Lemma assign_value_firmware fw pin val b :
  assign_value pin val (set_firmware fw b)
  = (set_firmware fw (fst (assign_value pin val b)),
     snd (assign_value pin val b)).
Proof.
  unfold assign_value. cbn [pins set_firmware].
  destruct (idx (pins b) pin); reflexivity.
Qed.

Lemma assign_mode_settled pin mode' b :
  exists r, snd (assign_mode pin mode' b) = Settled r.
Proof. unfold assign_mode. destruct (idx (pins b) pin); eauto. Qed.

Lemma assign_value_settled pin val b :
  exists r, snd (assign_value pin val b) = Settled r.
Proof. unfold assign_value. destruct (idx (pins b) pin); eauto. Qed.

(** The chains of [pinMode] and of the value write do not look at the
    firmware record. *)
Lemma pinMode_blind pin mode' b : firmware_blind (snd (pinMode pin mode' b)).
Proof.
  cbn [pinMode write_then snd firmware_blind]. intros [|] b' fw.
  - rewrite assign_mode_firmware. cbn [fst snd].
    split; [reflexivity |]. split; [reflexivity |].
    destruct (assign_mode_settled pin mode' b') as [r Hr].
    destruct (assign_mode pin mode' b') as [b'' c']. cbn [snd] in Hr.
    now rewrite Hr.
  - repeat split.
Qed.

Lemma value_write_firmware fw port pin val b :
  value_write port pin val (set_firmware fw b)
  = (set_firmware fw (fst (value_write port pin val b)),
     snd (value_write port pin val b)).
Proof. reflexivity. Qed.

Lemma value_write_blind port pin val b :
  firmware_blind (snd (value_write port pin val b)).
Proof.
  cbn [value_write write_then snd firmware_blind]. intros [|] b' fw.
  - rewrite assign_value_firmware. cbn [fst snd].
    split; [reflexivity |]. split; [reflexivity |].
    destruct (assign_value_settled pin val b') as [r Hr].
    destruct (assign_value pin val b') as [b'' c']. cbn [snd] in Hr.
    now rewrite Hr.
  - repeat split.
Qed.

(** The value write chained on a settled mode change. *)
Lemma and_then_settled_firmware fw r port pin val b :
  and_then (Settled r) (value_write port pin val) (set_firmware fw b)
  = (set_firmware fw
       (fst (and_then (Settled r) (value_write port pin val) b)),
     snd (and_then (Settled r) (value_write port pin val) b))
  /\ firmware_blind (snd (and_then (Settled r) (value_write port pin val) b)).
Proof.
  destruct r; cbn [and_then]; try (split; [reflexivity | exact I]).
  unfold in_then. cbn [value_write write_then snd fst].
  split; [reflexivity | apply (value_write_blind port pin val b)].
Qed.

Lemma setmode_chain_blind port pin val :
  firmware_blind
    (Awaiting (fun ack b' =>
                 match (if ack then assign_mode pin MODES.OUTPUT b'
                        else (b', Settled Refused)) with
                 | (b'', c') => and_then c' (value_write port pin val) b''
                 end)).
Proof.
  cbn [firmware_blind]. intros [|] b' fw.
  - rewrite assign_mode_firmware.
    destruct (assign_mode_settled pin MODES.OUTPUT b') as [r Hr].
    destruct (assign_mode pin MODES.OUTPUT b') as [b'' c']. cbn [fst snd] in *.
    subst c'.
    destruct (and_then_settled_firmware fw r port pin val b'') as [E B].
    rewrite E. cbn [fst snd]. split; [reflexivity |]. split; [reflexivity |].
    destruct (and_then (Settled r) (value_write port pin val) b'').
    exact B.
  - cbn [and_then]. repeat split.
Qed.

Lemma detached_pinMode_blind pin mode' b :
  firmware_blind (detached (snd (pinMode pin mode' b))).
Proof.
  cbn [pinMode write_then snd detached firmware_blind]. intros [|] b' fw.
  - rewrite assign_mode_firmware.
    destruct (assign_mode_settled pin mode' b') as [r Hr].
    destruct (assign_mode pin mode' b') as [b'' c']. cbn [fst snd] in *.
    subst c'. cbn [detached]. repeat split.
  - cbn [detached]. repeat split.
Qed.

(** Whatever the transport answers, a chain that does not look at the
    firmware record runs alike on two boards that differ in it alone. *)
Lemma acknowledge_all_firmware fw acks : forall b c,
  firmware_blind c ->
  acknowledge_all acks (set_firmware fw b, c)
  = (set_firmware fw (fst (acknowledge_all acks (b, c))),
     snd (acknowledge_all acks (b, c))).
Proof.
  induction acks as [| ack acks IH]; intros b c Hc; [reflexivity |].
  unfold acknowledge_all in *. cbn [fold_left].
  destruct c as [r | k].
  - change (acknowledge ack (set_firmware fw b, Settled r))
      with (set_firmware fw b, Settled r).
    change (acknowledge ack (b, Settled r)) with (b, Settled r).
    now apply IH.
  - change (acknowledge ack (set_firmware fw b, Awaiting k))
      with (k ack (set_firmware fw b)).
    change (acknowledge ack (b, Awaiting k)) with (k ack b).
    cbn [firmware_blind] in Hc. specialize (Hc ack b fw).
    destruct (k ack b) as [b1 c1].
    destruct (k ack (set_firmware fw b)) as [b2 c2].
    cbn [fst snd] in Hc. destruct Hc as (-> & -> & B).
    now apply IH.
Qed.

Lemma digitalWrite_firmware b fw pin val :
  is_sp (set_firmware fw b) = is_sp b ->
  digitalWrite pin val (set_firmware fw b)
  = (set_firmware fw (fst (digitalWrite pin val b)),
     snd (digitalWrite pin val b))
  /\ firmware_blind (snd (digitalWrite pin val b)).
Proof.
  intros Hsp.
  assert (Hre : remap (set_firmware fw b) pin = remap b pin)
    by (unfold remap; now rewrite Hsp).
  unfold digitalWrite. cbv zeta. rewrite Hre, set_port_bit_firmware.
  generalize (set_port_bit (remap b pin) val b) as b1. intros b1.
  cbn [pins set_firmware].
  destruct (_ >? _); [| split; [reflexivity | exact I]].
  destruct (idx (pins b1) (remap b pin)) as [p |];
    [| split; [reflexivity | exact I]].
  destruct (negb (bool_decide (mode p = Some MODES.OUTPUT))).
  - rewrite orb_true_r. cbn [pinMode write_then and_then fst snd].
    split; [reflexivity | apply setmode_chain_blind].
  - rewrite orb_false_r. destruct (negb _); [| split; [reflexivity | exact I]].
    cbn [and_then fst snd]. unfold in_then.
    cbn [value_write write_then snd fst].
    split; [reflexivity |].
    apply (value_write_blind (JS.sar (remap b pin) 3) (remap b pin) val b1).
Qed.

Lemma digitalRead_firmware b fw pin :
  is_sp (set_firmware fw b) = is_sp b ->
  digitalRead pin (set_firmware fw b)
  = (set_firmware fw (fst (digitalRead pin b)), snd (digitalRead pin b))
  /\ firmware_blind (snd (digitalRead pin b)).
Proof.
  intros Hsp.
  assert (Hre : remap (set_firmware fw b) pin = remap b pin)
    by (unfold remap; now rewrite Hsp).
  unfold digitalRead. cbv zeta. rewrite Hre.
  cbn [pins set_firmware].
  destruct (_ >? _); [| split; [reflexivity | exact I]].
  destruct (idx (pins b) (remap b pin)) as [p |];
    [| split; [reflexivity | exact I]].
  destruct (negb _); [| split; [reflexivity | exact I]].
  rewrite !is_sp_pinMode.
  change (is_sp (fst (pinMode (remap b pin) MODES.INPUT (set_firmware fw b))))
    with (is_sp (set_firmware fw b)).
  rewrite Hsp. cbn [snd].
  split; [destruct (is_sp b); reflexivity |].
  apply detached_pinMode_blind.
Qed.

(** C9. The digital commands depend on the firmware name only through
    the test "starts with [sp]": two runs on boards that differ in the
    firmware record alone, and agree on that test, address the same pin,
    submit the same byte sequences, settle alike and leave boards that
    again differ in the firmware record alone, at the call and after any
    sequence of answers from the transport. *)
Theorem digital_commands_firmware (b : Board) (fw : Firmware) (pin val : Z) :
  is_sp (set_firmware fw b) = is_sp b ->
  remap (set_firmware fw b) pin = remap b pin
  /\ digitalWrite pin val (set_firmware fw b)
     = (set_firmware fw (fst (digitalWrite pin val b)),
        snd (digitalWrite pin val b))
  /\ digitalRead pin (set_firmware fw b)
     = (set_firmware fw (fst (digitalRead pin b)), snd (digitalRead pin b))
  /\ sent (fst (digitalWrite pin val (set_firmware fw b)))
     = sent (fst (digitalWrite pin val b))
  /\ sent (fst (digitalRead pin (set_firmware fw b)))
     = sent (fst (digitalRead pin b))
  /\ (forall acks,
        acknowledge_all acks (digitalWrite pin val (set_firmware fw b))
        = (set_firmware fw
             (fst (acknowledge_all acks (digitalWrite pin val b))),
           snd (acknowledge_all acks (digitalWrite pin val b)))
        /\ sent (fst (acknowledge_all acks
                        (digitalWrite pin val (set_firmware fw b))))
           = sent (fst (acknowledge_all acks (digitalWrite pin val b))))
  /\ (forall acks,
        acknowledge_all acks (digitalRead pin (set_firmware fw b))
        = (set_firmware fw
             (fst (acknowledge_all acks (digitalRead pin b))),
           snd (acknowledge_all acks (digitalRead pin b)))
        /\ sent (fst (acknowledge_all acks
                        (digitalRead pin (set_firmware fw b))))
           = sent (fst (acknowledge_all acks (digitalRead pin b)))).
Proof.
  intros Hsp.
  assert (Hre : remap (set_firmware fw b) pin = remap b pin)
    by (unfold remap; now rewrite Hsp).
  destruct (digitalWrite_firmware b fw pin val Hsp) as [Hw Bw].
  destruct (digitalRead_firmware b fw pin Hsp) as [Hr Br].
  split; [exact Hre |]. split; [exact Hw |]. split; [exact Hr |].
  split; [rewrite Hw; reflexivity |]. split; [rewrite Hr; reflexivity |].
  split; intros acks.
  - rewrite Hw, acknowledge_all_firmware by exact Bw.
    rewrite <- surjective_pairing. split; reflexivity.
  - rewrite Hr, acknowledge_all_firmware by exact Br.
    rewrite <- surjective_pairing. split; reflexivity.
Qed.

Lemma digital_commands_firmware_witness :
  sent (fst (digitalRead 0
               (set_firmware (mkFirmware (Some "StandardFirmata"%string) (Some 2) (Some 5))
                  two_pin_board)))
  = sent (fst (digitalRead 0 two_pin_board))
  /\ sent (fst (acknowledge_all [true; true]
                  (digitalWrite 0 1
                     (set_firmware
                        (mkFirmware (Some "StandardFirmata"%string) (Some 2) (Some 5))
                        two_pin_board))))
     = sent (fst (acknowledge_all [true; true] (digitalWrite 0 1 two_pin_board))).
Proof.
  destruct (digital_commands_firmware two_pin_board
              (mkFirmware (Some "StandardFirmata"%string) (Some 2) (Some 5)) 0 1)
    as (_ & _ & _ & _ & H5 & H6 & _); [vm_compute; reflexivity |].
  split; [exact H5 |]. exact (proj2 (H6 [true; true])).
Defined.

(** Counterexample to C9 as stated: two runs see the same traffic except
    for the firmware name, [sp] in one and [st] in the other, and end on
    boards that differ in that name alone; in the [sp] run a write to pin
    14 addresses pin 24 and puts other bytes on the transport, and a read
    asks for a fourth port to be reported. *)
Lemma digital_commands_depend_on_firmware_name :
  name (firmware wide_board_sp) = Some "sp"%string
  /\ name (firmware wide_board_st) = Some "st"%string
  /\ set_firmware (firmware wide_board_st) wide_board_sp = wide_board_st
  /\ remap wide_board_st 14 = 14
  /\ remap wide_board_sp 14 = 24
  /\ sent (fst (acknowledge true (digitalWrite 14 1 wide_board_st)))
     = sent wide_board_st ++ [[0xF4; 14; 1]; [0x91; 0x40; 0x00]]
  /\ sent (fst (acknowledge true (digitalWrite 14 1 wide_board_sp)))
     = sent wide_board_sp ++ [[0xF4; 24; 1]; [0x93; 0x01; 0x00]]
  /\ sent (fst (digitalRead 0 wide_board_st))
     = sent wide_board_st
       ++ [[0xF4; 0; 0]; [0xD0; 0x01; 0xD1; 0x01; 0xD2; 0x01]]
  /\ sent (fst (digitalRead 0 wide_board_sp))
     = sent wide_board_sp
       ++ [[0xF4; 0; 0]; [0xD0; 0x01; 0xD1; 0x01; 0xD2; 0x01; 0xD3; 0x01]].
Proof. by_evaluation. Qed.
(** ** The digital message *)

(** The value the handler reads for pin [i] of the port is bit [i] of the
    two payload bytes joined. *)
Lemma digital_current_value lsb msb i :
  0 <= i < 8 ->
  JS.and (JS.sar (JS.or lsb (JS.shl msb 7)) (JS.and i 0x07)) 0x01
  = Z.b2z (Z.testbit (Z.lor lsb (Z.shiftl msb 7)) i).
Proof.
  intros Hi.
  assert (Hi7 : JS.and i 0x07 = i).
  { unfold JS.and. rewrite !to_int32_small by lia.
    replace (Z.land i 7) with (i mod 2 ^ 3)
      by (symmetry; apply (Z.land_ones i 3); lia).
    apply Z.mod_small. lia. }
  rewrite Hi7. unfold JS.and at 1. rewrite (to_int32_small 1) by lia.
  replace (Z.land (JS.to_int32 (JS.sar (JS.or lsb (JS.shl msb 7)) i)) 1)
    with (JS.to_int32 (JS.sar (JS.or lsb (JS.shl msb 7)) i) mod 2 ^ 1)
    by (symmetry; apply (Z.land_ones _ 1); lia).
  change (2 ^ 1) with 2. rewrite <- Z.bit0_mod. f_equal.
  rewrite to_int32_testbit by lia.
  unfold JS.sar. rewrite (Z.mod_small i 32) by lia.
  rewrite Z.shiftr_spec by lia. rewrite to_int32_testbit by lia.
  unfold JS.or, JS.shl. change (7 mod 32) with 7.
  rewrite !Z.lor_spec, !to_int32_testbit by lia.
  f_equal.
  destruct (Z.ltb_spec i 7) as [Hlt | Hge].
  - now rewrite !Z.shiftl_spec_low by lia.
  - rewrite !Z.shiftl_spec by lia. apply to_int32_testbit. lia.
Qed.

Section DigitalMessage.

Variables prt portValue : Z.

Local Abbreviation turn := (digital_pin prt portValue).

Lemma digital_pin_other_pin b k j :
  j <> 8 * prt + k ->
  idx (pins (turn b k)) j = idx (pins b) j.
Proof.
  intros Hj. unfold digital_pin.
  destruct (idx (pins b) (8 * prt + k)) as [pin |] eqn:Hpin; [| reflexivity].
  pose proof (idx_Some_range _ _ _ Hpin) as Hr.
  destruct (reads_input pin); [| reflexivity].
  cbv zeta. destruct (JS.truthy _);
    cbn [pins emit set_emitted set_ports set_pins];
    apply idx_store_ne; lia.
Qed.

Lemma digital_pin_other_bit b k j :
  0 <= k <= 30 -> 0 <= j < 32 -> j <> k ->
  Z.testbit (port_bits (turn b k) prt) j = Z.testbit (port_bits b prt) j.
Proof.
  intros Hk Hj Hne. unfold digital_pin.
  destruct (idx (pins b) (8 * prt + k)) as [pin |]; [| reflexivity].
  destruct (reads_input pin); [| reflexivity].
  cbv zeta. unfold port_bits.
  destruct (JS.truthy _);
    cbn [ports pins emit set_emitted set_ports set_pins];
    rewrite lookup_insert_eq, num_Some.
  - rewrite testbit_js_or_bit by lia.
    replace (k =? j) with false by (symmetry; apply Z.eqb_neq; lia).
    apply orb_false_r.
  - rewrite testbit_js_and_not_bit by lia.
    replace (k =? j) with false by (symmetry; apply Z.eqb_neq; lia).
    apply andb_true_r.
Qed.

Lemma digital_pin_emitted b k :
  exists evs, emitted (turn b k) = emitted b ++ evs.
Proof.
  unfold digital_pin.
  destruct (idx (pins b) (8 * prt + k)) as [pin |];
    [| exists []; now rewrite app_nil_r].
  destruct (reads_input pin); [| exists []; now rewrite app_nil_r].
  cbv zeta. destruct (JS.truthy _);
    cbn [emitted pins emit set_emitted set_ports set_pins];
    rewrite <- app_assoc; eauto.
Qed.

Lemma digital_pin_skipped b k :
  match idx (pins b) (8 * prt + k) with
  | Some pin => reads_input pin = false
  | None => True
  end ->
  turn b k = b.
Proof.
  unfold digital_pin.
  destruct (idx (pins b) (8 * prt + k)) as [pin |]; [| reflexivity].
  now intros ->.
Qed.

Lemma digital_pin_read b k pin :
  0 <= k <= 30 ->
  idx (pins b) (8 * prt + k) = Some pin ->
  reads_input pin = true ->
  idx (pins (turn b k)) (8 * prt + k) = Some (read_bit portValue k pin)
  /\ Z.testbit (port_bits (turn b k) prt) k
     = JS.truthy (value (read_bit portValue k pin))
  /\ emitted (turn b k)
     = emitted b ++ [Ev_digital_read_pin (8 * prt + k) (value (read_bit portValue k pin));
                     Ev_digital_read (8 * prt + k) (value (read_bit portValue k pin))].
Proof.
  intros Hk Hpin Hin. unfold digital_pin. rewrite Hpin.
  rewrite Hin. cbv zeta. unfold port_bits.
  destruct (JS.truthy (value (read_bit portValue k pin))) eqn:Hv;
    cbn [ports pins emitted emit set_emitted set_ports set_pins];
    rewrite lookup_insert_eq, num_Some.
  - split; [now apply idx_store_eq with pin |]. split.
    + rewrite testbit_js_or_bit by lia. rewrite Z.eqb_refl. apply orb_true_r.
    + now rewrite <- app_assoc.
  - split; [now apply idx_store_eq with pin |]. split.
    + rewrite testbit_js_and_not_bit by lia. rewrite Z.eqb_refl.
      apply andb_false_r.
    + now rewrite <- app_assoc.
Qed.

(** Turns for other pins leave pin [i] of the port, its bit and the
    events raised so far as they are. *)
Lemma digital_turns_other i l : forall b,
  0 <= i < 32 ->
  Forall (fun k => 0 <= k <= 30 /\ k <> i) l ->
  idx (pins (fold_left turn l b)) (8 * prt + i) = idx (pins b) (8 * prt + i)
  /\ Z.testbit (port_bits (fold_left turn l b) prt) i
     = Z.testbit (port_bits b prt) i
  /\ exists evs, emitted (fold_left turn l b) = emitted b ++ evs.
Proof.
  induction l as [| k l IH]; intros b Hi Hall.
  - simpl. repeat split. exists []. now rewrite app_nil_r.
  - inversion Hall as [| ? ? [Hk Hne] Hall']; subst. simpl.
    destruct (IH (turn b k) Hi Hall') as (H1 & H2 & evs & H3).
    rewrite H1, H2, H3.
    split; [apply digital_pin_other_pin; lia |].
    split; [apply digital_pin_other_bit; lia |].
    destruct (digital_pin_emitted b k) as [evs' ->].
    exists (evs' ++ evs). now rewrite app_assoc.
Qed.

Lemma digital_turns_outside j l : forall b,
  Forall (fun k => j <> 8 * prt + k) l ->
  idx (pins (fold_left turn l b)) j = idx (pins b) j.
Proof.
  induction l as [| k l IH]; intros b Hall; [reflexivity |].
  inversion Hall; subst. simpl. rewrite IH by assumption.
  now apply digital_pin_other_pin.
Qed.

End DigitalMessage.

Lemma eight_turns_split i :
  0 <= i < 8 ->
  exists l1 l2,
    [0; 1; 2; 3; 4; 5; 6; 7] = l1 ++ i :: l2
    /\ Forall (fun k => 0 <= k <= 30 /\ k <> i) l1
    /\ Forall (fun k => 0 <= k <= 30 /\ k <> i) l2.
Proof.
  intros Hi.
  exists (map Z.of_nat (seq 0 (Z.to_nat i))),
         (map Z.of_nat (seq (S (Z.to_nat i)) (7 - Z.to_nat i))).
  assert (Hc : i = 0 \/ i = 1 \/ i = 2 \/ i = 3 \/ i = 4 \/ i = 5 \/ i = 6 \/ i = 7)
    by lia.
  repeat (destruct Hc as [-> | Hc]); [.. | subst i];
    (split; [reflexivity | split; simpl; repeat constructor; lia]).
Qed.

Lemma read_bit_fields portValue i pin :
  supportedModes (read_bit portValue i pin) = supportedModes pin
  /\ mode (read_bit portValue i pin) = mode pin
  /\ report (read_bit portValue i pin) = report pin
  /\ analogChannel (read_bit portValue i pin) = analogChannel pin
  /\ state (read_bit portValue i pin) = state pin.
Proof.
  unfold read_bit. cbv zeta.
  destruct (_ && _); cbn [value set_event]; destruct (_ && _); repeat split.
Qed.

Lemma read_bit_event portValue i pin :
  let new := JS.and (JS.sar portValue (JS.and i 0x07)) 0x01 in
  (value pin = 0 -> new = 1 ->
   event (read_bit portValue i pin) = Some KEY_RELEASED)
  /\ (value pin = 1 -> new = 0 ->
      event (read_bit portValue i pin) = Some KEY_PRESSED)
  /\ (~ (value pin = 0 /\ new = 1) -> ~ (value pin = 1 /\ new = 0) ->
      event (read_bit portValue i pin) = event pin).
Proof.
  intros new. unfold read_bit. cbv zeta. fold new.
  destruct (Z.eqb_spec (value pin) 0) as [H0 | H0];
    destruct (Z.eqb_spec new 1) as [N1 | N1];
    cbn [andb value set_event];
    destruct (Z.eqb_spec (value pin) 1) as [H1 | H1];
    destruct (Z.eqb_spec new 0) as [N0 | N0];
    cbn [andb event set_value set_event];
    repeat split; intros; try reflexivity;
    try (exfalso; lia); exfalso; tauto.
Qed.

(** C6. For a digital message in the buffer and pin [i] of the port it
    addresses: a pin in INPUT or PULLUP mode gets bit [i] of the port value
    as its value; its event becomes KEY_RELEASED on a stored 0 and a new
    1, KEY_PRESSED on a stored 1 and a new 0, and stays otherwise; bit [i]
    of the port bitmask becomes the new value; the per-pin and the generic
    digital-read events are raised, in that order.  A pin in another mode,
    a missing pin and every pin outside the port are left as they are. *)
Theorem digital_message_port_pin (b : Board) (first lsb msb i : Z) :
  currentBuffer b = [first; lsb; msb] ->
  0 <= i < 8 ->
  let port := JS.and first 0x0F in
  let pinNumber := 8 * port + i in
  let new := Z.b2z (Z.testbit (Z.lor lsb (Z.shiftl msb 7)) i) in
  let b' := MIDI_DIGITAL_MESSAGE b in
  (forall pin,
      idx (pins b) pinNumber = Some pin ->
      mode pin = Some MODES.INPUT \/ mode pin = Some MODES.PULLUP ->
      exists pin',
        idx (pins b') pinNumber = Some pin'
        /\ value pin' = new
        /\ (value pin = 0 -> new = 1 -> event pin' = Some KEY_RELEASED)
        /\ (value pin = 1 -> new = 0 -> event pin' = Some KEY_PRESSED)
        /\ (~ (value pin = 0 /\ new = 1) -> ~ (value pin = 1 /\ new = 0) ->
            event pin' = event pin)
        /\ supportedModes pin' = supportedModes pin
        /\ mode pin' = mode pin
        /\ report pin' = report pin
        /\ analogChannel pin' = analogChannel pin
        /\ state pin' = state pin
        /\ Z.b2z (Z.testbit (port_bits b' port) i) = new
        /\ exists before after,
             emitted b'
             = emitted b ++ before
               ++ [Ev_digital_read_pin pinNumber new;
                   Ev_digital_read pinNumber new] ++ after)
  /\ (forall pin,
         idx (pins b) pinNumber = Some pin ->
         mode pin <> Some MODES.INPUT -> mode pin <> Some MODES.PULLUP ->
         idx (pins b') pinNumber = Some pin
         /\ Z.testbit (port_bits b' port) i = Z.testbit (port_bits b port) i)
  /\ (idx (pins b) pinNumber = None -> idx (pins b') pinNumber = None)
  /\ (forall j, j < 8 * port \/ 8 * port + 8 <= j ->
         idx (pins b') j = idx (pins b) j).
Proof.
  intros Hbuf Hi port pinNumber new b'.
  destruct (eight_turns_split i Hi) as (l1 & l2 & Hsplit & Hl1 & Hl2).
  assert (Hb' : b' = fold_left (digital_pin port (JS.or lsb (JS.shl msb 7))) l2
                       (digital_pin port (JS.or lsb (JS.shl msb 7))
                          (fold_left (digital_pin port (JS.or lsb (JS.shl msb 7)))
                             l1 b) i)).
  { unfold b', MIDI_DIGITAL_MESSAGE. rewrite Hbuf. cbn [lookup list_lookup].
    rewrite !num_Some. fold port. rewrite Hsplit, fold_left_app. reflexivity. }
  set (pv := JS.or lsb (JS.shl msb 7)) in *.
  assert (Hi32 : 0 <= i < 32) by lia.
  destruct (digital_turns_other port pv i l1 b Hi32 Hl1) as (P1 & B1 & evs1 & E1).
  set (b1 := fold_left (digital_pin port pv) l1 b) in *.
  destruct (digital_turns_other port pv i l2 (digital_pin port pv b1 i) Hi32 Hl2)
    as (P2 & B2 & evs2 & E2).
  rewrite <- Hb' in P2, B2, E2.
  fold pinNumber in P1, P2.
  assert (Hnew : JS.and (JS.sar pv (JS.and i 0x07)) 0x01 = new)
    by (apply digital_current_value; lia).
  repeat split.
  - intros pin Hpin Hmode.
    assert (Hin : reads_input pin = true).
    { unfold reads_input. destruct Hmode as [-> | ->];
        [rewrite bool_decide_eq_true_2 by reflexivity; reflexivity |].
      rewrite (bool_decide_eq_true_2 (Some MODES.PULLUP = Some MODES.PULLUP))
        by reflexivity. apply orb_true_r. }
    rewrite <- P1 in Hpin.
    destruct (digital_pin_read port pv b1 i pin ltac:(lia) Hpin Hin)
      as (R1 & R2 & R3).
    fold pinNumber in R1, R3.
    assert (Hval : value (read_bit pv i pin) = new) by exact Hnew.
    destruct (read_bit_fields pv i pin) as (F1 & F2 & F3 & F4 & F5).
    pose proof (read_bit_event pv i pin) as Hev. cbv zeta in Hev.
    rewrite Hnew in Hev. destruct Hev as (V1 & V2 & V3).
    exists (read_bit pv i pin).
    rewrite P2, R1, B2, R2, E2, R3, E1, Hval.
    repeat split; try assumption.
    + unfold new, JS.truthy. destruct (Z.testbit _ i); reflexivity.
    + exists evs1, evs2. now rewrite <- !app_assoc.
  - rewrite P2. rewrite <- P1 in H.
    rewrite digital_pin_skipped; [assumption |].
    fold pinNumber. rewrite H. unfold reads_input.
    rewrite !bool_decide_eq_false_2 by assumption. reflexivity.
  - rewrite B2. rewrite <- P1 in H.
    rewrite digital_pin_skipped; [assumption |].
    fold pinNumber. rewrite H. unfold reads_input.
    rewrite !bool_decide_eq_false_2 by assumption. reflexivity.
  - intros Hnone. rewrite P2. rewrite <- P1 in Hnone.
    rewrite digital_pin_skipped; [assumption |].
    fold pinNumber. now rewrite Hnone.
  - intros j Hj. unfold b', MIDI_DIGITAL_MESSAGE. rewrite Hbuf.
    cbn [lookup list_lookup]. rewrite !num_Some. fold port.
    apply digital_turns_outside. repeat constructor; lia.
Qed.

Lemma digital_message_port_pin_witness :
  exists pin',
    idx (pins (MIDI_DIGITAL_MESSAGE input_board)) 0 = Some pin'
    /\ value pin' = 1
    /\ event pin' = Some KEY_RELEASED.
Proof.
  destruct (digital_message_port_pin input_board 0x90 0x01 0x00 0
              ltac:(reflexivity) ltac:(lia)) as (H & _).
  destruct (H (mkPin [0] (Some 0) 0 1 None None None)
              ltac:(vm_compute; reflexivity) ltac:(left; reflexivity))
    as (pin' & H1 & H2 & H3 & _).
  exists pin'. split; [exact H1 |]. split; [exact H2 |].
  apply H3; [reflexivity | vm_compute; reflexivity].
Defined.

(** ** The capability and analog-mapping replies *)

Lemma same_link_refl b : same_link b b.
Proof. repeat split. Qed.

Lemma same_link_trans b1 b2 b3 :
  same_link b1 b2 -> same_link b2 b3 -> same_link b1 b3.
Proof.
  intros (A1 & A2 & A3) (B1 & B2 & B3).
  repeat split; congruence.
Qed.

Lemma iter_invariant (P : Board -> Board -> Prop) (f : Board -> Board) :
  (forall b, P b b) ->
  (forall b1 b2 b3, P b1 b2 -> P b2 b3 -> P b1 b3) ->
  (forall b, P b (f b)) ->
  forall n b, P b (Nat.iter n f b).
Proof.
  intros Hrefl Htrans Hf n b. induction n as [| n IH]; simpl; [apply Hrefl |].
  eapply Htrans; [exact IH | apply Hf].
Qed.

Lemma capability_loop_step x y r capability n b :
  capability_loop (x :: y :: r) capability n b
  = if x =? 127 then
      capability_loop (y :: r) 0 false
        (set_pins (pins b ++ [mkPin (supportedModes_of capability) None 0 1
                                None None None]) b)
    else if n then capability_loop (y :: r) capability false b
    else capability_loop (y :: r) (JS.or capability (JS.shl 1 x)) true
           (set_RESOLUTION
              (note_resolution x (JS.shl 1 y - 1) (RESOLUTION b)) b).
Proof. reflexivity. Qed.

Lemma capability_loop_link l : forall capability n b,
  same_link b (capability_loop l capability n b)
  /\ analogPins (capability_loop l capability n b) = analogPins b.
Proof.
  induction l as [| x l IH]; intros capability n b;
    [split; [apply same_link_refl | reflexivity] |].
  destruct l as [| y r]; [split; [apply same_link_refl | reflexivity] |].
  rewrite capability_loop_step.
  destruct (x =? 127); [| destruct n];
    match goal with
    | |- context [capability_loop (y :: r) ?c ?m ?bb] =>
        destruct (IH c m bb) as ((A1 & A2 & A3) & A4)
    end;
    unfold same_link; rewrite A1, A2, A3, A4; repeat split.
Qed.

(** The pins a capability reply creates: one per 0x7F among the bytes that
    precede the terminator, each without an analog channel. *)
Lemma capability_loop_pins l : forall t capability n b,
  map analogChannel (pins (capability_loop (l ++ [t]) capability n b))
  = map analogChannel (pins b) ++ repeat None (count_occ Z.eq_dec l 127).
Proof.
  induction l as [| x l IH]; intros t capability n b.
  - simpl. now rewrite app_nil_r.
  - change ((x :: l) ++ [t]) with (x :: (l ++ [t])).
    destruct (l ++ [t]) as [| y r] eqn:E; [destruct l; discriminate |].
    rewrite capability_loop_step, <- E. cbn [count_occ].
    destruct (Z.eqb_spec x 127) as [-> | Hx].
    + rewrite IH. cbn [pins set_pins].
      destruct (Z.eq_dec 127 127) as [_ | Hc]; [| congruence].
      rewrite map_app, <- app_assoc. reflexivity.
    + destruct (Z.eq_dec x 127) as [Hc | _]; [congruence |].
      destruct n; rewrite IH; reflexivity.
Qed.

Lemma on_capability_query_frame b :
  same_link b (on_capability_query b)
  /\ pins (on_capability_query b) = pins b.
Proof.
  unfold on_capability_query.
  destruct (iter_invariant (fun b b' => same_link b b' /\ pins b' = pins b)
              queryAnalogMapping) with
    (n := capabilityWaiters b) (b := set_capabilityWaiters 0 b) as [L P].
  - intros; split; [apply same_link_refl | reflexivity].
  - intros b1 b2 b3 [L1 P1] [L2 P2].
    split; [eapply same_link_trans; eassumption | congruence].
  - intros; split; [repeat split | reflexivity].
  - split; [| exact P].
    eapply same_link_trans; [| exact L]. repeat split.
Qed.

Lemma capability_response_pins caps b t :
  currentBuffer b = START_SYSEX :: CAPABILITY_RESPONSE :: caps ++ [t] ->
  same_link b (SYSEX_CAPABILITY_RESPONSE b)
  /\ map analogChannel (pins (SYSEX_CAPABILITY_RESPONSE b))
     = repeat None (count_occ Z.eq_dec caps 127).
Proof.
  intros Hbuf. unfold SYSEX_CAPABILITY_RESPONSE.
  cbn [currentBuffer set_pins set_ports]. rewrite Hbuf.
  change (drop 2 (START_SYSEX :: CAPABILITY_RESPONSE :: caps ++ [t]))
    with (caps ++ [t]).
  match goal with
  | |- context [on_capability_query ?bb] =>
      destruct (on_capability_query_frame bb) as [L P]
  end.
  rewrite P. cbn [pins emit set_emitted].
  rewrite capability_loop_pins. cbn [pins set_pins map app].
  split; [| reflexivity].
  eapply same_link_trans; [| exact L].
  match goal with
  | |- context [capability_loop ?l ?c ?m ?bb] =>
      destruct (capability_loop_link l c m bb) as ((A1 & A2 & A3) & _)
  end.
  repeat split; cbn [currentBuffer versionReceived SYSEX_RESPONSE emit set_emitted];
    assumption.
Qed.

(** The analog-mapping loop on a reply that names no pin beyond the
    array: the pins it covers get its bytes as their channels. *)
Lemma analog_mapping_loop_channels l : forall pin b,
  (pin + length l <= length (pins b))%nat ->
  exists b',
    analog_mapping_loop l pin b = Done b'
    /\ same_link b b'
    /\ analogMappingWaiters b' = analogMappingWaiters b
    /\ map analogChannel (pins b')
       = take pin (map analogChannel (pins b)) ++ map Some l
         ++ drop (pin + length l) (map analogChannel (pins b)).
Proof.
  induction l as [| x l IH]; intros pin b Hlen.
  - exists b. cbn [analog_mapping_loop length map app].
    rewrite Nat.add_0_r, take_drop.
    split; [reflexivity |]. split; [apply same_link_refl |]. split; reflexivity.
  - cbn [analog_mapping_loop length] in *.
    destruct (pins b !! pin) as [p |] eqn:Hp;
      [| apply lookup_ge_None in Hp; lia].
    set (b1 := set_pins (<[pin := set_analogChannel (Some x) p]> (pins b)) b).
    set (b2 := if x =? 127 then b1 else set_analogPins (analogPins b1 ++ [pin]) b1).
    assert (Hpins : pins b2 = <[pin := set_analogChannel (Some x) p]> (pins b))
      by (unfold b2; destruct (x =? 127); reflexivity).
    assert (Hlink : same_link b b2 /\ analogMappingWaiters b2 = analogMappingWaiters b)
      by (unfold b2; destruct (x =? 127); repeat split).
    destruct (IH (S pin) b2) as (b' & Hrun & L & W & Hch).
    { rewrite Hpins, length_insert. lia. }
    exists b'. split; [exact Hrun |].
    split; [eapply same_link_trans; [apply Hlink | exact L] |].
    split; [rewrite W; apply Hlink |].
    rewrite Hch, Hpins, list_fmap_insert. cbn [analogChannel set_analogChannel].
    set (chs := map analogChannel (pins b)).
    assert (Hlt : (pin < length chs)%nat)
      by (unfold chs; rewrite length_map; apply lookup_lt_Some in Hp; lia).
    change (analogChannel <$> pins b) with chs.
    rewrite take_insert_lt by lia.
    rewrite drop_insert_lt by lia.
    rewrite (take_S_r chs pin (analogChannel p)).
    + rewrite insert_app_r_alt by (rewrite length_take; lia).
      rewrite length_take, Nat.min_l by lia. rewrite Nat.sub_diag.
      cbn [map]. rewrite <- app_assoc.
      replace (S pin + length l)%nat with (pin + S (length l))%nat by lia.
      reflexivity.
    + unfold chs. change (map analogChannel (pins b)) with (analogChannel <$> pins b).
      now rewrite list_lookup_fmap, Hp.
Qed.

Lemma init_channels b :
  same_link b (init b)
  /\ map analogChannel (pins (init b)) = map analogChannel (pins b).
Proof.
  split; [repeat split |].
  unfold init. cbn [pins writeToTransport set_sent set_pins set_ports].
  rewrite map_map. apply map_ext. reflexivity.
Qed.

Lemma on_analog_mapping_query_channels b :
  same_link b (on_analog_mapping_query b)
  /\ map analogChannel (pins (on_analog_mapping_query b))
     = map analogChannel (pins b).
Proof.
  unfold on_analog_mapping_query.
  destruct (iter_invariant
              (fun b b' => same_link b b'
                           /\ map analogChannel (pins b')
                              = map analogChannel (pins b)) ready) with
    (n := analogMappingWaiters b) (b := set_analogMappingWaiters 0 b) as [L P].
  - intros; split; [apply same_link_refl | reflexivity].
  - intros b1 b2 b3 [L1 P1] [L2 P2].
    split; [eapply same_link_trans; eassumption | congruence].
  - intros b0. unfold ready.
    destruct (init_channels (set_isReady true b0)) as [L P].
    split; [| exact P].
    eapply same_link_trans; [| eapply same_link_trans; [exact L |]];
      repeat split.
  - split; [| exact P].
    eapply same_link_trans; [| exact L]. repeat split.
Qed.

Lemma drop_repeat {A} (x : A) n m : drop n (repeat x m) = repeat x (m - n).
Proof.
  revert n. induction m as [| m IH]; intros [| n]; simpl; try reflexivity.
  apply IH.
Qed.

Lemma count_occ_frame s c l t :
  s <> 127 -> c <> 127 -> t <> 127 ->
  count_occ Z.eq_dec (s :: c :: l ++ [t]) 127 = count_occ Z.eq_dec l 127.
Proof.
  intros Hs Hc Ht. cbn [count_occ].
  destruct (Z.eq_dec s 127); [contradiction |].
  destruct (Z.eq_dec c 127); [contradiction |].
  rewrite count_occ_app. cbn [count_occ].
  destruct (Z.eq_dec t 127); [contradiction |]. lia.
Qed.

(** A SysEx frame for a built-in reply, arriving on an empty buffer after
    the version report, runs the reply's handler on the frame and empties
    the buffer. *)
Lemma feed_reply command h body b :
  currentBuffer b = [] -> versionReceived b = true ->
  SYSEX_RESPONSE b !! command = Some h ->
  command <= 0x7F -> Forall (fun x => x <= 0x7F) body ->
  feed (START_SYSEX :: command :: body ++ [END_SYSEX]) b
  = bind (run_sysex h (set_currentBuffer
                         (START_SYSEX :: command :: body ++ [END_SYSEX]) b))
      (fun b => Done (set_currentBuffer [] b)).
Proof.
  intros Hbuf Hv Hh Hc Hall.
  rewrite (feed_sysex_frame (command :: body)); [| assumption .. | now constructor].
  unfold complete_sysex.
  cbn [currentBuffer set_currentBuffer SYSEX_RESPONSE versionReceived
       lookup list_lookup app mbind option_bind].
  now rewrite Hh, Hv.
Qed.

Lemma Forall_7bit_le l :
  Forall (fun x => 0 <= x <= 0x7F) l -> Forall (fun x => x <= 0x7F) l.
Proof. induction 1; constructor; [lia | assumption]. Qed.

(** C5. A capability reply rebuilds the pins array from nothing, whatever
    pins existed before, with one pin per 0x7F byte of the frame.  An
    analog-mapping reply that follows at once and carries no more bytes
    than there are pins gives pin [i] the [i]-th byte of the reply, a
    7-bit number or the sentinel 0x7F, as its analogChannel; the pins the
    reply does not reach have none. *)
Theorem capability_then_analog_mapping (b : Board) (caps mapping : list Z) :
  currentBuffer b = [] -> versionReceived b = true ->
  SYSEX_RESPONSE b !! CAPABILITY_RESPONSE = Some H_CAPABILITY_RESPONSE ->
  SYSEX_RESPONSE b !! ANALOG_MAPPING_RESPONSE = Some H_ANALOG_MAPPING_RESPONSE ->
  Forall (fun x => 0 <= x <= 0x7F) caps ->
  Forall (fun x => 0 <= x <= 0x7F) mapping ->
  (length mapping <= count_occ Z.eq_dec caps 0x7F%Z)%nat ->
  exists b1 b2,
    feed (START_SYSEX :: CAPABILITY_RESPONSE :: caps ++ [END_SYSEX]) b = Done b1
    /\ length (pins b1)
       = count_occ Z.eq_dec
           (START_SYSEX :: CAPABILITY_RESPONSE :: caps ++ [END_SYSEX]) 0x7F
    /\ feed (START_SYSEX :: ANALOG_MAPPING_RESPONSE :: mapping ++ [END_SYSEX]) b1
       = Done b2
    /\ length (pins b2) = length (pins b1)
    /\ (forall i pin, pins b2 !! i = Some pin -> analogChannel pin = mapping !! i)
    /\ (forall i c, mapping !! i = Some c -> 0 <= c <= 0x7F).
Proof.
  intros Hbuf Hv Hcap Hmap Hcaps Hmapping Hlen.
  rewrite count_occ_frame by (unfold START_SYSEX, CAPABILITY_RESPONSE, END_SYSEX; lia).
  rewrite (feed_reply CAPABILITY_RESPONSE H_CAPABILITY_RESPONSE caps b)
    by first [assumption | unfold CAPABILITY_RESPONSE; lia
             | now apply Forall_7bit_le].
  cbn [run_sysex bind].
  set (f1 := set_currentBuffer
               (START_SYSEX :: CAPABILITY_RESPONSE :: caps ++ [END_SYSEX]) b).
  destruct (capability_response_pins caps f1 END_SYSEX eq_refl)
    as ((_ & V1 & T1) & Hch1).
  set (b1 := set_currentBuffer [] (SYSEX_CAPABILITY_RESPONSE f1)).
  assert (Hch1' : map analogChannel (pins b1)
                  = repeat None (count_occ Z.eq_dec caps 127)) by exact Hch1.
  assert (Hlen1 : length (pins b1) = count_occ Z.eq_dec caps 127).
  { rewrite <- (length_map analogChannel), Hch1'. apply repeat_length. }
  exists b1.
  rewrite (feed_reply ANALOG_MAPPING_RESPONSE H_ANALOG_MAPPING_RESPONSE mapping b1);
    [| reflexivity
     | change (versionReceived b1)
         with (versionReceived (SYSEX_CAPABILITY_RESPONSE f1));
       rewrite V1; exact Hv
     | change (SYSEX_RESPONSE b1) with (SYSEX_RESPONSE (SYSEX_CAPABILITY_RESPONSE f1));
       rewrite T1; exact Hmap
     | unfold ANALOG_MAPPING_RESPONSE; lia
     | now apply Forall_7bit_le].
  cbn [run_sysex]. unfold SYSEX_ANALOG_MAPPING_RESPONSE.
  cbn [currentBuffer set_currentBuffer]. rewrite payload_frame.
  set (f2 := set_analogPins [] (set_currentBuffer
               (START_SYSEX :: ANALOG_MAPPING_RESPONSE :: mapping ++ [END_SYSEX]) b1)).
  destruct (analog_mapping_loop_channels mapping 0 f2) as (m & Hrun & _ & _ & Hm).
  { change (pins f2) with (pins b1). rewrite Hlen1. lia. }
  rewrite Hrun. cbn [bind].
  destruct (on_analog_mapping_query_channels (emit Ev_analog_mapping_query m))
    as [_ Hq].
  set (b2 := set_currentBuffer []
               (on_analog_mapping_query (emit Ev_analog_mapping_query m))).
  assert (Hch2 : map analogChannel (pins b2)
                 = map Some mapping
                   ++ repeat None (count_occ Z.eq_dec caps 127 - length mapping)).
  { change (pins b2)
      with (pins (on_analog_mapping_query (emit Ev_analog_mapping_query m))).
    rewrite Hq. change (pins (emit Ev_analog_mapping_query m)) with (pins m).
    rewrite Hm. change (pins f2) with (pins b1).
    rewrite Hch1'. cbn [take app Nat.add]. now rewrite drop_repeat. }
  exists b2. split; [reflexivity |]. split; [exact Hlen1 |].
  split; [reflexivity |]. split; [| split].
  - rewrite <- (length_map analogChannel (pins b2)), Hch2.
    rewrite length_app, length_map, repeat_length. lia.
  - intros i pin Hpin.
    assert (Hi : map analogChannel (pins b2) !! i = Some (analogChannel pin)).
    { change (map analogChannel (pins b2)) with (analogChannel <$> pins b2).
      now rewrite list_lookup_fmap, Hpin. }
    rewrite Hch2 in Hi.
    destruct (Nat.lt_ge_cases i (length mapping)) as [Hlt | Hge].
    + rewrite lookup_app_l in Hi by (rewrite length_map; lia).
      change (map Some mapping) with (Some <$> mapping) in Hi.
      rewrite list_lookup_fmap in Hi.
      destruct (mapping !! i); inversion Hi; congruence.
    + rewrite lookup_app_r in Hi by (rewrite length_map; lia).
      rewrite (lookup_ge_None_2 mapping i) by lia.
      apply list_elem_of_lookup_2 in Hi.
      apply list_elem_of_In, repeat_spec in Hi. congruence.
  - intros i c Hc.
    rewrite Forall_forall in Hmapping. apply Hmapping.
    eapply list_elem_of_lookup_2. exact Hc.
Qed.

Lemma capability_then_analog_mapping_witness :
  exists b1 b2,
    feed capability_reply greeted_board = Done b1
    /\ length (pins b1) = 2%nat
    /\ feed [0xF0; 0x6A; 0x7F; 0x00; 0xF7] b1 = Done b2
    /\ length (pins b2) = 2%nat.
Proof.
  destruct (capability_then_analog_mapping greeted_board
              [0x00; 0x01; 0x7F; 0x02; 0x08; 0x7F] [0x7F; 0x00])
    as (b1 & b2 & H1 & H2 & H3 & H4 & _).
  - vm_compute; reflexivity.
  - vm_compute; reflexivity.
  - vm_compute; reflexivity.
  - vm_compute; reflexivity.
  - repeat constructor; lia.
  - repeat constructor; lia.
  - vm_compute. lia.
  - exists b1, b2.
    split; [exact H1 |]. split; [exact H2 |]. split; [exact H3 |].
    rewrite H4. exact H2.
Defined.

(** Counterexample to C5 as stated: after the two-pin capability reply,
    an analog-mapping reply with a single byte leaves pin 1 without any
    analogChannel: neither a channel number nor the sentinel. *)
Lemma short_mapping_leaves_pin_unmapped :
  length (pins (board_of (feed short_mapping_reply two_pin_board))) = 2%nat
  /\ analogChannel <$> pins (board_of (feed short_mapping_reply two_pin_board)) !! 0%nat
     = Some (Some 0)
  /\ analogChannel <$> pins (board_of (feed short_mapping_reply two_pin_board)) !! 1%nat
     = Some None.
Proof. by_evaluation. Qed.

(** ** The dispatch table under inbound traffic *)

Lemma analog_mapping_loop_table l : forall pin b,
  SYSEX_RESPONSE (board_of (analog_mapping_loop l pin b)) = SYSEX_RESPONSE b.
Proof.
  induction l as [| x l IH]; intros pin b; [reflexivity |].
  cbn [analog_mapping_loop].
  destruct (pins b !! pin) as [p |]; [| reflexivity].
  rewrite IH. destruct (x =? 127); reflexivity.
Qed.

Lemma digital_pin_table port portValue b i :
  SYSEX_RESPONSE (digital_pin port portValue b i) = SYSEX_RESPONSE b.
Proof.
  unfold digital_pin.
  destruct (idx (pins b) (8 * port + i)) as [pin |]; [| reflexivity].
  destruct (reads_input pin); [| reflexivity].
  cbv zeta. destruct (JS.truthy _); reflexivity.
Qed.

Lemma MIDI_RESPONSE_table response handler b :
  MIDI_RESPONSE response = Some handler ->
  SYSEX_RESPONSE (handler b) = SYSEX_RESPONSE b.
Proof.
  unfold MIDI_RESPONSE.
  destruct (response =? REPORT_VERSION);
    [| destruct (response =? ANALOG_MESSAGE);
       [| destruct (response =? DIGITAL_MESSAGE); [| discriminate]]];
    intros [= <-].
  - unfold MIDI_REPORT_VERSION, on_reportversion.
    cbn [isReady set_versionReceived emit set_emitted set_version].
    destruct (isReady b); reflexivity.
  - unfold MIDI_ANALOG_MESSAGE. cbn [SYSEX_RESPONSE emit set_emitted].
    destruct (idx (analogPins b) _) as [pinNumber |]; [| reflexivity].
    destruct (pins b !! pinNumber); reflexivity.
  - unfold MIDI_DIGITAL_MESSAGE. cbv zeta.
    generalize (JS.and (num (currentBuffer b !! 0%nat)) 15) as port.
    generalize (JS.or (num (currentBuffer b !! 1%nat))
                  (JS.shl (num (currentBuffer b !! 2%nat)) 7)) as portValue.
    intros portValue port.
    generalize [0; 1; 2; 3; 4; 5; 6; 7] as l.
    intros l. revert b. induction l as [| i l IH]; intros b; [reflexivity |].
    cbn [fold_left]. rewrite IH. apply digital_pin_table.
Qed.

Lemma SYSEX_MICRODUINO_IR_board b :
  board_of (SYSEX_MICRODUINO_IR b) = b.
Proof.
  unfold SYSEX_MICRODUINO_IR. cbv zeta.
  destruct (_ <? _)%nat; [reflexivity |].
  destruct (_ =? 0); [reflexivity |].
  destruct (_ || _); [reflexivity |].
  destruct (bool_decide _); reflexivity.
Qed.

Lemma SYSEX_MICRODUINO_MOTION_cases b :
  SYSEX_MICRODUINO_MOTION b = b
  \/ exists e, SYSEX_MICRODUINO_MOTION b = emit e b.
Proof.
  unfold SYSEX_MICRODUINO_MOTION. cbv zeta.
  destruct (_ <? _)%nat; [now left | right; eauto].
Qed.

Lemma SYSEX_I2C_REPLY_cases b :
  SYSEX_I2C_REPLY b = Raised TypeError b
  \/ exists e, SYSEX_I2C_REPLY b = Done (emit e b).
Proof.
  unfold SYSEX_I2C_REPLY. cbv zeta.
  destruct (_ && _); [now left | right; eauto].
Qed.

Lemma run_sysex_table h b :
  SYSEX_RESPONSE (board_of (run_sysex h b)) = SYSEX_RESPONSE b.
Proof.
  destruct h; cbn [run_sysex board_of]; try reflexivity;
    try (now rewrite SYSEX_MICRODUINO_IR_board);
    try (now destruct (SYSEX_MICRODUINO_MOTION_cases b) as [-> | [e ->]]);
    try (now destruct (SYSEX_I2C_REPLY_cases b) as [-> | [e ->]]).
  - unfold SYSEX_QUERY_FIRMWARE.
    destruct (_ <? 0); [reflexivity |]. cbn [board_of].
    unfold on_queryfirmware. cbn [isReady emit set_emitted set_firmware].
    destruct (isReady b); reflexivity.
  - destruct (currentBuffer b) as [| s [| c l]] eqn:Hbuf.
    + unfold SYSEX_CAPABILITY_RESPONSE. cbn [currentBuffer set_pins set_ports].
      rewrite Hbuf. cbn [drop capability_loop].
      match goal with
      | |- context [on_capability_query ?bb] =>
          destruct (on_capability_query_frame bb) as [(_ & _ & T) _]
      end.
      now rewrite T.
    + unfold SYSEX_CAPABILITY_RESPONSE. cbn [currentBuffer set_pins set_ports].
      rewrite Hbuf. cbn [drop capability_loop].
      match goal with
      | |- context [on_capability_query ?bb] =>
          destruct (on_capability_query_frame bb) as [(_ & _ & T) _]
      end.
      now rewrite T.
    + unfold SYSEX_CAPABILITY_RESPONSE. cbn [currentBuffer set_pins set_ports].
      rewrite Hbuf. change (drop 2 (s :: c :: l)) with l.
      match goal with
      | |- context [on_capability_query ?bb] =>
          destruct (on_capability_query_frame bb) as [(_ & _ & T) _]
      end.
      rewrite T. cbn [SYSEX_RESPONSE emit set_emitted].
      match goal with
      | |- context [capability_loop ?l ?c ?m ?bb] =>
          destruct (capability_loop_link l c m bb) as ((_ & _ & T') & _)
      end.
      now rewrite T'.
  - unfold SYSEX_PIN_STATE_RESPONSE.
    destruct (_ ≫= _) as [[pin p] |]; reflexivity.
  - unfold SYSEX_ANALOG_MAPPING_RESPONSE.
    pose proof (analog_mapping_loop_table (payload (currentBuffer b)) 0
                  (set_analogPins [] b)) as Hl.
    destruct (analog_mapping_loop _ _ _) as [m | e m]; cbn [bind board_of] in *;
      [| exact Hl].
    destruct (on_analog_mapping_query_channels (emit Ev_analog_mapping_query m))
      as [(_ & _ & T) _].
    now rewrite T.
Qed.

Lemma complete_midi_table first b :
  SYSEX_RESPONSE (complete_midi first b) = SYSEX_RESPONSE b.
Proof.
  unfold complete_midi. destruct (_ && _); [| reflexivity].
  destruct (MIDI_RESPONSE (response_of first)) as [handler |] eqn:Hm;
    [| reflexivity].
  cbn [SYSEX_RESPONSE set_currentBuffer].
  destruct (_ || _); [| reflexivity].
  now rewrite (MIDI_RESPONSE_table _ _ _ Hm).
Qed.

Lemma receive_byte_table byte b :
  SYSEX_RESPONSE (board_of (receive_byte byte b)) = SYSEX_RESPONSE b.
Proof.
  unfold receive_byte. destruct (_ && _); [reflexivity |].
  set (b1 := set_currentBuffer (currentBuffer b ++ [byte]) b).
  change (SYSEX_RESPONSE b) with (SYSEX_RESPONSE b1).
  set (first := hd 0 (currentBuffer b1)).
  destruct (_ && _).
  - unfold complete_sysex.
    destruct (_ ≫= _) as [h |]; [destruct (versionReceived b1) |];
      cbn [bind board_of]; try (now rewrite complete_midi_table).
    pose proof (run_sysex_table h b1) as Hr.
    destruct (run_sysex h b1) as [m | e m]; cbn [bind board_of] in *;
      [| exact Hr].
    now rewrite complete_midi_table.
  - destruct (_ && _); [| destruct (negb _)]; cbn [bind board_of];
      rewrite complete_midi_table;
      try match goal with |- context [if ?c then _ else _] => destruct c end;
      reflexivity.
Qed.

(** Inbound traffic never changes [SYSEX_RESPONSE]: entries are added by
    [sysexResponse] alone, which refuses to replace one. *)
Lemma feed_table data : forall b,
  SYSEX_RESPONSE (board_of (feed data b)) = SYSEX_RESPONSE b.
Proof.
  induction data as [| byte rest IH]; intros b; [reflexivity |].
  cbn [feed]. pose proof (receive_byte_table byte b) as Hr.
  destruct (receive_byte byte b) as [m | e m]; cbn [bind board_of] in *;
    [| exact Hr].
  now rewrite IH.
Qed.

Lemma sysexResponse_keeps_entries commandByte handler b c h :
  SYSEX_RESPONSE b !! c = Some h ->
  SYSEX_RESPONSE (board_of (sysexResponse commandByte handler b)) !! c = Some h.
Proof.
  intros Hc. unfold sysexResponse.
  destruct (SYSEX_RESPONSE b !! commandByte) eqn:Hcb; cbn [board_of]; [exact Hc |].
  cbn [SYSEX_RESPONSE set_SYSEX_RESPONSE].
  rewrite lookup_insert_ne; [exact Hc | congruence].
Qed.


(** ** Peripheral replies that throw *)

(** An infrared frame whose code is no key of [irData] throws, and the
    frame stays in the buffer. *)
Example infrared_unknown_code_throws :
  feed [0xF0; 0x07; 1; 0; 0; 0; 0; 0; 0; 0; 0xF7] greeted_board
  = Raised TypeError
      (set_currentBuffer [0xF0; 0x07; 1; 0; 0; 0; 0; 0; 0; 0; 0xF7]
         greeted_board).
Proof. vm_compute. reflexivity. Qed.

(** The frame of the key 0x1FE48B7 is taken without an event. *)
Example infrared_known_code_taken :
  feed [0xF0; 0x07; 0x37; 1; 0x48; 0; 0x7E; 1; 0x01; 0; 0xF7] greeted_board
  = Done greeted_board.
Proof. vm_compute. reflexivity. Qed.

(** An I2C reply from address 0x56, register 0x09 that holds no word
    throws before the event is raised; one with a word raises it. *)
Example i2c_empty_key_reply_throws :
  feed [0xF0; 0x77; 0x56; 0; 0x09; 0; 0xF7] greeted_board
  = Raised TypeError
      (set_currentBuffer [0xF0; 0x77; 0x56; 0; 0x09; 0; 0xF7] greeted_board)
  /\ feed [0xF0; 0x77; 0x56; 0; 0x09; 0; 0x21; 0; 0xF7] greeted_board
     = Done (emit (Ev_i2c_reply 0x56 0x09 [0x21]) greeted_board).
Proof. split; vm_compute; reflexivity. Qed.
(** * Further properties *)

(** ** The check in front of the buffer *)

(** X1. Until a version report has been received, a board with an empty
    buffer drops every byte that is not the version-report opcode: no
    traffic without 0xF9 changes anything. *)
Theorem stale_traffic_dropped (b : Board) (data : list Z) :
  currentBuffer b = [] ->
  versionReceived b = false ->
  Forall (fun x => x <> REPORT_VERSION) data ->
  feed data b = Done b.
Proof.
  intros Hbuf Hv Hall. induction Hall as [| x data Hx Hall IH]; [reflexivity |].
  cbn [feed]. unfold receive_byte. rewrite Hbuf, Hv. cbn [length Nat.eqb negb andb].
  replace (x =? REPORT_VERSION) with false by (symmetry; now apply Z.eqb_neq).
  cbn [negb]. rewrite orb_true_r. cbn [bind]. exact IH.
Qed.

Lemma stale_traffic_dropped_witness :
  feed [0xE0; 0x01; 0x02; 0xF0; 0x6C; 0x7F; 0xF7; 0x90; 0x01; 0x00] new_Board
  = Done new_Board.
Proof.
  apply stale_traffic_dropped;
    [reflexivity | reflexivity | repeat constructor; discriminate].
Defined.

Lemma data_byte_is_no_opcode byte :
  0 <= byte <= 0x7F ->
  negb (response_of byte =? REPORT_VERSION)
  && negb (response_of byte =? ANALOG_MESSAGE)
  && negb (response_of byte =? DIGITAL_MESSAGE) = true.
Proof.
  intros H.
  assert (Hc : exists k, (k < 128)%nat /\ byte = Z.of_nat k)
    by (exists (Z.to_nat byte); lia).
  destruct Hc as (k & Hk & ->).
  do 128 (destruct k as [| k]; [reflexivity |]). lia.
Qed.

Lemma set_currentBuffer_id b : set_currentBuffer (currentBuffer b) b = b.
Proof. now destruct b. Qed.

Lemma receive_data_byte_outside_frame b byte :
  currentBuffer b = [] -> 0 <= byte <= 0x7F -> receive_byte byte b = Done b.
Proof.
  intros Hbuf Hbyte. unfold receive_byte. rewrite Hbuf.
  cbn [length Nat.eqb andb app].
  destruct ((byte =? 0) || _) eqn:Hgate; [reflexivity |].
  cbn [currentBuffer set_currentBuffer hd List.last].
  replace (byte =? START_SYSEX) with false
    by (symmetry; apply Z.eqb_neq; unfold START_SYSEX; lia).
  cbn [andb negb]. rewrite (data_byte_is_no_opcode byte Hbyte).
  cbn [bind]. unfold complete_midi.
  cbn [currentBuffer set_currentBuffer length Nat.eqb andb].
  f_equal. etransitivity; [| apply set_currentBuffer_id].
  rewrite Hbuf. reflexivity.
Qed.

(** X2. Outside a frame, data bytes (0 to 0x7F) never pile up: fed to a
    board with an empty buffer, before or after the version report, they
    leave the board exactly as it was. *)
Theorem stray_data_bytes_dropped (b : Board) (data : list Z) :
  currentBuffer b = [] ->
  Forall (fun x => 0 <= x <= 0x7F) data ->
  feed data b = Done b.
Proof.
  intros Hbuf Hall. induction Hall as [| x data Hx Hall IH]; [reflexivity |].
  cbn [feed]. rewrite (receive_data_byte_outside_frame b x Hbuf Hx).
  exact IH.
Qed.

Lemma stray_data_bytes_dropped_witness :
  feed [0x01; 0x7F; 0x00; 0x40] greeted_board = Done greeted_board.
Proof.
  apply stray_data_bytes_dropped;
    [vm_compute; reflexivity | repeat constructor; lia].
Defined.

(** ** Short messages in general *)

(** Rewriting with the field projections and updates of the board. *)
Ltac simpl_board :=
  cbn [currentBuffer versionReceived isReady version firmware pins ports
       analogPins RESOLUTION SYSEX_RESPONSE capabilityWaiters
       analogMappingWaiters sent emitted
       set_currentBuffer set_versionReceived set_isReady set_version
       set_firmware set_pins set_ports set_analogPins set_RESOLUTION
       set_SYSEX_RESPONSE set_capabilityWaiters set_analogMappingWaiters
       set_sent set_emitted emit writeToTransport].

Lemma MIDI_RESPONSE_checked response h :
  MIDI_RESPONSE response = Some h ->
  negb (response =? REPORT_VERSION)
  && negb (response =? ANALOG_MESSAGE)
  && negb (response =? DIGITAL_MESSAGE) = false.
Proof.
  unfold MIDI_RESPONSE.
  destruct (response =? REPORT_VERSION); [reflexivity |].
  destruct (response =? ANALOG_MESSAGE); [reflexivity |].
  destruct (response =? DIGITAL_MESSAGE); [reflexivity | discriminate].
Qed.

(** A byte appended to a buffer that opens with a short-message opcode
    only runs the closing three-byte check. *)
Lemma receive_byte_short b first pre byte h :
  MIDI_RESPONSE (response_of first) = Some h ->
  first <> START_SYSEX ->
  (currentBuffer b = first :: pre
   \/ currentBuffer b = [] /\ byte = first /\ first <> 0
      /\ (versionReceived b = true \/ first = REPORT_VERSION)) ->
  receive_byte byte b
  = Done (complete_midi first
            (set_currentBuffer (currentBuffer b ++ [byte]) b)).
Proof.
  intros Hh Hf Hbuf. unfold receive_byte.
  assert (Hskip : (length (currentBuffer b) =? 0)%nat
                  && ((byte =? 0) || (negb (versionReceived b)
                                      && negb (byte =? REPORT_VERSION))) = false).
  { destruct Hbuf as [-> | (-> & -> & H0 & Hv)]; [reflexivity |].
    replace (first =? 0) with false by (symmetry; now apply Z.eqb_neq).
    cbn [length Nat.eqb andb orb].
    destruct Hv as [-> | ->]; [reflexivity |].
    rewrite Z.eqb_refl. cbn [negb]. apply andb_false_r. }
  rewrite Hskip. cbn [currentBuffer set_currentBuffer].
  assert (Hhd : hd 0 (currentBuffer b ++ [byte]) = first)
    by (destruct Hbuf as [-> | (-> & -> & _)]; reflexivity).
  rewrite Hhd.
  replace (first =? START_SYSEX) with false by (symmetry; now apply Z.eqb_neq).
  cbn [andb negb]. rewrite (MIDI_RESPONSE_checked _ _ Hh).
  reflexivity.
Qed.

(** A byte above 0x7F other than the terminator, arriving while a SysEx
    frame is open, abandons the frame and starts a new buffer. *)
Lemma receive_byte_resync b pre byte :
  currentBuffer b = START_SYSEX :: pre ->
  0x7F < byte -> byte <> END_SYSEX ->
  receive_byte byte b = Done (set_currentBuffer [byte] b).
Proof.
  intros Hbuf Hhigh Hend. unfold receive_byte. rewrite Hbuf.
  cbn [length Nat.eqb andb]. cbn [set_currentBuffer currentBuffer].
  change (hd 0 ((START_SYSEX :: pre) ++ [byte])) with START_SYSEX.
  rewrite last_snoc.
  replace (byte =? END_SYSEX) with false by (symmetry; now apply Z.eqb_neq).
  replace (127 <? byte) with true by (symmetry; apply Z.ltb_lt; lia).
  change (START_SYSEX =? START_SYSEX) with true.
  change (0 <? length ((START_SYSEX :: pre) ++ [byte]))%nat with true.
  cbn [andb negb bind]. now rewrite complete_midi_sysex.
Qed.

(** Three bytes of a short message, from an empty buffer or from an
    abandoned SysEx frame, reach the message's handler. *)
Lemma feed_short_message b first x y h :
  MIDI_RESPONSE (response_of first) = Some h ->
  0x7F < first -> first <> START_SYSEX -> first <> END_SYSEX ->
  versionReceived b = true \/ first = REPORT_VERSION ->
  (currentBuffer b = [] \/ exists pre, currentBuffer b = START_SYSEX :: pre) ->
  feed [first; x; y] b
  = Done (set_currentBuffer []
            (h (set_versionReceived true (set_currentBuffer [first; x; y] b)))).
Proof.
  intros Hh Hhigh Hf Hend Hv Hbuf. cbn [feed].
  assert (H1 : receive_byte first b = Done (set_currentBuffer [first] b)).
  { destruct Hbuf as [Hbuf | [pre Hbuf]].
    - rewrite (receive_byte_short b first [] first h Hh Hf)
        by (right; repeat split; [assumption | lia | assumption]).
      rewrite Hbuf. reflexivity.
    - now apply receive_byte_resync with pre. }
  rewrite H1. cbn [bind].
  rewrite (receive_byte_short _ first [] x h Hh Hf) by (left; reflexivity).
  cbn [bind app currentBuffer set_currentBuffer]. unfold complete_midi at 1.
  cbn [currentBuffer set_currentBuffer length Nat.eqb andb].
  rewrite (receive_byte_short _ first [x] y h Hh Hf) by (left; reflexivity).
  cbn [bind app currentBuffer set_currentBuffer]. unfold complete_midi.
  cbn [currentBuffer set_currentBuffer length Nat.eqb versionReceived].
  replace (first =? START_SYSEX) with false by (symmetry; now apply Z.eqb_neq).
  cbn [andb negb]. rewrite Hh.
  replace (versionReceived b || (first =? REPORT_VERSION)) with true; [reflexivity |].
  destruct Hv as [-> | ->]; [reflexivity |].
  rewrite Z.eqb_refl. symmetry. apply orb_true_r.
Qed.

Lemma feed_version_report b major minor :
  (currentBuffer b = [] \/ exists pre, currentBuffer b = START_SYSEX :: pre) ->
  feed [REPORT_VERSION; major; minor] b
  = Done (set_currentBuffer []
            (MIDI_REPORT_VERSION
               (set_versionReceived true
                  (set_currentBuffer [REPORT_VERSION; major; minor] b)))).
Proof.
  intros Hbuf.
  apply feed_short_message; try assumption; try reflexivity;
    try (unfold REPORT_VERSION, START_SYSEX, END_SYSEX; lia);
    try (now right).
Qed.

(** X3. A version report is dispatched from an empty buffer and equally
    from an unfinished SysEx frame, which it abandons, whether or not a
    version had been received before: the version becomes the two payload
    bytes, the version counts as received, the buffer is empty and
    ['reportversion'] is raised once.  On a board that is not ready,
    pins, ports and transport are left alone. *)
Theorem version_report_dispatched (b : Board) (major minor : Z) :
  (currentBuffer b = [] \/ exists pre, currentBuffer b = START_SYSEX :: pre) ->
  exists b',
    feed [REPORT_VERSION; major; minor] b = Done b'
    /\ version b' = (Some major, Some minor)
    /\ versionReceived b' = true
    /\ currentBuffer b' = []
    /\ emitted b' = emitted b ++ [Ev_reportversion]
    /\ isReady b' = isReady b
    /\ (isReady b = false ->
        pins b' = pins b /\ ports b' = ports b /\ sent b' = sent b).
Proof.
  intros Hbuf. eexists. split; [now apply feed_version_report |].
  unfold MIDI_REPORT_VERSION, on_reportversion. simpl_board.
  destruct (isReady b) eqn:Hr; unfold init; simpl_board;
    repeat match goal with |- _ /\ _ => split end;
    try reflexivity; try discriminate; try assumption.
  intros _. repeat split.
Qed.

Lemma version_report_dispatched_witness :
  exists b',
    feed [REPORT_VERSION; 2; 5]
      (set_currentBuffer [START_SYSEX; 0x6C; 0x01] new_Board) = Done b'
    /\ version b' = (Some 2, Some 5)
    /\ versionReceived b' = true
    /\ currentBuffer b' = [].
Proof.
  destruct (version_report_dispatched
              (set_currentBuffer [START_SYSEX; 0x6C; 0x01] new_Board) 2 5)
    as (b' & H1 & H2 & H3 & H4 & _).
  - right. exists [0x6C; 0x01]. reflexivity.
  - exists b'. repeat split; assumption.
Defined.

(** X4. A version report that reaches a ready board is taken as a reboot
    of the firmware: every pin's mode is forgotten, the port bitmasks
    return to sixteen zeros and the sampling-interval message F0 7A 64 00
    F7 is sent; pin values, supported modes and readiness are kept. *)
Theorem version_report_on_ready_board (b : Board) (major minor : Z) :
  (currentBuffer b = [] \/ exists pre, currentBuffer b = START_SYSEX :: pre) ->
  isReady b = true ->
  exists b',
    feed [REPORT_VERSION; major; minor] b = Done b'
    /\ pins b' = map (set_mode None) (pins b)
    /\ Forall (fun p => mode p = None) (pins b')
    /\ map value (pins b') = map value (pins b)
    /\ map supportedModes (pins b') = map supportedModes (pins b)
    /\ ports b' = fresh_ports
    /\ sent b' = sent b ++ [[0xF0; 0x7A; 0x64; 0x00; 0xF7]]
    /\ isReady b' = true.
Proof.
  intros Hbuf Hr. eexists. split; [now apply feed_version_report |].
  unfold MIDI_REPORT_VERSION, on_reportversion. simpl_board. rewrite Hr.
  unfold init. simpl_board.
  repeat match goal with |- _ /\ _ => split end; try reflexivity.
  - apply Forall_forall. intros p Hp.
    apply list_elem_of_In, in_map_iff in Hp. destruct Hp as (q & <- & _).
    reflexivity.
  - rewrite map_map. now apply map_ext.
  - rewrite map_map. now apply map_ext.
  - exact Hr.
Qed.

Lemma version_report_on_ready_board_witness :
  exists b',
    feed [REPORT_VERSION; 2; 5] ready_board = Done b'
    /\ Forall (fun p => mode p = None) (pins b')
    /\ ports b' = fresh_ports.
Proof.
  destruct (version_report_on_ready_board ready_board 2 5)
    as (b' & H1 & _ & H3 & _ & _ & H6 & _).
  - left. vm_compute. reflexivity.
  - vm_compute. reflexivity.
  - exists b'. repeat split; assumption.
Defined.

(** ** Traffic without a terminator *)

(** Only the dispatch of a SysEx frame can throw, and that takes the
    terminator. *)
Lemma receive_byte_no_terminator byte b :
  byte <> END_SYSEX -> exists b', receive_byte byte b = Done b'.
Proof.
  intros Hend. unfold receive_byte. destruct (_ && _); [eauto |].
  cbn [currentBuffer set_currentBuffer]. rewrite last_snoc.
  replace (byte =? END_SYSEX) with false by (symmetry; now apply Z.eqb_neq).
  rewrite andb_false_r.
  destruct (_ && _); [| destruct (negb _)]; cbn [bind]; eauto.
Qed.

Lemma feed_no_terminator data : forall b,
  Forall (fun byte => byte <> END_SYSEX) data ->
  exists b', feed data b = Done b'.
Proof.
  induction data as [| byte rest IH]; intros b Hd; [cbn; eauto |].
  apply Forall_cons in Hd. destruct Hd as [Hb Hrest].
  destruct (receive_byte_no_terminator byte b Hb) as [b1 H1].
  cbn [feed]. rewrite H1. cbn [bind]. now apply IH.
Qed.

(** X5. Traffic that holds no END_SYSEX byte raises no exception, and
    however it is cut into chunks the board ends in the state the bytes
    give as one chunk: short messages and unfinished frames cannot be
    upset by chunking. *)
Theorem traffic_without_terminator (chunks : list (list Z)) (b : Board) :
  Forall (fun byte => byte <> END_SYSEX) (concat chunks) ->
  exists b',
    feed (concat chunks) b = Done b'
    /\ deliver chunks b = b'.
Proof.
  intros Hd. destruct (feed_no_terminator _ b Hd) as [b' Hb'].
  exists b'. split; [exact Hb' |].
  now destruct (deliver_concat_Done chunks b b' Hb').
Qed.

Lemma traffic_without_terminator_witness :
  exists b',
    feed (concat [[0xF9; 0x02]; [0x05; 0x91]; [0x40; 0x00; 0xF0; 0x6E]])
      new_Board = Done b'
    /\ deliver [[0xF9; 0x02]; [0x05; 0x91]; [0x40; 0x00; 0xF0; 0x6E]]
         new_Board = b'.
Proof.
  apply (traffic_without_terminator
           [[0xF9; 0x02]; [0x05; 0x91]; [0x40; 0x00; 0xF0; 0x6E]] new_Board).
  cbn [concat app]. unfold END_SYSEX. repeat constructor; lia.
Defined.

(** ** The flags under inbound traffic *)

Lemma keeps_refl b : keeps b b.
Proof. split; auto. Qed.

Lemma keeps_trans b1 b2 b3 : keeps b1 b2 -> keeps b2 b3 -> keeps b1 b3.
Proof. intros [A1 A2] [B1 B2]. split; auto. Qed.

Lemma keeps_of_eq b b' :
  versionReceived b' = versionReceived b -> isReady b' = isReady b ->
  keeps b b'.
Proof. intros Hv Hr. split; congruence. Qed.

Ltac keeps_same := apply keeps_of_eq; reflexivity.

Lemma keeps_on_reportversion b : keeps b (on_reportversion b).
Proof.
  unfold on_reportversion. simpl_board.
  destruct (isReady b) eqn:Hr; split; intros; unfold init; simpl_board;
    try reflexivity; assumption.
Qed.

Lemma keeps_digital_pin prt portValue b i :
  keeps b (digital_pin prt portValue b i).
Proof.
  unfold digital_pin.
  destruct (idx (pins b) (8 * prt + i)) as [pin |]; [| apply keeps_refl].
  destruct (reads_input pin); [| apply keeps_refl].
  cbv zeta. destruct (JS.truthy _); keeps_same.
Qed.

Lemma keeps_MIDI_RESPONSE response handler b :
  MIDI_RESPONSE response = Some handler -> keeps b (handler b).
Proof.
  unfold MIDI_RESPONSE.
  destruct (response =? REPORT_VERSION);
    [| destruct (response =? ANALOG_MESSAGE);
       [| destruct (response =? DIGITAL_MESSAGE); [| discriminate]]];
    intros [= <-].
  - unfold MIDI_REPORT_VERSION. cbv zeta.
    eapply keeps_trans; [| apply keeps_on_reportversion]. keeps_same.
  - unfold MIDI_ANALOG_MESSAGE. cbv zeta.
    destruct (idx (analogPins b) _) as [pinNumber |]; [| keeps_same].
    destruct (pins b !! pinNumber); keeps_same.
  - unfold MIDI_DIGITAL_MESSAGE. cbv zeta.
    generalize (JS.and (num (currentBuffer b !! 0%nat)) 15) as prt.
    generalize (JS.or (num (currentBuffer b !! 1%nat))
                  (JS.shl (num (currentBuffer b !! 2%nat)) 7)) as portValue.
    intros portValue prt.
    generalize [0; 1; 2; 3; 4; 5; 6; 7] as l.
    intros l. revert b. induction l as [| i l IH]; intros b; [apply keeps_refl |].
    cbn [fold_left].
    eapply keeps_trans; [apply keeps_digital_pin | apply IH].
Qed.

Lemma keeps_capability_loop l : forall capability n b,
  keeps b (capability_loop l capability n b).
Proof.
  induction l as [| x l IH]; intros capability n b; [apply keeps_refl |].
  destruct l as [| y r]; [apply keeps_refl |].
  rewrite capability_loop_step.
  destruct (x =? 127); [| destruct n];
    (eapply keeps_trans; [| apply IH]); keeps_same.
Qed.

Lemma keeps_on_capability_query b : keeps b (on_capability_query b).
Proof.
  unfold on_capability_query.
  eapply keeps_trans;
    [| apply (iter_invariant keeps queryAnalogMapping keeps_refl keeps_trans)].
  - keeps_same.
  - intros b0. keeps_same.
Qed.

Lemma keeps_ready b : keeps b (ready b).
Proof. split; intros H; [exact H | reflexivity]. Qed.

Lemma keeps_on_analog_mapping_query b : keeps b (on_analog_mapping_query b).
Proof.
  unfold on_analog_mapping_query.
  eapply keeps_trans;
    [| apply (iter_invariant keeps ready keeps_refl keeps_trans keeps_ready)].
  keeps_same.
Qed.

Lemma keeps_analog_mapping_loop l : forall pin b,
  keeps b (board_of (analog_mapping_loop l pin b)).
Proof.
  induction l as [| x l IH]; intros pin b; [apply keeps_refl |].
  cbn [analog_mapping_loop].
  destruct (pins b !! pin) as [p |]; [| apply keeps_refl].
  eapply keeps_trans; [| apply IH]. destruct (x =? 127); keeps_same.
Qed.

Lemma keeps_run_sysex h b : keeps b (board_of (run_sysex h b)).
Proof.
  destruct h; cbn [run_sysex board_of]; try keeps_same;
    try (rewrite SYSEX_MICRODUINO_IR_board; apply keeps_refl);
    try (destruct (SYSEX_MICRODUINO_MOTION_cases b) as [-> | [e ->]];
         keeps_same);
    try (destruct (SYSEX_I2C_REPLY_cases b) as [-> | [e ->]]; keeps_same).
  - unfold SYSEX_QUERY_FIRMWARE. cbv zeta.
    destruct (_ <? 0); [apply keeps_refl |]. cbn [board_of].
    unfold on_queryfirmware. simpl_board. destruct (isReady b); keeps_same.
  - unfold SYSEX_CAPABILITY_RESPONSE. cbv zeta.
    eapply keeps_trans; [| apply keeps_on_capability_query].
    eapply keeps_trans; [| eapply keeps_trans;
                             [apply keeps_capability_loop | keeps_same]].
    keeps_same.
  - unfold SYSEX_PIN_STATE_RESPONSE. cbv zeta.
    destruct (_ ≫= _) as [[pin p] |]; keeps_same.
  - unfold SYSEX_ANALOG_MAPPING_RESPONSE.
    pose proof (keeps_analog_mapping_loop (payload (currentBuffer b)) 0
                  (set_analogPins [] b)) as Hl.
    destruct (analog_mapping_loop _ _ _) as [m | e m]; cbn [bind board_of] in *.
    + eapply keeps_trans; [| apply keeps_on_analog_mapping_query].
      eapply keeps_trans; [| eapply keeps_trans; [exact Hl | keeps_same]].
      keeps_same.
    + eapply keeps_trans; [| exact Hl]. keeps_same.
Qed.

Lemma keeps_complete_midi first b : keeps b (complete_midi first b).
Proof.
  unfold complete_midi. destruct (_ && _); [| apply keeps_refl].
  destruct (MIDI_RESPONSE (response_of first)) as [handler |] eqn:Hm;
    [| keeps_same].
  cbv zeta. destruct (_ || _); [| keeps_same].
  eapply keeps_trans; [| eapply keeps_trans;
                           [apply (keeps_MIDI_RESPONSE _ _ _ Hm) | keeps_same]].
  split; intros H; [reflexivity | exact H].
Qed.

Lemma keeps_complete_sysex b : keeps b (board_of (complete_sysex b)).
Proof.
  unfold complete_sysex. cbv zeta.
  destruct (_ ≫= _) as [h |]; [destruct (versionReceived b) eqn:Hv |];
    cbn [bind board_of]; try keeps_same.
  pose proof (keeps_run_sysex h b) as Hr.
  destruct (run_sysex h b) as [m | e m]; cbn [bind board_of] in *;
    [| exact Hr].
  eapply keeps_trans; [exact Hr | keeps_same].
Qed.

Lemma keeps_receive_byte byte b : keeps b (board_of (receive_byte byte b)).
Proof.
  unfold receive_byte. destruct (_ && _); [apply keeps_refl |].
  set (b1 := set_currentBuffer (currentBuffer b ++ [byte]) b).
  assert (H1 : keeps b b1) by keeps_same.
  eapply keeps_trans; [exact H1 |]. clear H1.
  set (first := hd 0 (currentBuffer b1)). cbv zeta.
  destruct (_ && _).
  - pose proof (keeps_complete_sysex b1) as Hs.
    destruct (complete_sysex b1) as [m | e m]; cbn [bind board_of] in *;
      [| exact Hs].
    eapply keeps_trans; [exact Hs | apply keeps_complete_midi].
  - destruct (_ && _); [| destruct (negb _)]; cbn [bind board_of];
      (eapply keeps_trans; [| apply keeps_complete_midi]);
      try match goal with |- context [if ?c then _ else _] => destruct c end;
      keeps_same.
Qed.

Lemma keeps_feed data : forall b, keeps b (board_of (feed data b)).
Proof.
  induction data as [| byte rest IH]; intros b; [apply keeps_refl |].
  cbn [feed]. pose proof (keeps_receive_byte byte b) as Hr.
  destruct (receive_byte byte b) as [m | e m]; cbn [bind board_of] in *;
    [| exact Hr].
  eapply keeps_trans; [exact Hr | apply IH].
Qed.

Lemma deliver_table chunks : forall b,
  SYSEX_RESPONSE (deliver chunks b) = SYSEX_RESPONSE b.
Proof.
  unfold deliver. induction chunks as [| c cs IH]; intros b; [reflexivity |].
  cbn [fold_left]. rewrite IH. apply feed_table.
Qed.

(** X6. Whatever bytes arrive, in whatever chunks, and whether or not a
    handler throws on the way: the dispatch table is the one the board had
    before, and neither [versionReceived] nor [isReady], once true, is
    false afterwards.  (Only the transport's ['disconnect'] resets them.) *)
Theorem inbound_traffic_keeps_flags (chunks : list (list Z)) (b : Board) :
  SYSEX_RESPONSE (deliver chunks b) = SYSEX_RESPONSE b
  /\ keeps b (deliver chunks b).
Proof.
  split; [apply deliver_table |].
  unfold deliver. revert b.
  induction chunks as [| c cs IH]; intros b; [apply keeps_refl |].
  cbn [fold_left]. eapply keeps_trans; [apply keeps_feed | apply IH].
Qed.

(** ** The codec on any integer *)

Lemma js_and_127 v : JS.and v 0x7F = Z.land v 0x7F.
Proof.
  unfold JS.and. rewrite (to_int32_small 127) by lia.
  apply Z.bits_inj'. intros n Hn. rewrite !Z.land_spec.
  change 127 with (Z.ones 7).
  destruct (Z.ltb_spec n 7) as [Hlt | Hge].
  - now rewrite to_int32_testbit by lia.
  - rewrite Z.ones_spec_high by lia. now rewrite !andb_false_r.
Qed.

Lemma js_sar_7_and_127 v :
  JS.and (JS.sar v 7) 0x7F = Z.land (Z.shiftr v 7) 0x7F.
Proof.
  rewrite js_and_127. unfold JS.sar. change (7 mod 32) with 7.
  apply Z.bits_inj'. intros n Hn. rewrite !Z.land_spec.
  change 127 with (Z.ones 7).
  destruct (Z.ltb_spec n 7) as [Hlt | Hge].
  - rewrite !Z.shiftr_spec by lia. now rewrite to_int32_testbit by lia.
  - rewrite Z.ones_spec_high by lia. now rewrite !andb_false_r.
Qed.

(** The low seven bits joined with the next seven are the value modulo
    2^14. *)
Lemma join_14bit v :
  Z.lor (Z.land v 127) (Z.shiftl (Z.land (Z.shiftr v 7) 127) 7)
  = v mod 2 ^ 14.
Proof.
  apply Z.bits_inj'. intros n Hn.
  rewrite Z.lor_spec, Z.land_spec. change 127 with (Z.ones 7).
  destruct (Z.ltb_spec n 7) as [Hlt | Hge].
  - rewrite Z.shiftl_spec_low, Z.ones_spec_low, Z.mod_pow2_bits_low by lia.
    now rewrite andb_true_r, orb_false_r.
  - rewrite Z.shiftl_spec, Z.land_spec, Z.shiftr_spec by lia.
    replace (n - 7 + 7) with n by lia.
    rewrite (Z.ones_spec_high 7 n) by lia. rewrite andb_false_r. cbn [orb].
    destruct (Z.ltb_spec n 14) as [Hlt | Hge'].
    + rewrite Z.ones_spec_low, Z.mod_pow2_bits_low by lia.
      now rewrite andb_true_r.
    + rewrite Z.ones_spec_high, Z.mod_pow2_bits_high by lia.
      now rewrite andb_false_r.
Qed.

Lemma decode_pairs_encode l :
  decode_pairs (encode l) = map (fun v => v mod 2 ^ 14) l.
Proof.
  induction l as [| v l IH]; [reflexivity |].
  rewrite encode_cons. cbn [decode_pairs map]. rewrite IH. f_equal.
  rewrite js_and_127, js_sar_7_and_127.
  rewrite decode_pair by apply land_127_range.
  apply join_14bit.
Qed.

(** X7. [Board.encode] on any list of integers, negative or beyond 14
    bits included: two bytes per value, every byte within 0..127, and
    [Board.decode] of the result gives each value modulo 16384; what does
    not fit in 14 bits is dropped without an error. *)
Theorem encode_any_integer (l : list Z) :
  length (encode l) = (2 * length l)%nat
  /\ Forall (fun byte => 0 <= byte <= 0x7F) (encode l)
  /\ decode (encode l) = Some (map (fun v => v mod 16384) l).
Proof.
  split; [| split].
  - induction l as [| v l IH]; [reflexivity |].
    rewrite encode_cons. cbn [length]. rewrite IH. lia.
  - induction l as [| v l IH]; [constructor |].
    rewrite encode_cons, js_and_127, js_sar_7_and_127.
    repeat constructor; try apply land_127_range. exact IH.
  - unfold decode. rewrite encode_length_even. f_equal.
    apply decode_pairs_encode.
Qed.

Lemma testbit_high_7bit x n :
  0 <= x <= 127 -> 7 <= n -> Z.testbit x n = false.
Proof.
  intros Hx Hn. rewrite <- (Z.mod_small x (2 ^ 7)) by lia.
  apply Z.mod_pow2_bits_high. lia.
Qed.

Lemma encode_decode_pair lsb msb :
  0 <= lsb <= 127 -> 0 <= msb <= 127 ->
  encode [JS.or lsb (JS.shl msb 7)] = [lsb; msb].
Proof.
  intros Hl Hm. rewrite encode_cons, js_and_127, js_sar_7_and_127.
  rewrite decode_pair by assumption. cbn [encode flat_map].
  f_equal; [| f_equal].
  - apply Z.bits_inj'. intros n Hn.
    rewrite Z.land_spec, Z.lor_spec. change 127 with (Z.ones 7).
    destruct (Z.ltb_spec n 7) as [Hlt | Hge].
    + rewrite Z.shiftl_spec_low, Z.ones_spec_low by lia.
      now rewrite andb_true_r, orb_false_r.
    + rewrite Z.ones_spec_high by lia. rewrite andb_false_r.
      symmetry. now apply testbit_high_7bit.
  - apply Z.bits_inj'. intros n Hn.
    rewrite Z.land_spec, Z.shiftr_spec, Z.lor_spec by lia.
    rewrite Z.shiftl_spec by lia. replace (n + 7 - 7) with n by lia.
    rewrite (testbit_high_7bit lsb (n + 7)) by lia. cbn [orb].
    change 127 with (Z.ones 7).
    destruct (Z.ltb_spec n 7) as [Hlt | Hge].
    + rewrite Z.ones_spec_low by lia. now rewrite andb_true_r.
    + rewrite Z.ones_spec_high by lia. rewrite andb_false_r.
      symmetry. now apply testbit_high_7bit.
Qed.

Lemma encode_decode_pairs n : forall data,
  length data = (2 * n)%nat ->
  Forall (fun byte => 0 <= byte <= 0x7F) data ->
  encode (decode_pairs data) = data.
Proof.
  induction n as [| n IH]; intros data Hlen Hd.
  - destruct data; [reflexivity | discriminate].
  - destruct data as [| lsb [| msb rest]]; try (cbn in Hlen; lia).
    apply Forall_cons in Hd. destruct Hd as [Hl Hd].
    apply Forall_cons in Hd. destruct Hd as [Hm Hd].
    cbn [decode_pairs].
    change (encode (?v :: ?l)) with (encode [v] ++ encode l).
    rewrite encode_decode_pair by assumption.
    rewrite IH; [reflexivity | cbn in Hlen; lia | exact Hd].
Qed.

(** X8. [Board.decode] on 7-bit bytes: a list of odd length is refused
    with the "odd number of data bytes" error; a list of even length
    gives values that [Board.encode] turns back into the same bytes. *)
Theorem decode_then_encode (data : list Z) :
  Forall (fun byte => 0 <= byte <= 0x7F) data ->
  match decode data with
  | Some values => Nat.even (length data) = true /\ encode values = data
  | None => Nat.odd (length data) = true
  end.
Proof.
  intros Hd. unfold decode.
  destruct (Nat.even (length data)) eqn:He.
  - split; [reflexivity |].
    apply Nat.even_spec in He. destruct He as [n Hn].
    now apply encode_decode_pairs with n.
  - unfold Nat.odd. now rewrite He.
Qed.

Lemma decode_then_encode_witness :
  match decode [0x2C; 0x02; 0x7F; 0x7F] with
  | Some values =>
      Nat.even (length [0x2C; 0x02; 0x7F; 0x7F]) = true
      /\ encode values = [0x2C; 0x02; 0x7F; 0x7F]
  | None => Nat.odd (length [0x2C; 0x02; 0x7F; 0x7F]) = true
  end.
Proof.
  apply (decode_then_encode [0x2C; 0x02; 0x7F; 0x7F]).
  repeat constructor; lia.
Defined.

(** ** Analog messages *)

Lemma lor_shiftl_7 lsb msb :
  0 <= lsb <= 127 -> 0 <= msb ->
  Z.lor lsb (Z.shiftl msb 7) = lsb + 128 * msb.
Proof.
  intros Hl Hm.
  assert (Hdisj : Z.land lsb (Z.shiftl msb 7) = 0).
  { apply Z.bits_inj'. intros n Hn. rewrite Z.land_spec, Z.bits_0.
    destruct (Z.ltb_spec n 7) as [Hlt | Hge].
    - rewrite Z.shiftl_spec_low by lia. apply andb_false_r.
    - now rewrite testbit_high_7bit. }
  rewrite <- Z.lxor_lor, <- Z.add_nocarry_lxor by exact Hdisj.
  rewrite Z.shiftl_mul_pow2 by lia. lia.
Qed.

Lemma analog_opcode ch :
  0 <= ch <= 15 ->
  MIDI_RESPONSE (response_of (ANALOG_MESSAGE + ch)) = Some MIDI_ANALOG_MESSAGE
  /\ JS.and (ANALOG_MESSAGE + ch) 0x0F = ch.
Proof.
  intros Hch.
  assert (H : ch = 0 \/ ch = 1 \/ ch = 2 \/ ch = 3 \/ ch = 4 \/ ch = 5
              \/ ch = 6 \/ ch = 7 \/ ch = 8 \/ ch = 9 \/ ch = 10 \/ ch = 11
              \/ ch = 12 \/ ch = 13 \/ ch = 14 \/ ch = 15) by lia.
  repeat destruct H as [-> | H]; try subst ch; split; reflexivity.
Qed.

Lemma feed_analog_message (b : Board) (ch lsb msb : Z) :
  versionReceived b = true ->
  currentBuffer b = [] ->
  0 <= ch <= 15 -> 0 <= lsb <= 127 -> 0 <= msb <= 127 ->
  exists b',
    feed [ANALOG_MESSAGE + ch; lsb; msb] b = Done b'
    /\ emitted b'
       = emitted b ++ [Ev_analog_read_pin ch (lsb + 128 * msb);
                       Ev_analog_read ch (lsb + 128 * msb)]
    /\ pins b'
       = match idx (analogPins b) ch with
         | Some pinNumber =>
             match pins b !! pinNumber with
             | Some p =>
                 <[pinNumber := set_value (lsb + 128 * msb) p]> (pins b)
             | None => pins b
             end
         | None => pins b
         end
    /\ currentBuffer b' = []
    /\ sent b' = sent b
    /\ ports b' = ports b
    /\ analogPins b' = analogPins b.
Proof.
  intros Hv Hbuf Hch Hl Hm.
  destruct (analog_opcode ch Hch) as [Hop Hpin].
  eexists. split.
  - apply feed_short_message with (h := MIDI_ANALOG_MESSAGE);
      [exact Hop | | | | now left | now left];
      unfold ANALOG_MESSAGE, START_SYSEX, END_SYSEX; lia.
  - unfold MIDI_ANALOG_MESSAGE. cbv zeta. simpl_board.
    cbn [lookup list_lookup]. rewrite !num_Some, Hpin.
    rewrite decode_pair, lor_shiftl_7 by lia.
    destruct (idx (analogPins b) ch) as [pinNumber |]; simpl_board.
    + destruct (pins b !! pinNumber) as [p |]; simpl_board;
        rewrite <- app_assoc; repeat split.
    + rewrite <- app_assoc. repeat split.
Qed.

(** X9. An analog message E0+ch lsb msb that reaches a board whose
    version is known raises ['analog-read-ch'] and ['analog-read'] with
    the value lsb + 128 * msb, whether or not the channel is mapped; the
    value is stored in the pin [analogPins[ch]] when that pin exists, and
    no pin changes otherwise.  Nothing is sent. *)
Theorem analog_message_dispatch (b : Board) (ch lsb msb : Z) :
  versionReceived b = true ->
  currentBuffer b = [] ->
  0 <= ch <= 15 -> 0 <= lsb <= 127 -> 0 <= msb <= 127 ->
  exists b',
    feed [ANALOG_MESSAGE + ch; lsb; msb] b = Done b'
    /\ emitted b'
       = emitted b ++ [Ev_analog_read_pin ch (lsb + 128 * msb);
                       Ev_analog_read ch (lsb + 128 * msb)]
    /\ pins b'
       = match idx (analogPins b) ch with
         | Some pinNumber =>
             match pins b !! pinNumber with
             | Some p =>
                 <[pinNumber := set_value (lsb + 128 * msb) p]> (pins b)
             | None => pins b
             end
         | None => pins b
         end
    /\ currentBuffer b' = []
    /\ sent b' = sent b
    /\ ports b' = ports b.
Proof.
  intros Hv Hbuf Hch Hl Hm.
  destruct (feed_analog_message b ch lsb msb Hv Hbuf Hch Hl Hm)
    as (b' & H1 & H2 & H3 & H4 & H5 & H6 & _).
  exists b'. repeat split; assumption.
Qed.

Lemma analog_message_dispatch_witness :
  exists b',
    feed [ANALOG_MESSAGE + 0; 0x2C; 0x02] ready_board = Done b'
    /\ emitted b'
       = emitted ready_board ++ [Ev_analog_read_pin 0 300; Ev_analog_read 0 300]
    /\ map value (pins b') = [0; 300].
Proof.
  destruct (analog_message_dispatch ready_board 0 0x2C 0x02)
    as (b' & H1 & H2 & H3 & _).
  - vm_compute. reflexivity.
  - vm_compute. reflexivity.
  - lia.
  - lia.
  - lia.
  - exists b'. split; [exact H1 |]. split; [exact H2 |].
    rewrite H3. vm_compute. reflexivity.
Defined.

(** ** Pin-state replies *)

(** [a | (c << k)] adds up when [a] fits below bit [k] and nothing leaves
    the 32-bit range. *)
Lemma js_or_shl a c k :
  0 <= k < 32 -> 0 <= a < 2 ^ k -> 0 <= c -> c * 2 ^ k < 2 ^ 31 ->
  JS.or a (JS.shl c k) = a + c * 2 ^ k.
Proof.
  intros Hk Ha Hc Hck.
  assert (Hpow : 2 ^ k <= 2 ^ 31) by (apply Z.pow_le_mono_r; lia).
  assert (Hc' : c < 2 ^ 31) by nia.
  unfold JS.or, JS.shl. rewrite (Z.mod_small k 32) by lia.
  rewrite (to_int32_small a), (to_int32_small c) by lia.
  rewrite Z.shiftl_mul_pow2 by lia.
  rewrite !(to_int32_small (c * 2 ^ k)) by nia.
  assert (Hdisj : Z.land a (c * 2 ^ k) = 0).
  { apply Z.bits_inj'. intros n Hn. rewrite Z.land_spec, Z.bits_0.
    destruct (Z.ltb_spec n k) as [Hlt | Hge].
    - rewrite Z.mul_pow2_bits_low by lia. apply andb_false_r.
    - rewrite <- (Z.mod_small a (2 ^ k)) by lia.
      now rewrite Z.mod_pow2_bits_high by lia. }
  now rewrite <- Z.lxor_lor, <- Z.add_nocarry_lxor by exact Hdisj.
Qed.

(** X10. A pin-state reply F0 6E pin mode s0 [s1 [s2 ...]] F7 for a pin
    that exists stores the reported mode and, as the pin's state, the
    state bytes joined seven bits at a time, low bits first (bytes after
    the third are ignored); it raises ['pin-state-pin'], leaves every
    other pin alone, sends nothing and empties the buffer. *)
Theorem pin_state_reply_decoded (b : Board) (pin md s0 : Z) (more : list Z)
    (p : Pin) :
  currentBuffer b = [] -> versionReceived b = true ->
  SYSEX_RESPONSE b !! PIN_STATE_RESPONSE = Some H_PIN_STATE_RESPONSE ->
  idx (pins b) pin = Some p ->
  0 <= pin <= 0x7F -> 0 <= md <= 0x7F ->
  Forall (fun x => 0 <= x <= 0x7F) (s0 :: more) ->
  exists b',
    feed (START_SYSEX :: PIN_STATE_RESPONSE :: pin :: md :: s0 :: more
          ++ [END_SYSEX]) b = Done b'
    /\ pins b'
       = store (pins b) pin
           (set_state (Some (s0 + 128 * nth 0 more 0 + 16384 * nth 1 more 0))
              (set_mode (Some md) p))
    /\ emitted b' = emitted b ++ [Ev_pin_state pin]
    /\ sent b' = sent b
    /\ currentBuffer b' = [].
Proof.
  intros Hbuf Hv Hh Hp Hpin Hmd Hs.
  assert (Hfeed := feed_reply PIN_STATE_RESPONSE H_PIN_STATE_RESPONSE
                     (pin :: md :: s0 :: more) b Hbuf Hv Hh).
  specialize (Hfeed ltac:(unfold PIN_STATE_RESPONSE; lia)).
  assert (Hall : Forall (fun x => 0 <= x <= 0x7F) (pin :: md :: s0 :: more))
    by (now repeat (constructor; [assumption |])).
  specialize (Hfeed (Forall_7bit_le _ Hall)). clear Hall.
  apply Forall_cons in Hs. destruct Hs as [H0 Hmore].
  cbn [run_sysex] in Hfeed. unfold SYSEX_PIN_STATE_RESPONSE in Hfeed.
  cbv zeta in Hfeed.
  cbn [currentBuffer set_currentBuffer pins app lookup list_lookup mbind
       option_bind] in Hfeed.
  rewrite Hp in Hfeed. cbn [fmap option_fmap option_map bind] in Hfeed.
  eexists. split; [exact Hfeed |]. clear Hfeed.
  destruct more as [| s1 [| s2 rest]].
  - simpl_board. cbn [nth length app Nat.ltb Nat.leb lookup list_lookup].
    replace (s0 + 128 * 0 + 16384 * 0) with s0 by lia.
    repeat split.
  - apply Forall_cons in Hmore. destruct Hmore as [H1 _].
    simpl_board. cbn [nth length app Nat.ltb Nat.leb lookup list_lookup].
    rewrite !num_Some. rewrite (js_or_shl s0 s1 7) by lia.
    replace (s0 + s1 * 2 ^ 7) with (s0 + 128 * s1 + 16384 * 0) by lia.
    repeat split.
  - apply Forall_cons in Hmore. destruct Hmore as [H1 Hmore].
    apply Forall_cons in Hmore. destruct Hmore as [H2 _].
    simpl_board. cbn [nth length app Nat.ltb Nat.leb lookup list_lookup].
    rewrite !num_Some. rewrite (js_or_shl s0 s1 7) by lia.
    rewrite (js_or_shl (s0 + s1 * 2 ^ 7) s2 14) by lia.
    replace (s0 + s1 * 2 ^ 7 + s2 * 2 ^ 14)
      with (s0 + 128 * s1 + 16384 * s2) by lia.
    rewrite length_app, Nat.add_comm. cbn [length Nat.add].
    repeat split.
Qed.

Lemma pin_state_reply_decoded_witness :
  exists b',
    feed (START_SYSEX :: PIN_STATE_RESPONSE :: 1 :: 3 :: 0x7F :: [0x01]
          ++ [END_SYSEX]) ready_board = Done b'
    /\ map state (pins b') = [None; Some 255]
    /\ map mode (pins b') = [None; Some 3].
Proof.
  destruct (pins ready_board !! 1%nat) as [p |] eqn:Hp;
    [| vm_compute in Hp; discriminate].
  destruct (pin_state_reply_decoded ready_board 1 3 0x7F [0x01] p)
    as (b' & H1 & H2 & _).
  - vm_compute. reflexivity.
  - vm_compute. reflexivity.
  - vm_compute. reflexivity.
  - exact Hp.
  - lia.
  - lia.
  - repeat constructor; lia.
  - exists b'. split; [exact H1 |]. rewrite H2.
    vm_compute in Hp. injection Hp as <-. split; vm_compute; reflexivity.
Defined.

(** ** Firmware reports *)

Lemma idx_app_at {A} (pre l : list A) (j : nat) :
  idx (pre ++ l) (Z.of_nat (length pre) + Z.of_nat j) = l !! j.
Proof.
  unfold idx.
  destruct (Z.ltb_spec (Z.of_nat (length pre) + Z.of_nat j) 0) as [? | _];
    [lia |].
  replace (Z.to_nat (Z.of_nat (length pre) + Z.of_nat j))
    with (length pre + j)%nat by lia.
  now rewrite lookup_app_r, Nat.add_comm, Nat.add_sub by lia.
Qed.

(** What the firmware handler makes of the two bytes [encode] gives for
    an ASCII character. *)
Lemma name_byte_of_encoded c :
  0 <= c <= 0x7F ->
  JS.and (JS.or (JS.and (JS.and c 0x7F) 0x7F)
                (JS.shl (JS.and (JS.and (JS.sar c 7) 0x7F) 0x7F) 7)) 0xFF
  = c.
Proof.
  intros H.
  assert (Hc : exists k, (k < 128)%nat /\ c = Z.of_nat k)
    by (exists (Z.to_nat c); lia).
  destruct Hc as (k & Hk & ->).
  do 128 (destruct k as [| k]; [reflexivity |]). lia.
Qed.

Lemma name_bytes_at cs : forall (pre t : list Z),
  Forall (fun c => 0 <= c <= 0x7F) cs ->
  map (fun k =>
         let i := Z.of_nat (length pre) + 2 * Z.of_nat k in
         JS.and (JS.or (JS.and (num (idx (pre ++ encode cs ++ t) i)) 0x7F)
                       (JS.shl (JS.and (num (idx (pre ++ encode cs ++ t) (i + 1)))
                                       0x7F) 7))
                0xFF)
      (seq 0 (length cs))
  = cs.
Proof.
  induction cs as [| c cs IH]; intros pre t Hcs; [reflexivity |].
  apply Forall_cons in Hcs. destruct Hcs as [Hc Hcs].
  cbn [length seq map]. f_equal.
  - cbv zeta. rewrite encode_cons.
    replace (Z.of_nat (length pre) + 2 * Z.of_nat 0)
      with (Z.of_nat (length pre) + Z.of_nat 0) by lia.
    rewrite idx_app_at.
    replace (Z.of_nat (length pre) + Z.of_nat 0 + 1)
      with (Z.of_nat (length pre) + Z.of_nat 1) by lia.
    rewrite idx_app_at. cbn [app lookup list_lookup]. rewrite !num_Some.
    now apply name_byte_of_encoded.
  - rewrite <- seq_shift, map_map.
    rewrite <- (IH (pre ++ [JS.and c 0x7F; JS.and (JS.sar c 7) 0x7F]) t Hcs)
      at 2.
    apply map_ext. intros k. cbv zeta.
    rewrite encode_cons, length_app. cbn [length].
    replace (Z.of_nat (length pre) + 2 * Z.of_nat (S k))
      with (Z.of_nat (length pre + 2) + 2 * Z.of_nat k) by lia.
    now rewrite <- !app_assoc.
Qed.

Lemma firmware_name_of_frame major minor cs :
  Forall (fun c => 0 <= c <= 0x7F) cs ->
  let buf := START_SYSEX :: QUERY_FIRMWARE :: major :: minor
             :: encode cs ++ [END_SYSEX] in
  round_half (Z.of_nat (length buf) - 2 - 4) = Z.of_nat (length cs)
  /\ firmware_name_bytes buf (Z.of_nat (length buf) - 2) = cs.
Proof.
  intros Hcs buf.
  assert (Hlen : Z.of_nat (length buf) = 2 * Z.of_nat (length cs) + 5).
  { unfold buf. cbn [length]. rewrite length_app. cbn [length].
    assert (length (encode cs) = (2 * length cs)%nat); [| lia].
    clear. induction cs as [| v l IH]; [reflexivity |].
    rewrite encode_cons. cbn [length]. rewrite IH. lia. }
  assert (Hround : round_half (Z.of_nat (length buf) - 2 - 4)
                   = Z.of_nat (length cs)).
  { rewrite Hlen. unfold round_half.
    replace (2 * Z.of_nat (length cs) + 5 - 2 - 4 + 1)
      with (Z.of_nat (length cs) * 2) by lia.
    apply Z.div_mul. lia. }
  split; [exact Hround |].
  unfold firmware_name_bytes. rewrite Hround, Nat2Z.id.
  exact (name_bytes_at cs [START_SYSEX; QUERY_FIRMWARE; major; minor]
           [END_SYSEX] Hcs).
Qed.

(** X11. A firmware report F0 79 major minor name F7, the name sent as
    [Board.encode] sends ASCII characters, stores exactly that name and
    the two version bytes and raises ['queryfirmware'].  On a board that
    is not ready it starts the handshake: the capability query F0 6B F7
    is sent and one listener waits for the reply; on a ready board it
    sends nothing. *)
Theorem firmware_report_decoded (b : Board) (major minor : Z) (cs : list Z) :
  currentBuffer b = [] -> versionReceived b = true ->
  SYSEX_RESPONSE b !! QUERY_FIRMWARE = Some H_QUERY_FIRMWARE ->
  0 <= major <= 0x7F -> 0 <= minor <= 0x7F ->
  Forall (fun c => 0 <= c <= 0x7F) cs ->
  exists b',
    feed (START_SYSEX :: QUERY_FIRMWARE :: major :: minor
          :: encode cs ++ [END_SYSEX]) b = Done b'
    /\ firmware b'
       = mkFirmware (Some (string_of_bytes cs)) (Some major) (Some minor)
    /\ emitted b' = emitted b ++ [Ev_queryfirmware]
    /\ currentBuffer b' = []
    /\ sent b'
       = (if isReady b then sent b
          else sent b ++ [[START_SYSEX; CAPABILITY_QUERY; END_SYSEX]])
    /\ capabilityWaiters b'
       = (if isReady b then capabilityWaiters b else S (capabilityWaiters b)).
Proof.
  intros Hbuf Hv Hh Hmaj Hmin Hcs.
  assert (Hfeed := feed_reply QUERY_FIRMWARE H_QUERY_FIRMWARE
                     (major :: minor :: encode cs) b Hbuf Hv Hh).
  specialize (Hfeed ltac:(unfold QUERY_FIRMWARE; lia)).
  assert (Hall : Forall (fun x => x <= 0x7F) (major :: minor :: encode cs)).
  { constructor; [lia |]. constructor; [lia |]. apply Forall_7bit_le.
    clear -cs. induction cs as [| v l IH]; [constructor |].
    rewrite encode_cons, js_and_127, js_sar_7_and_127.
    repeat constructor; try apply land_127_range. exact IH. }
  specialize (Hfeed Hall). clear Hall.
  destruct (firmware_name_of_frame major minor cs Hcs) as [Hround Hname].
  cbv zeta in Hround, Hname.
  cbn [run_sysex] in Hfeed. unfold SYSEX_QUERY_FIRMWARE in Hfeed.
  cbv zeta in Hfeed. cbn [currentBuffer set_currentBuffer] in Hfeed.
  change ((major :: minor :: encode cs) ++ [END_SYSEX])
    with (major :: minor :: encode cs ++ [END_SYSEX]) in Hfeed.
  rewrite Hround, Hname in Hfeed.
  replace (Z.of_nat (length cs) <? 0) with false in Hfeed
    by (symmetry; apply Z.ltb_ge; lia).
  cbn [bind lookup list_lookup] in Hfeed.
  eexists. split; [exact Hfeed |].
  unfold on_queryfirmware, queryCapabilities. simpl_board.
  destruct (isReady b); simpl_board; repeat split.
Qed.

Lemma firmware_report_decoded_witness :
  exists b',
    feed (START_SYSEX :: QUERY_FIRMWARE :: 2 :: 5 :: encode [0x73; 0x70]
          ++ [END_SYSEX]) greeted_board = Done b'
    /\ firmware b' = mkFirmware (Some "sp"%string) (Some 2) (Some 5)
    /\ sent b' = sent greeted_board ++ [[0xF0; 0x6B; 0xF7]].
Proof.
  destruct (firmware_report_decoded greeted_board 2 5 [0x73; 0x70])
    as (b' & H1 & H2 & _ & _ & H5 & _).
  - vm_compute. reflexivity.
  - vm_compute. reflexivity.
  - vm_compute. reflexivity.
  - lia.
  - lia.
  - repeat constructor; lia.
  - exists b'. split; [exact H1 |]. split; [exact H2 | exact H5].
Defined.

(** X12. A firmware frame with fewer than two bytes between the command
    and the terminator, the echo F0 79 F7 of the query among them, makes
    the handler throw a RangeError: nothing is stored or raised, and the
    frame stays in the buffer. *)
Theorem short_firmware_frame_throws (b : Board) (body : list Z) :
  currentBuffer b = [] -> versionReceived b = true ->
  SYSEX_RESPONSE b !! QUERY_FIRMWARE = Some H_QUERY_FIRMWARE ->
  Forall (fun x => 0 <= x <= 0x7F) body ->
  (length body <= 1)%nat ->
  feed (START_SYSEX :: QUERY_FIRMWARE :: body ++ [END_SYSEX]) b
  = Raised RangeError
      (set_currentBuffer (START_SYSEX :: QUERY_FIRMWARE :: body ++ [END_SYSEX])
         b).
Proof.
  intros Hbuf Hv Hh Hbody Hlen.
  rewrite (feed_reply QUERY_FIRMWARE H_QUERY_FIRMWARE body b Hbuf Hv Hh)
    by first [ unfold QUERY_FIRMWARE; lia | now apply Forall_7bit_le ].
  destruct body as [| x [| y rest]]; [reflexivity | reflexivity |].
  cbn [length] in Hlen. lia.
Qed.

Lemma short_firmware_frame_throws_witness :
  feed (START_SYSEX :: QUERY_FIRMWARE :: [] ++ [END_SYSEX]) greeted_board
  = Raised RangeError
      (set_currentBuffer (START_SYSEX :: QUERY_FIRMWARE :: [] ++ [END_SYSEX])
         greeted_board).
Proof.
  apply (short_firmware_frame_throws greeted_board []).
  - vm_compute. reflexivity.
  - vm_compute. reflexivity.
  - vm_compute. reflexivity.
  - constructor.
  - cbn [length]. lia.
Defined.

(** ** The handshake *)

(** The capability loop only rebuilds [pins] and [RESOLUTION]. *)
Lemma capability_loop_form l : forall capability n b,
  exists ps r,
    capability_loop l capability n b = set_RESOLUTION r (set_pins ps b).
Proof.
  induction l as [| x l IH]; intros capability n b.
  - exists (pins b), (RESOLUTION b). now destruct b.
  - destruct l as [| y rest].
    + exists (pins b), (RESOLUTION b). now destruct b.
    + rewrite capability_loop_step.
      destruct (x =? 127); [| destruct n];
        match goal with
        | |- context [capability_loop (y :: rest) ?c ?m ?bb] =>
            destruct (IH c m bb) as (ps & r & ->)
        end;
        exists ps, r; now destruct b.
Qed.

(** The analog-mapping loop, on a reply no longer than the pins array,
    only touches [pins] and [analogPins], and keeps the number of pins. *)
Lemma analog_mapping_loop_form l : forall pin b,
  (pin + length l <= length (pins b))%nat ->
  exists ps aps,
    analog_mapping_loop l pin b = Done (set_analogPins aps (set_pins ps b))
    /\ length ps = length (pins b).
Proof.
  induction l as [| x l IH]; intros pin b Hlen.
  - exists (pins b), (analogPins b). split; [now destruct b | reflexivity].
  - cbn [analog_mapping_loop length] in *.
    destruct (pins b !! pin) as [p |] eqn:Hp;
      [| apply lookup_ge_None in Hp; lia].
    match goal with
    | |- context [analog_mapping_loop l (S pin) ?bb] =>
        destruct (IH (S pin) bb) as (ps & aps & -> & Hps)
    end.
    { destruct (x =? 127); simpl_board; rewrite length_insert; lia. }
    exists ps, aps. split.
    + destruct (x =? 127); now destruct b.
    + rewrite Hps. destruct (x =? 127); simpl_board; apply length_insert.
Qed.

Lemma firmware_step b body :
  currentBuffer b = [] -> versionReceived b = true ->
  SYSEX_RESPONSE b !! QUERY_FIRMWARE = Some H_QUERY_FIRMWARE ->
  isReady b = false ->
  Forall (fun x => 0 <= x <= 0x7F) body -> (2 <= length body)%nat ->
  exists fw,
    feed (START_SYSEX :: QUERY_FIRMWARE :: body ++ [END_SYSEX]) b
    = Done (queryCapabilities (emit Ev_queryfirmware (set_firmware fw b))).
Proof.
  intros Hbuf Hv Hh Hr Hbody Hlen.
  rewrite (feed_reply QUERY_FIRMWARE H_QUERY_FIRMWARE body b Hbuf Hv Hh)
    by first [ unfold QUERY_FIRMWARE; lia | now apply Forall_7bit_le ].
  cbn [run_sysex]. unfold SYSEX_QUERY_FIRMWARE. cbv zeta. simpl_board.
  replace (round_half _ <? 0) with false.
  - unfold on_queryfirmware. simpl_board. rewrite Hr. cbn [bind].
    eexists. f_equal. destruct b. cbn in Hbuf. subst. reflexivity.
  - symmetry. apply Z.ltb_ge. unfold round_half.
    apply Z.div_pos; [| lia].
    cbn [length]. rewrite length_app. cbn [length]. lia.
Qed.

Lemma capability_step b caps :
  currentBuffer b = [] -> versionReceived b = true ->
  SYSEX_RESPONSE b !! CAPABILITY_RESPONSE = Some H_CAPABILITY_RESPONSE ->
  capabilityWaiters b = 1%nat ->
  Forall (fun x => 0 <= x <= 0x7F) caps ->
  exists ps r,
    feed (START_SYSEX :: CAPABILITY_RESPONSE :: caps ++ [END_SYSEX]) b
    = Done (queryAnalogMapping
              (set_capabilityWaiters 0
                 (emit Ev_capability_query
                    (set_RESOLUTION r
                       (set_pins ps (set_ports fresh_ports b))))))
    /\ length ps = count_occ Z.eq_dec caps 0x7F.
Proof.
  intros Hbuf Hv Hh Hw Hcaps.
  rewrite (feed_reply CAPABILITY_RESPONSE H_CAPABILITY_RESPONSE caps b Hbuf Hv Hh)
    by first [ unfold CAPABILITY_RESPONSE; lia | now apply Forall_7bit_le ].
  cbn [run_sysex bind]. unfold SYSEX_CAPABILITY_RESPONSE. cbv zeta.
  simpl_board.
  change (drop 2 (START_SYSEX :: CAPABILITY_RESPONSE :: caps ++ [END_SYSEX]))
    with (caps ++ [END_SYSEX]).
  match goal with
  | |- context [capability_loop ?l ?c ?m ?bb] =>
      pose proof (capability_loop_pins caps END_SYSEX c m bb) as Hpins;
      destruct (capability_loop_form l c m bb) as (ps & r & Hform)
  end.
  rewrite Hform in Hpins |- *. simpl_board.
  cbn [pins set_pins set_RESOLUTION set_ports set_currentBuffer map app]
    in Hpins.
  exists ps, r. split.
  - unfold on_capability_query. simpl_board. rewrite Hw.
    cbn [Nat.iter nat_rect]. f_equal.
    destruct b. cbn in Hbuf. subst. reflexivity.
  - rewrite <- (length_map analogChannel ps), Hpins. apply repeat_length.
Qed.

Lemma mapping_step b mapping :
  currentBuffer b = [] -> versionReceived b = true ->
  SYSEX_RESPONSE b !! ANALOG_MAPPING_RESPONSE = Some H_ANALOG_MAPPING_RESPONSE ->
  analogMappingWaiters b = 1%nat ->
  Forall (fun x => 0 <= x <= 0x7F) mapping ->
  (length mapping <= length (pins b))%nat ->
  exists ps aps,
    feed (START_SYSEX :: ANALOG_MAPPING_RESPONSE :: mapping ++ [END_SYSEX]) b
    = Done (ready
              (set_analogMappingWaiters 0
                 (emit Ev_analog_mapping_query
                    (set_analogPins aps (set_pins ps b)))))
    /\ length ps = length (pins b).
Proof.
  intros Hbuf Hv Hh Hw Hmapping Hlen.
  rewrite (feed_reply ANALOG_MAPPING_RESPONSE H_ANALOG_MAPPING_RESPONSE
             mapping b Hbuf Hv Hh)
    by first [ unfold ANALOG_MAPPING_RESPONSE; lia | now apply Forall_7bit_le ].
  cbn [run_sysex]. unfold SYSEX_ANALOG_MAPPING_RESPONSE. simpl_board.
  rewrite payload_frame.
  match goal with
  | |- context [analog_mapping_loop mapping 0 ?bb] =>
      destruct (analog_mapping_loop_form mapping 0 bb) as (ps & aps & -> & Hps)
  end; [simpl_board; lia |].
  cbn [bind]. exists ps, aps. split; [| exact Hps].
  unfold on_analog_mapping_query. simpl_board. rewrite Hw.
  cbn [Nat.iter nat_rect]. f_equal.
  destruct b. cbn in Hbuf. subst. reflexivity.
Qed.

Lemma handshake_steps (b : Board) (name caps mapping : list Z) :
  currentBuffer b = [] -> versionReceived b = true -> isReady b = false ->
  capabilityWaiters b = 0%nat -> analogMappingWaiters b = 0%nat ->
  SYSEX_RESPONSE b !! QUERY_FIRMWARE = Some H_QUERY_FIRMWARE ->
  SYSEX_RESPONSE b !! CAPABILITY_RESPONSE = Some H_CAPABILITY_RESPONSE ->
  SYSEX_RESPONSE b !! ANALOG_MAPPING_RESPONSE = Some H_ANALOG_MAPPING_RESPONSE ->
  Forall (fun x => 0 <= x <= 0x7F) name -> (2 <= length name)%nat ->
  Forall (fun x => 0 <= x <= 0x7F) caps ->
  Forall (fun x => 0 <= x <= 0x7F) mapping ->
  (length mapping <= count_occ Z.eq_dec caps 0x7F%Z)%nat ->
  exists b',
    feed ((START_SYSEX :: QUERY_FIRMWARE :: name ++ [END_SYSEX])
          ++ (START_SYSEX :: CAPABILITY_RESPONSE :: caps ++ [END_SYSEX])
          ++ (START_SYSEX :: ANALOG_MAPPING_RESPONSE :: mapping ++ [END_SYSEX]))
      b = Done b'
    /\ isReady b' = true
    /\ emitted b'
       = emitted b ++ [Ev_queryfirmware; Ev_capability_query;
                       Ev_analog_mapping_query; Ev_ready]
    /\ sent b'
       = sent b ++ [[START_SYSEX; CAPABILITY_QUERY; END_SYSEX];
                    [START_SYSEX; ANALOG_MAPPING_QUERY; END_SYSEX];
                    [0xF0; 0x7A; 0x64; 0x00; 0xF7]]
    /\ length (pins b') = count_occ Z.eq_dec caps 0x7F
    /\ Forall (fun p => mode p = None) (pins b')
    /\ ports b' = fresh_ports
    /\ capabilityWaiters b' = 0%nat
    /\ analogMappingWaiters b' = 0%nat
    /\ currentBuffer b' = [].
Proof.
  intros Hbuf Hv Hr Hcw Haw Hfw Hcap Hmap Hname Hlen Hcaps Hmapping Hfit.
  destruct (firmware_step b name Hbuf Hv Hfw Hr Hname Hlen) as (fw & H1).
  set (b1 := queryCapabilities (emit Ev_queryfirmware (set_firmware fw b))) in *.
  destruct (capability_step b1 caps) as (ps & r & H2 & Hps);
    [exact Hbuf | exact Hv | exact Hcap
    | unfold b1, queryCapabilities; simpl_board; now rewrite Hcw
    | exact Hcaps |].
  set (b2 := queryAnalogMapping _) in *.
  destruct (mapping_step b2 mapping) as (ps' & aps & H3 & Hps');
    [exact Hbuf | exact Hv | exact Hmap
    | unfold b2, b1, queryAnalogMapping, queryCapabilities; simpl_board;
      now rewrite Haw
    | exact Hmapping
    | unfold b2, queryAnalogMapping; simpl_board; lia |].
  eexists. split.
  { rewrite feed_app, H1. cbn [bind]. rewrite feed_app, H2. cbn [bind].
    exact H3. }
  unfold ready, init, b2, queryAnalogMapping, b1, queryCapabilities.
  simpl_board. rewrite <- !app_assoc. cbn [app].
  repeat match goal with |- _ /\ _ => split end; try reflexivity.
  - rewrite length_map, Hps'. exact Hps.
  - apply Forall_forall. intros p Hp.
    apply list_elem_of_In, in_map_iff in Hp. destruct Hp as (q & <- & _).
    reflexivity.
  - exact Hbuf.
Qed.


(** X13. The handshake.  On a board that knows the version, is not ready
    and has no listener waiting, a firmware report, a capability reply
    and an analog-mapping reply (7-bit payloads, the mapping no longer
    than the number of pins) make the board ready exactly once: the
    capability query, the analog-mapping query and the sampling-interval
    message are sent in that order, the four events are raised in order
    with ['ready'] last, there is one pin per 0x7F byte of the capability
    reply, every pin's mode is unset, the ports are sixteen zeros, and no
    listener is left waiting. *)
Theorem handshake_reaches_ready (b : Board) (name caps mapping : list Z) :
  currentBuffer b = [] -> versionReceived b = true -> isReady b = false ->
  capabilityWaiters b = 0%nat -> analogMappingWaiters b = 0%nat ->
  SYSEX_RESPONSE b !! QUERY_FIRMWARE = Some H_QUERY_FIRMWARE ->
  SYSEX_RESPONSE b !! CAPABILITY_RESPONSE = Some H_CAPABILITY_RESPONSE ->
  SYSEX_RESPONSE b !! ANALOG_MAPPING_RESPONSE = Some H_ANALOG_MAPPING_RESPONSE ->
  Forall (fun x => 0 <= x <= 0x7F) name -> (2 <= length name)%nat ->
  Forall (fun x => 0 <= x <= 0x7F) caps ->
  Forall (fun x => 0 <= x <= 0x7F) mapping ->
  (length mapping <= count_occ Z.eq_dec caps 0x7F%Z)%nat ->
  exists b',
    feed ((START_SYSEX :: QUERY_FIRMWARE :: name ++ [END_SYSEX])
          ++ (START_SYSEX :: CAPABILITY_RESPONSE :: caps ++ [END_SYSEX])
          ++ (START_SYSEX :: ANALOG_MAPPING_RESPONSE :: mapping ++ [END_SYSEX]))
      b = Done b'
    /\ isReady b' = true
    /\ emitted b'
       = emitted b ++ [Ev_queryfirmware; Ev_capability_query;
                       Ev_analog_mapping_query; Ev_ready]
    /\ sent b'
       = sent b ++ [[START_SYSEX; CAPABILITY_QUERY; END_SYSEX];
                    [START_SYSEX; ANALOG_MAPPING_QUERY; END_SYSEX];
                    [0xF0; 0x7A; 0x64; 0x00; 0xF7]]
    /\ length (pins b') = count_occ Z.eq_dec caps 0x7F
    /\ Forall (fun p => mode p = None) (pins b')
    /\ ports b' = fresh_ports
    /\ capabilityWaiters b' = 0%nat
    /\ analogMappingWaiters b' = 0%nat
    /\ currentBuffer b' = [].
Proof.
  intros Hbuf Hv Hr Hcw Haw Hfw Hcap Hmap Hname Hlen Hcaps Hmapping Hfit.
  now apply handshake_steps.
Qed.

Lemma handshake_reaches_ready_witness :
  exists b',
    feed ((START_SYSEX :: QUERY_FIRMWARE :: [2; 5; 0x73; 0x00] ++ [END_SYSEX])
          ++ (START_SYSEX :: CAPABILITY_RESPONSE
              :: [0x00; 0x01; 0x7F; 0x02; 0x0A; 0x7F] ++ [END_SYSEX])
          ++ (START_SYSEX :: ANALOG_MAPPING_RESPONSE :: [0x7F; 0x00]
              ++ [END_SYSEX]))
      greeted_board = Done b'
    /\ isReady b' = true
    /\ length (pins b') = 2%nat.
Proof.
  destruct (handshake_reaches_ready greeted_board [2; 5; 0x73; 0x00]
              [0x00; 0x01; 0x7F; 0x02; 0x0A; 0x7F] [0x7F; 0x00])
    as (b' & H1 & H2 & _ & _ & H5 & _).
  - vm_compute. reflexivity.
  - vm_compute. reflexivity.
  - vm_compute. reflexivity.
  - vm_compute. reflexivity.
  - vm_compute. reflexivity.
  - vm_compute. reflexivity.
  - vm_compute. reflexivity.
  - vm_compute. reflexivity.
  - repeat constructor; lia.
  - cbn [length]. lia.
  - repeat constructor; lia.
  - repeat constructor; lia.
  - vm_compute. lia.
  - exists b'. split; [exact H1 |]. split; [exact H2 | exact H5].
Defined.

(** ** Strings *)

Lemma encode_ascii c :
  0 <= c <= 0x7F -> JS.and c 0x7F = c /\ JS.and (JS.sar c 7) 0x7F = 0.
Proof.
  intros H.
  assert (Hc : exists k, (k < 128)%nat /\ c = Z.of_nat k)
    by (exists (Z.to_nat c); lia).
  destruct Hc as (k & Hk & ->).
  do 128 (destruct k as [| k]; [split; reflexivity |]). lia.
Qed.

Lemma string_body_7bit bytes :
  Forall (fun x => x <= 0x7F)
    (flat_map (fun c => [JS.and c 0x7F; JS.and (JS.sar c 7) 0x7F]) bytes).
Proof.
  induction bytes as [| c l IH]; [constructor |].
  cbn [flat_map app]. rewrite js_and_127, js_sar_7_and_127.
  repeat constructor; try apply land_127_range. exact IH.
Qed.

Lemma string_body_text text :
  Forall (fun c => 1 <= c <= 0x7F) text ->
  filter (fun c => c ≠ 0)
    (flat_map (fun c => [JS.and c 0x7F; JS.and (JS.sar c 7) 0x7F])
       (text ++ [0]))
  = text.
Proof.
  induction 1 as [| c l Hc Hl IH]; [reflexivity |].
  cbn [app flat_map]. destruct (encode_ascii c ltac:(lia)) as [-> ->].
  rewrite filter_cons_True by lia.
  rewrite filter_cons_False by (intros Hne; now apply Hne).
  now rewrite IH.
Qed.

(** X14. [sendString] and the [STRING_DATA] handler agree on the wire
    format: for a text of ASCII characters other than NUL, [sendString]
    submits one frame F0 71 ... F7 of 2 * length + 5 bytes, and that
    frame, received back, raises ['string'] with the same text. *)
Theorem sendString_echo (b : Board) (text : list Z) :
  currentBuffer b = [] -> versionReceived b = true ->
  SYSEX_RESPONSE b !! STRING_DATA = Some H_STRING_DATA ->
  Forall (fun c => 1 <= c <= 0x7F) text ->
  exists frame b',
    sent (sendString text b) = sent b ++ [frame]
    /\ length frame = (2 * length text + 5)%nat
    /\ feed frame (sendString text b) = Done b'
    /\ emitted b' = emitted b ++ [Ev_string text]
    /\ currentBuffer b' = [].
Proof.
  intros Hbuf Hv Hh Htext.
  set (body := flat_map (fun c => [JS.and c 0x7F; JS.and (JS.sar c 7) 0x7F])
                 (text ++ [0])).
  exists (START_SYSEX :: STRING_DATA :: body ++ [END_SYSEX]).
  eexists. split; [reflexivity |]. split.
  - cbn [length]. rewrite length_app. cbn [length]. unfold body.
    rewrite (flat_map_constant_length (c := 2%nat)) by reflexivity.
    rewrite length_app. cbn [length]. lia.
  - split.
    + rewrite (feed_reply STRING_DATA H_STRING_DATA body (sendString text b));
        [reflexivity | exact Hbuf | exact Hv | exact Hh
        | unfold STRING_DATA; lia | apply string_body_7bit].
    + unfold SYSEX_STRING_DATA, sendString. simpl_board.
      fold body. rewrite payload_frame. unfold body.
      now rewrite string_body_text.
Qed.

Lemma sendString_echo_witness :
  exists frame b',
    sent (sendString [0x68; 0x69] greeted_board)
    = sent greeted_board ++ [frame]
    /\ length frame = 9%nat
    /\ feed frame (sendString [0x68; 0x69] greeted_board) = Done b'
    /\ emitted b' = emitted greeted_board ++ [Ev_string [0x68; 0x69]].
Proof.
  destruct (sendString_echo greeted_board [0x68; 0x69])
    as (frame & b' & H1 & H2 & H3 & H4 & _).
  - vm_compute. reflexivity.
  - vm_compute. reflexivity.
  - vm_compute. reflexivity.
  - repeat constructor; lia.
  - exists frame, b'. repeat split; assumption.
Defined.

(** ** PWM and servo writes *)

Lemma set_mode_same md p : mode p = Some md -> set_mode (Some md) p = p.
Proof. destruct p. cbn. now intros ->. Qed.

Lemma set_value_same val p : value p = val -> set_value val p = p.
Proof. destruct p. cbn. now intros ->. Qed.

Lemma store_store {A} (arr : list A) i x y :
  store (store arr i x) i y = store arr i y.
Proof. unfold store. apply list_insert_insert_eq. Qed.

(** [pwmWrite] on a pin that exists, by the state of the pin: settled at
    once, the value write alone, or the mode change with the value write
    chained on it. *)
Lemma pwmWrite_unfold b md pin val p :
  idx (pins b) pin = Some p ->
  pwmWrite md pin val b
  = if bool_decide (mode p = Some md) then
      if value p =? val then (b, Settled (Resolved None))
      else write_then (pwm_message pin val) (assign_value pin val) b
    else
      (writeToTransport [PIN_MODE; pin; md] b,
       Awaiting (fun ack b' =>
                   match (if ack then assign_mode pin md b'
                          else (b', Settled Refused)) with
                   | (b'', c') =>
                       and_then c'
                         (write_then (pwm_message pin val)
                            (assign_value pin val)) b''
                   end)).
Proof.
  intros Hp. pose proof (idx_Some_range _ _ _ Hp) as Hr.
  unfold pwmWrite. cbv zeta.
  replace (Z.of_nat (length (pins b)) >? pin) with true
    by (symmetry; apply Z.gtb_lt; lia).
  rewrite Hp.
  destruct (bool_decide (mode p = Some md)); cbn [negb].
  - rewrite orb_false_r. destruct (value p =? val); reflexivity.
  - rewrite orb_true_r. reflexivity.
Qed.

Lemma acknowledge_all_settled acks b r :
  acknowledge_all acks (b, Settled r) = (b, Settled r).
Proof. induction acks as [| ack acks IH]; [reflexivity | exact IH]. Qed.

(** X15. [pwmWrite] to a pin that exists.  At the call it hands over at
    most one message, the mode message if the mode changes and else the
    value message if the value changes, and touches no pin.  When every
    write is acknowledged, with nothing else happening in between, the
    promise resolves with the pin in the requested mode and holding the
    value, every other pin and the ports as they were, and with the value
    message handed over after the mode message; a repeated write on that
    board settles at once and sends nothing.  When the first write is
    refused the promise is rejected, nothing more is sent and no pin
    changes. *)
Theorem pwmWrite_settles (b : Board) (md pin val : Z) (p : Pin) :
  idx (pins b) pin = Some p ->
  sent (fst (pwmWrite md pin val b))
  = sent b
    ++ (if bool_decide (mode p = Some md)
        then (if value p =? val then [] else [pwm_message pin val])
        else [[PIN_MODE; pin; md]])
  /\ pins (fst (pwmWrite md pin val b)) = pins b
  /\ (exists b',
         acknowledge_all [true; true] (pwmWrite md pin val b)
         = (b', Settled (Resolved None))
         /\ idx (pins b') pin = Some (set_value val (set_mode (Some md) p))
         /\ (forall j, j <> pin -> idx (pins b') j = idx (pins b) j)
         /\ sent b'
            = sent b
              ++ (if bool_decide (mode p = Some md) then []
                  else [[PIN_MODE; pin; md]])
              ++ (if (value p =? val) && bool_decide (mode p = Some md)
                  then [] else [pwm_message pin val])
         /\ ports b' = ports b
         /\ pwmWrite md pin val b' = (b', Settled (Resolved None)))
  /\ acknowledge false (pwmWrite md pin val b)
     = (fst (pwmWrite md pin val b),
        if (value p =? val) && bool_decide (mode p = Some md)
        then Settled (Resolved None) else Settled Refused).
Proof.
  intros Hp. pose proof (idx_Some_range _ _ _ Hp) as Hr.
  rewrite (pwmWrite_unfold b md pin val p Hp).
  destruct (bool_decide (mode p = Some md)) eqn:Hm.
  - apply bool_decide_eq_true_1 in Hm. rewrite andb_true_r.
    destruct (value p =? val) eqn:Hv.
    + apply Z.eqb_eq in Hv. cbn [fst snd app].
      rewrite acknowledge_all_settled, app_nil_r.
      split; [reflexivity |]. split; [reflexivity |].
      split; [| reflexivity].
      exists b. split; [reflexivity |].
      rewrite (set_mode_same md p Hm), (set_value_same val p Hv).
      split; [exact Hp |]. split; [reflexivity |]. split; [reflexivity |].
      split; [reflexivity |].
      rewrite (pwmWrite_unfold b md pin val p Hp).
      rewrite bool_decide_eq_true_2 by exact Hm.
      now replace (value p =? val) with true by (symmetry; now apply Z.eqb_eq).
    + unfold write_then, acknowledge_all, acknowledge.
      cbn [fst snd fold_left app].
      rewrite (assign_value_Some pin val _ p)
        by (rewrite pins_writeToTransport; exact Hp).
      cbn [fst snd]. rewrite sent_writeToTransport, pins_writeToTransport.
      split; [reflexivity |]. split; [reflexivity |].
      split; [| reflexivity].
      eexists. split; [reflexivity |].
      cbn [pins sent ports set_pins writeToTransport set_sent].
      rewrite (set_mode_same md p Hm).
      split; [now apply idx_store_eq with p |].
      split; [intros j Hj; apply idx_store_ne; lia |].
      split; [reflexivity |]. split; [reflexivity |].
      rewrite (pwmWrite_unfold _ md pin val (set_value val p))
        by (cbn [pins set_pins]; now apply idx_store_eq with p).
      cbn [mode value set_value].
      rewrite bool_decide_eq_true_2 by exact Hm.
      now rewrite Z.eqb_refl.
  - apply bool_decide_eq_false_1 in Hm. rewrite andb_false_r.
    unfold acknowledge_all, acknowledge. cbn [fst snd fold_left].
    rewrite (assign_mode_Some pin md _ p)
      by (rewrite pins_writeToTransport; exact Hp).
    cbn [and_then in_then write_then fst snd].
    rewrite (assign_value_Some pin val _ (set_mode (Some md) p))
      by (cbn [pins set_pins writeToTransport set_sent];
          now apply idx_store_eq with p).
    cbn [fst snd]. rewrite sent_writeToTransport, pins_writeToTransport.
    split; [reflexivity |]. split; [reflexivity |].
    split; [| reflexivity].
    eexists. split; [reflexivity |].
    cbn [pins sent ports set_pins writeToTransport set_sent].
    rewrite store_store.
    split; [now apply idx_store_eq with p |].
    split; [intros j Hj; apply idx_store_ne; lia |].
    split; [now rewrite <- app_assoc |]. split; [reflexivity |].
    rewrite (pwmWrite_unfold _ md pin val (set_value val (set_mode (Some md) p)))
      by (cbn [pins set_pins]; now apply idx_store_eq with p).
    cbn [mode value set_value set_mode].
    rewrite bool_decide_eq_true_2 by reflexivity.
    now rewrite Z.eqb_refl.
Qed.

Lemma pwmWrite_settles_witness :
  sent (fst (pwmWrite MODES.PWM 1 200 ready_board))
  = sent ready_board ++ [[PIN_MODE; 1; MODES.PWM]]
  /\ exists b',
       acknowledge_all [true; true] (pwmWrite MODES.PWM 1 200 ready_board)
       = (b', Settled (Resolved None))
       /\ sent b'
          = sent ready_board ++ [[PIN_MODE; 1; MODES.PWM]; [0xE1; 0x48; 0x01]]
       /\ pwmWrite MODES.PWM 1 200 b' = (b', Settled (Resolved None)).
Proof.
  destruct (pins ready_board !! 1%nat) as [p |] eqn:Hp;
    [| vm_compute in Hp; discriminate].
  destruct (pwmWrite_settles ready_board MODES.PWM 1 200 p Hp)
    as (H1 & _ & (b' & H3 & _ & _ & H6 & _ & H8) & _).
  vm_compute in Hp. injection Hp as <-.
  split; [rewrite H1; vm_compute; reflexivity |].
  exists b'. split; [exact H3 |]. split; [| exact H8].
  rewrite H6. vm_compute. reflexivity.
Defined.

Lemma js_sar_and_127 val k :
  0 <= val < 2 ^ 31 -> 0 <= k < 32 ->
  JS.and (JS.sar val k) 0x7F = (val / 2 ^ k) mod 128.
Proof.
  intros Hv Hk. rewrite js_and_127. unfold JS.sar.
  rewrite (Z.mod_small k 32) by lia. rewrite to_int32_small by lia.
  rewrite Z.shiftr_div_pow2 by lia.
  exact (Z.land_ones (val / 2 ^ k) 7 ltac:(lia)).
Qed.

(** X16. The extended analog message [pwmWrite] builds for a pin above
    15 frames the pin and two to five 7-bit groups of the value, low group
    first.  The groups stand for the value itself, except at exactly
    0x4000, 0x200000 and 0x10000000, where the group that would hold the
    only set bit is left out and the message carries 0. *)
Theorem pwm_extended_payload (pin val : Z) :
  15 < pin -> 0 <= val < 2 ^ 31 ->
  exists groups,
    pwm_message pin val
    = [START_SYSEX; EXTENDED_ANALOG; pin] ++ groups ++ [END_SYSEX]
    /\ Forall (fun g => 0 <= g <= 0x7F) groups
    /\ (2 <= length groups <= 5)%nat
    /\ join7 groups
       = (if (val =? 0x4000) || (val =? 0x200000) || (val =? 0x10000000)
          then 0 else val).
Proof.
  intros Hpin Hval. unfold pwm_message.
  replace (pin >? 15) with true by (symmetry; apply Z.gtb_lt; lia).
  rewrite (js_and_127 val).
  rewrite (js_sar_and_127 val 7), (js_sar_and_127 val 14),
    (js_sar_and_127 val 21), (js_sar_and_127 val 28) by lia.
  replace (Z.land val 127) with (val mod 128)
    by (symmetry; exact (Z.land_ones val 7 ltac:(lia))).
  change (2 ^ 7) with 128. change (2 ^ 14) with 16384.
  change (2 ^ 21) with 2097152. change (2 ^ 28) with 268435456.
  assert (Hm : forall x, 0 <= x mod 128 <= 127)
    by (intros x; pose proof (Z.mod_pos_bound x 128 ltac:(lia)); lia).
  exists ([val mod 128; (val / 128) mod 128]
          ++ (if val >? 16384 then [(val / 16384) mod 128] else [])
          ++ (if val >? 2097152 then [(val / 2097152) mod 128] else [])
          ++ (if val >? 268435456 then [(val / 268435456) mod 128] else [])).
  split; [now rewrite <- !app_assoc |].
  destruct (Z.gtb_spec val 16384) as [H14 | H14];
    destruct (Z.gtb_spec val 2097152) as [H21 | H21];
    destruct (Z.gtb_spec val 268435456) as [H28 | H28];
    try lia;
    (split; [repeat constructor; apply Hm |]);
    (split; [cbn [length app]; lia |]);
    cbn [app join7];
    destruct (Z.eqb_spec val 16384) as [E14 | E14];
    destruct (Z.eqb_spec val 2097152) as [E21 | E21];
    destruct (Z.eqb_spec val 268435456) as [E28 | E28];
    cbn [orb]; try lia; try (subst val; reflexivity);
    Z.div_mod_to_equations; lia.
Qed.

Lemma pwm_extended_payload_witness :
  exists groups,
    pwm_message 16 0x4000
    = [START_SYSEX; EXTENDED_ANALOG; 16] ++ groups ++ [END_SYSEX]
    /\ join7 groups = 0.
Proof.
  destruct (pwm_extended_payload 16 0x4000) as (groups & H1 & _ & _ & H4).
  - lia.
  - lia.
  - exists groups. split; [exact H1 | exact H4].
Defined.

(** [servoConfig] for a pin that is not in SERVO mode hands over the
    configuration message and waits for the write. *)
Lemma servoConfig_unfold b pin p :
  idx (pins b) pin = Some p ->
  servoConfig pin 544 2400 b
  = if bool_decide (mode p = Some MODES.SERVO)
    then (b, Settled (Resolved None))
    else write_then
           [START_SYSEX; SERVO_CONFIG; pin; 0x20; 0x04; 0x60; 0x12; END_SYSEX]
           (fun b => (b, Settled (Resolved None))) b.
Proof. intros Hp. unfold servoConfig. now rewrite Hp. Qed.

(** X17. [servoWrite] to an existing pin that is not in SERVO mode hands
    over, at the call, the servo configuration for the pulse range
    544..2400 (bytes 20 04 60 12) and nothing else; the mode message
    follows once that write is acknowledged, and the value message once
    the mode write is acknowledged.  When all three writes are
    acknowledged, with nothing else happening in between, the promise
    resolves with the pin in SERVO mode holding the value; a further
    [servoWrite] to that pin then hands over the value message alone, and
    nothing at all when the value is the one already held.  A refused
    write rejects the promise and stops the sequence where it is. *)
Theorem servoWrite_sequence (b : Board) (pin val : Z) (p : Pin) :
  idx (pins b) pin = Some p ->
  mode p <> Some MODES.SERVO ->
  let config :=
    [START_SYSEX; SERVO_CONFIG; pin; 0x20; 0x04; 0x60; 0x12; END_SYSEX] in
  sent (fst (servoWrite pin val b)) = sent b ++ [config]
  /\ pins (fst (servoWrite pin val b)) = pins b
  /\ sent (fst (acknowledge_all [true] (servoWrite pin val b)))
     = sent b ++ [config; [PIN_MODE; pin; MODES.SERVO]]
  /\ pins (fst (acknowledge_all [true] (servoWrite pin val b))) = pins b
  /\ sent (fst (acknowledge_all [true; true] (servoWrite pin val b)))
     = sent b ++ [config; [PIN_MODE; pin; MODES.SERVO]; pwm_message pin val]
  /\ idx (pins (fst (acknowledge_all [true; true] (servoWrite pin val b)))) pin
     = Some (set_mode (Some MODES.SERVO) p)
  /\ (exists b',
         acknowledge_all [true; true; true] (servoWrite pin val b)
         = (b', Settled (Resolved None))
         /\ sent b'
            = sent b ++ [config; [PIN_MODE; pin; MODES.SERVO];
                         pwm_message pin val]
         /\ idx (pins b') pin
            = Some (set_value val (set_mode (Some MODES.SERVO) p))
         /\ (forall j, j <> pin -> idx (pins b') j = idx (pins b) j)
         /\ forall val2,
              sent (fst (servoWrite pin val2 b'))
              = sent b' ++ (if val =? val2 then [] else [pwm_message pin val2])
              /\ exists b'',
                   acknowledge true (servoWrite pin val2 b')
                   = (b'', Settled (Resolved None))
                   /\ sent b'' = sent (fst (servoWrite pin val2 b'))
                   /\ idx (pins b'') pin
                      = Some (set_value val2 (set_mode (Some MODES.SERVO) p)))
  /\ acknowledge false (servoWrite pin val b)
     = (fst (servoWrite pin val b), Settled Refused)
  /\ acknowledge_all [true; false] (servoWrite pin val b)
     = (fst (acknowledge_all [true] (servoWrite pin val b)), Settled Refused)
  /\ snd (acknowledge_all [true; true; false] (servoWrite pin val b))
     = Settled Refused
  /\ sent (fst (acknowledge_all [true; true; false] (servoWrite pin val b)))
     = sent (fst (acknowledge_all [true; true] (servoWrite pin val b))).
Proof.
  intros Hp Hm config. pose proof (idx_Some_range _ _ _ Hp) as Hr.
  assert (E : servoWrite pin val b
              = (writeToTransport config b,
                 Awaiting (fun ack b' =>
                             match (if ack then (b', Settled (Resolved None))
                                    else (b', Settled Refused)) with
                             | (b'', c') =>
                                 and_then c' (pwmWrite MODES.SERVO pin val) b''
                             end))).
  { unfold servoWrite. rewrite (servoConfig_unfold b pin p Hp).
    rewrite bool_decide_eq_false_2 by exact Hm. reflexivity. }
  rewrite E. clear E. cbn [fst snd].
  unfold acknowledge_all, acknowledge. cbn [fst snd fold_left and_then].
  rewrite (pwmWrite_unfold (writeToTransport config b) MODES.SERVO pin val p)
    by (rewrite pins_writeToTransport; exact Hp).
  rewrite bool_decide_eq_false_2 by exact Hm.
  cbn [in_then fst snd].
  rewrite (assign_mode_Some pin MODES.SERVO _ p)
    by (rewrite !pins_writeToTransport; exact Hp).
  cbn [and_then in_then write_then fst snd].
  rewrite (assign_value_Some pin val _ (set_mode (Some MODES.SERVO) p))
    by (cbn [pins set_pins writeToTransport set_sent];
        now apply idx_store_eq with p).
  cbn [fst snd pins sent ports set_pins writeToTransport set_sent].
  rewrite store_store.
  split; [reflexivity |]. split; [reflexivity |].
  split; [now rewrite <- app_assoc |]. split; [reflexivity |].
  split; [now rewrite <- !app_assoc |].
  split; [now apply idx_store_eq with p |].
  split; [| repeat split; reflexivity].
  eexists. split; [reflexivity |].
  cbn [fst snd pins sent ports set_pins writeToTransport set_sent].
  split; [now rewrite <- !app_assoc |].
  split; [now apply idx_store_eq with p |].
  split; [intros j Hj; apply idx_store_ne; lia |].
  intros val2.
  match goal with
  | |- context [servoWrite pin val2 ?bb] => set (b' := bb)
  end.
  assert (Hp' : idx (pins b') pin
                = Some (set_value val (set_mode (Some MODES.SERVO) p)))
    by (subst b'; cbn [pins set_pins]; now apply idx_store_eq with p).
  unfold servoWrite. rewrite (servoConfig_unfold b' pin _ Hp').
  cbn [mode set_value set_mode].
  rewrite bool_decide_eq_true_2 by reflexivity.
  cbn [fst snd and_then].
  rewrite (pwmWrite_unfold b' MODES.SERVO pin val2 _ Hp').
  cbn [mode value set_value set_mode].
  rewrite bool_decide_eq_true_2 by reflexivity.
  destruct (val =? val2) eqn:Hv.
  - apply Z.eqb_eq in Hv. subst val2.
    cbn [in_then fst snd]. split; [now rewrite app_nil_r |].
    exists b'. split; [reflexivity |]. split; [reflexivity |]. exact Hp'.
  - unfold write_then, acknowledge. cbn [in_then fst snd].
    rewrite (assign_value_Some pin val2 _ _)
      by (rewrite pins_writeToTransport; exact Hp').
    split; [now rewrite sent_writeToTransport |].
    eexists. split; [reflexivity |].
    cbn [fst snd pins sent set_pins].
    split; [reflexivity |].
    rewrite pins_writeToTransport.
    rewrite (idx_store_eq _ _ _ _ ltac:(exact Hp')).
    reflexivity.
Qed.

Lemma servoWrite_sequence_witness :
  sent (fst (servoWrite 1 90 ready_board))
  = sent ready_board
    ++ [[START_SYSEX; SERVO_CONFIG; 1; 0x20; 0x04; 0x60; 0x12; END_SYSEX]]
  /\ exists b',
       acknowledge_all [true; true; true] (servoWrite 1 90 ready_board)
       = (b', Settled (Resolved None))
       /\ sent b'
          = sent ready_board
            ++ [[START_SYSEX; SERVO_CONFIG; 1; 0x20; 0x04; 0x60; 0x12;
                 END_SYSEX];
                [PIN_MODE; 1; MODES.SERVO];
                pwm_message 1 90].
Proof.
  destruct (pins ready_board !! 1%nat) as [p |] eqn:Hp;
    [| vm_compute in Hp; discriminate].
  destruct (servoWrite_sequence ready_board 1 90 p)
    as (H1 & _ & _ & _ & _ & _ & (b' & H7 & H8 & _) & _).
  - exact Hp.
  - vm_compute in Hp. injection Hp as <-. discriminate.
  - split; [exact H1 |]. exists b'. split; [exact H7 | exact H8].
Defined.
(** ** Analog reads *)

Lemma idx_of_nat {A} (arr : list A) (n : nat) : idx arr (Z.of_nat n) = arr !! n.
Proof.
  unfold idx. destruct (Z.ltb_spec (Z.of_nat n) 0) as [? | _]; [lia |].
  now rewrite Nat2Z.id.
Qed.

Lemma report_analog_opcode ch :
  0 <= ch <= 15 -> JS.or REPORT_ANALOG ch = REPORT_ANALOG + ch.
Proof.
  intros Hch.
  assert (H : ch = 0 \/ ch = 1 \/ ch = 2 \/ ch = 3 \/ ch = 4 \/ ch = 5
              \/ ch = 6 \/ ch = 7 \/ ch = 8 \/ ch = 9 \/ ch = 10 \/ ch = 11
              \/ ch = 12 \/ ch = 13 \/ ch = 14 \/ ch = 15) by lia.
  repeat destruct H as [-> | H]; try subst ch; reflexivity.
Qed.

(** Once the pin of a channel is in ANALOG mode, an analog message for
    the channel is answered by [analogRead] with the reported value. *)
Lemma analogRead_after_message (b1 : Board) (ch : Z) (pn : nat) (p1 : Pin)
    (lsb msb : Z) :
  versionReceived b1 = true -> currentBuffer b1 = [] ->
  0 <= ch <= 15 ->
  idx (analogPins b1) ch = Some pn -> pins b1 !! pn = Some p1 ->
  mode p1 = Some MODES.ANALOG ->
  0 <= lsb <= 127 -> 0 <= msb <= 127 ->
  exists b2,
    feed [ANALOG_MESSAGE + ch; lsb; msb] b1 = Done b2
    /\ emitted b2
       = emitted b1 ++ [Ev_analog_read_pin ch (lsb + 128 * msb);
                        Ev_analog_read ch (lsb + 128 * msb)]
    /\ analogRead ch b2 = (b2, Settled (Resolved (Some (lsb + 128 * msb))))
    /\ sent b2 = sent b1.
Proof.
  intros Hv Hbuf Hch Hpn Hp1 Hm Hl Hmsb.
  pose proof (idx_Some_range _ _ _ Hpn) as Hr.
  assert (Hlt : (pn < length (pins b1))%nat)
    by (now apply lookup_lt_Some in Hp1).
  destruct (feed_analog_message b1 ch lsb msb Hv Hbuf Hch Hl Hmsb)
    as (b2 & H2 & Hev & Hpins & _ & Hsent & _ & Han).
  rewrite Hpn, Hp1 in Hpins.
  exists b2. split; [exact H2 |]. split; [exact Hev |].
  split; [| exact Hsent].
  unfold analogRead. rewrite Han.
  replace (Z.of_nat (length (analogPins b1)) >? ch) with true
    by (symmetry; apply Z.gtb_lt; lia).
  rewrite Hpn. cbn [mbind option_bind]. rewrite Hpins.
  rewrite list_lookup_insert_eq by exact Hlt.
  cbn [fmap option_fmap option_map].
  destruct p1 as [sm m v r am]. cbn [mode value set_value] in *.
  rewrite bool_decide_eq_true_2 by exact Hm. reflexivity.
Qed.

(** [analogRead] on a channel whose pin is not in ANALOG mode: the mode
    message is handed over, and the report request waits for it. *)
Lemma analogRead_unfold (b : Board) (ch : Z) (pn : nat) (p : Pin) :
  idx (analogPins b) ch = Some pn -> pins b !! pn = Some p ->
  mode p <> Some MODES.ANALOG ->
  analogRead ch b
  = (writeToTransport [PIN_MODE; Z.of_nat pn; MODES.ANALOG] b,
     detached
       (snd (and_then
               (snd (pinMode (Z.of_nat pn) MODES.ANALOG b))
               (reportAnalogPin ch 1)
               (fst (pinMode (Z.of_nat pn) MODES.ANALOG b))))).
Proof.
  intros Hpn Hp Hm. pose proof (idx_Some_range _ _ _ Hpn) as Hr.
  unfold analogRead.
  replace (Z.of_nat (length (analogPins b)) >? ch) with true
    by (symmetry; apply Z.gtb_lt; lia).
  rewrite Hpn. cbn [mbind option_bind]. rewrite Hp.
  cbn [fmap option_fmap option_map].
  rewrite bool_decide_eq_false_2 by exact Hm. cbn [negb].
  reflexivity.
Qed.

(** X18. [analogRead] on a mapped channel whose pin is not yet in ANALOG
    mode hands over the mode message for the pin at the call, changes no
    pin, and leaves its promise pending.  If that write is refused nothing
    more is sent.  Once it is acknowledged the pin is in ANALOG mode and
    the report request C0+ch 01 is handed over; whatever answers the
    report request then gets, an analog message for the channel that
    arrives after that acknowledgment raises the two read events, and
    [analogRead] then resolves at once with the reported value
    lsb + 128 * msb and sends nothing more. *)
Theorem analogRead_then_message (b : Board) (ch : Z) (pn : nat) (p : Pin)
    (lsb msb : Z) (acks : list bool) :
  versionReceived b = true -> currentBuffer b = [] ->
  0 <= ch <= 15 ->
  idx (analogPins b) ch = Some pn -> pins b !! pn = Some p ->
  mode p <> Some MODES.ANALOG ->
  0 <= lsb <= 127 -> 0 <= msb <= 127 ->
  sent (fst (analogRead ch b))
  = sent b ++ [[PIN_MODE; Z.of_nat pn; MODES.ANALOG]]
  /\ pins (fst (analogRead ch b)) = pins b
  /\ (exists k, snd (analogRead ch b) = Awaiting k)
  /\ acknowledge false (analogRead ch b)
     = (fst (analogRead ch b), Settled Pending)
  /\ exists b1 b2,
       fst (acknowledge_all (true :: acks) (analogRead ch b)) = b1
       /\ sent b1 = sent b ++ [[PIN_MODE; Z.of_nat pn; MODES.ANALOG];
                               [REPORT_ANALOG + ch; 1]]
       /\ mode <$> pins b1 !! pn = Some (Some MODES.ANALOG)
       /\ (forall v, snd (acknowledge_all (true :: acks) (analogRead ch b))
                     <> Settled (Resolved v))
       /\ feed [ANALOG_MESSAGE + ch; lsb; msb] b1 = Done b2
       /\ emitted b2
          = emitted b1 ++ [Ev_analog_read_pin ch (lsb + 128 * msb);
                           Ev_analog_read ch (lsb + 128 * msb)]
       /\ analogRead ch b2 = (b2, Settled (Resolved (Some (lsb + 128 * msb))))
       /\ sent b2 = sent b1.
Proof.
  intros Hv Hbuf Hch Hpn Hp Hm Hl Hmsb.
  pose proof (idx_Some_range _ _ _ Hpn) as Hr.
  assert (Hlt : (pn < length (pins b))%nat) by (now apply lookup_lt_Some in Hp).
  rewrite (analogRead_unfold b ch pn p Hpn Hp Hm).
  unfold pinMode, write_then. cbn [fst snd and_then detached].
  rewrite sent_writeToTransport, pins_writeToTransport.
  split; [reflexivity |]. split; [reflexivity |].
  split; [eexists; reflexivity |].
  split; [reflexivity |].
  change (acknowledge_all (true :: acks) ?bc)
    with (acknowledge_all acks (acknowledge true bc)).
  unfold acknowledge. cbn [fst snd].
  rewrite (assign_mode_Some (Z.of_nat pn) MODES.ANALOG _ p)
    by (rewrite pins_writeToTransport, idx_of_nat; exact Hp).
  cbn [and_then]. unfold reportAnalogPin.
  change ((1 =? 0) || (1 =? 1)) with true.
  unfold write_then. cbn [in_then fst snd detached].
  rewrite report_analog_opcode by exact Hch.
  unfold store. rewrite Nat2Z.id, pins_writeToTransport.
  set (pm := set_mode (Some MODES.ANALOG) p).
  set (bm := writeToTransport [REPORT_ANALOG + ch; 1]
               (set_pins (<[pn := pm]> (pins b))
                  (writeToTransport [PIN_MODE; Z.of_nat pn; MODES.ANALOG] b))).
  assert (Hsm : sent bm = sent b ++ [[PIN_MODE; Z.of_nat pn; MODES.ANALOG];
                                     [REPORT_ANALOG + ch; 1]])
    by (unfold bm; simpl_board; now rewrite <- app_assoc).
  assert (Hpm : pins bm !! pn = Some pm)
    by (unfold bm; simpl_board; now apply list_lookup_insert_eq).
  destruct acks as [| ack acks].
  - (* the report request is not answered yet *)
    cbn [acknowledge_all fold_left fst snd].
    destruct (analogRead_after_message bm ch pn pm lsb msb)
      as (b2 & F1 & F2 & F3 & F4); try assumption; try reflexivity.
    exists bm, b2. split; [reflexivity |]. split; [exact Hsm |].
    split; [now rewrite Hpm |]. split; [discriminate |].
    repeat split; assumption.
  - change (acknowledge_all (ack :: acks) ?bc)
      with (acknowledge_all acks (acknowledge ack bc)).
    unfold acknowledge. cbn [fst snd]. fold bm.
    destruct ack.
    + (* the report request is acknowledged *)
      unfold assign_report.
      change (analogPins bm) with (analogPins b). rewrite Hpn.
      cbn [mbind option_bind]. rewrite Hpm.
      cbn [fmap option_fmap option_map detached].
      rewrite acknowledge_all_settled. cbn [fst snd].
      set (b1 := set_pins (<[pn := set_report 1 pm]> (pins bm)) bm).
      assert (Hp1 : pins b1 !! pn = Some (set_report 1 pm)).
      { unfold b1. cbn [pins set_pins]. apply list_lookup_insert_eq.
        now apply lookup_lt_Some in Hpm. }
      destruct (analogRead_after_message b1 ch pn (set_report 1 pm) lsb msb)
        as (b2 & F1 & F2 & F3 & F4); try assumption; try reflexivity.
      exists b1, b2. split; [reflexivity |]. split; [exact Hsm |].
      split; [now rewrite Hp1 |]. split; [discriminate |].
      repeat split; assumption.
    + (* the report request is refused *)
      cbn [detached]. rewrite acknowledge_all_settled. cbn [fst snd].
      destruct (analogRead_after_message bm ch pn pm lsb msb)
        as (b2 & F1 & F2 & F3 & F4); try assumption; try reflexivity.
      exists bm, b2. split; [reflexivity |]. split; [exact Hsm |].
      split; [now rewrite Hpm |]. split; [discriminate |].
      repeat split; assumption.
Qed.

Lemma analogRead_then_message_witness :
  sent (fst (analogRead 0 ready_board))
  = sent ready_board ++ [[PIN_MODE; 1; MODES.ANALOG]]
  /\ exists b1 b2,
       fst (acknowledge_all [true; true] (analogRead 0 ready_board)) = b1
       /\ sent b1 = sent ready_board ++ [[PIN_MODE; 1; MODES.ANALOG]; [0xC0; 1]]
       /\ feed [ANALOG_MESSAGE + 0; 0x2C; 0x02] b1 = Done b2
       /\ analogRead 0 b2 = (b2, Settled (Resolved (Some 300))).
Proof.
  destruct (pins ready_board !! 1%nat) as [p |] eqn:Hp;
    [| vm_compute in Hp; discriminate].
  destruct (analogRead_then_message ready_board 0 1%nat p 0x2C 0x02 [true])
    as (H0 & _ & _ & _ & b1 & b2 & H1 & H2 & _ & _ & H3 & _ & H4 & _).
  - vm_compute. reflexivity.
  - vm_compute. reflexivity.
  - lia.
  - vm_compute. reflexivity.
  - exact Hp.
  - vm_compute in Hp. injection Hp as <-. discriminate.
  - lia.
  - lia.
  - split; [exact H0 |]. exists b1, b2. repeat split; assumption.
Defined.
(** ** The sampling interval *)

(** X19. [setSamplingInterval] stores the interval clamped to 10..65535
    and sends F0 7A lsb msb F7, where the two bytes hold only the low 14
    bits of the stored value: the firmware is told the stored interval
    modulo 16384, so the two differ for every interval above 16383. *)
Theorem setSamplingInterval_sends_14_bits (interval : Z) (b : Board) :
  snd (setSamplingInterval interval b) = Z.max 10 (Z.min 65535 interval)
  /\ exists lsb msb,
       sent (fst (setSamplingInterval interval b))
       = sent b ++ [[START_SYSEX; SAMPLING_INTERVAL; lsb; msb; END_SYSEX]]
       /\ decode [lsb; msb]
          = Some [snd (setSamplingInterval interval b) mod 16384].
Proof.
  unfold setSamplingInterval. cbv zeta. cbn [fst snd]. split.
  - destruct (Z.ltb_spec interval 10); [lia |].
    destruct (Z.gtb_spec interval 65535); lia.
  - eexists _, _. split; [reflexivity |].
    match goal with
    | |- decode [JS.and ?s _; _] = _ =>
        change (decode [JS.and s 127; JS.and (JS.sar s 7) 127])
          with (Some (decode_pairs (encode [s])))
    end.
    now rewrite decode_pairs_encode.
Qed.

(** ** Disconnecting *)

(** X20. After the transport's ['disconnect'] both flags are false,
    whatever they were; on a board with an empty buffer and no listener
    waiting, a version report followed by the three handshake replies
    then makes the board ready again, raising ['reportversion'] and the
    four handshake events in order and sending the two queries and the
    sampling-interval message anew. *)
Theorem reconnect_handshake (b : Board) (major minor : Z)
    (name caps mapping : list Z) :
  currentBuffer b = [] ->
  capabilityWaiters b = 0%nat -> analogMappingWaiters b = 0%nat ->
  SYSEX_RESPONSE b !! QUERY_FIRMWARE = Some H_QUERY_FIRMWARE ->
  SYSEX_RESPONSE b !! CAPABILITY_RESPONSE = Some H_CAPABILITY_RESPONSE ->
  SYSEX_RESPONSE b !! ANALOG_MAPPING_RESPONSE = Some H_ANALOG_MAPPING_RESPONSE ->
  Forall (fun x => 0 <= x <= 0x7F) name -> (2 <= length name)%nat ->
  Forall (fun x => 0 <= x <= 0x7F) caps ->
  Forall (fun x => 0 <= x <= 0x7F) mapping ->
  (length mapping <= count_occ Z.eq_dec caps 0x7F%Z)%nat ->
  versionReceived (fst (on_disconnect b)) = false
  /\ isReady (fst (on_disconnect b)) = false
  /\ snd (on_disconnect b) = Sig_disconnect
  /\ exists b',
       feed ([REPORT_VERSION; major; minor]
             ++ (START_SYSEX :: QUERY_FIRMWARE :: name ++ [END_SYSEX])
             ++ (START_SYSEX :: CAPABILITY_RESPONSE :: caps ++ [END_SYSEX])
             ++ (START_SYSEX :: ANALOG_MAPPING_RESPONSE :: mapping
                 ++ [END_SYSEX]))
         (fst (on_disconnect b)) = Done b'
       /\ versionReceived b' = true
       /\ isReady b' = true
       /\ emitted b'
          = emitted b ++ [Ev_reportversion; Ev_queryfirmware;
                          Ev_capability_query; Ev_analog_mapping_query;
                          Ev_ready]
       /\ sent b'
          = sent b ++ [[START_SYSEX; CAPABILITY_QUERY; END_SYSEX];
                       [START_SYSEX; ANALOG_MAPPING_QUERY; END_SYSEX];
                       [0xF0; 0x7A; 0x64; 0x00; 0xF7]]
       /\ length (pins b') = count_occ Z.eq_dec caps 0x7F.
Proof.
  intros Hbuf Hcw Haw Hfw Hcap Hmap Hname Hlen Hcaps Hmapping Hfit.
  split; [reflexivity |]. split; [reflexivity |]. split; [reflexivity |].
  cbn [on_disconnect fst].
  pose proof (feed_version_report
                (set_isReady false (set_versionReceived false b))
                major minor (or_introl Hbuf)) as H0.
  unfold MIDI_REPORT_VERSION, on_reportversion in H0. cbv zeta in H0.
  cbn [isReady set_versionReceived emit set_emitted set_version
       set_currentBuffer set_isReady] in H0.
  match type of H0 with _ = Done ?bb => set (bv := bb) in H0 end.
  destruct (handshake_steps bv name caps mapping)
    as (b' & H1 & H2 & H3 & H4 & H5 & _);
    try assumption; try reflexivity.
  exists b'. split; [rewrite feed_app, H0; exact H1 |].
  split.
  - destruct (keeps_feed
                ((START_SYSEX :: QUERY_FIRMWARE :: name ++ [END_SYSEX])
                 ++ (START_SYSEX :: CAPABILITY_RESPONSE :: caps ++ [END_SYSEX])
                 ++ (START_SYSEX :: ANALOG_MAPPING_RESPONSE :: mapping
                     ++ [END_SYSEX])) bv) as [Hk _].
    rewrite H1 in Hk. now apply Hk.
  - split; [exact H2 |]. split; [| split; [| exact H5]].
    + rewrite H3. unfold bv. simpl_board. now rewrite <- app_assoc.
    + rewrite H4. reflexivity.
Qed.

Lemma reconnect_handshake_witness :
  exists b',
    feed ([REPORT_VERSION; 2; 5]
          ++ (START_SYSEX :: QUERY_FIRMWARE :: [2; 5; 0x73; 0x00]
              ++ [END_SYSEX])
          ++ (START_SYSEX :: CAPABILITY_RESPONSE
              :: [0x00; 0x01; 0x7F; 0x02; 0x0A; 0x7F] ++ [END_SYSEX])
          ++ (START_SYSEX :: ANALOG_MAPPING_RESPONSE :: [0x7F; 0x00]
              ++ [END_SYSEX]))
      (fst (on_disconnect ready_board)) = Done b'
    /\ isReady b' = true.
Proof.
  destruct (reconnect_handshake ready_board 2 5 [2; 5; 0x73; 0x00]
              [0x00; 0x01; 0x7F; 0x02; 0x0A; 0x7F] [0x7F; 0x00])
    as (_ & _ & _ & b' & H1 & _ & H3 & _).
  - vm_compute. reflexivity.
  - vm_compute. reflexivity.
  - vm_compute. reflexivity.
  - vm_compute. reflexivity.
  - vm_compute. reflexivity.
  - vm_compute. reflexivity.
  - repeat constructor; lia.
  - cbn [length]. lia.
  - repeat constructor; lia.
  - repeat constructor; lia.
  - vm_compute. lia.
  - exists b'. split; [exact H1 | exact H3].
Defined.

(** ** Digital reads *)

Lemma digital_pin_quiet prt portValue b k :
  firmware (digital_pin prt portValue b k) = firmware b
  /\ sent (digital_pin prt portValue b k) = sent b.
Proof.
  unfold digital_pin.
  destruct (idx (pins b) (8 * prt + k)) as [pin |]; [| now split].
  destruct (reads_input pin); [| now split].
  cbv zeta. destruct (JS.truthy _); now split.
Qed.

Lemma digital_turns_quiet prt portValue l : forall b,
  firmware (fold_left (digital_pin prt portValue) l b) = firmware b
  /\ sent (fold_left (digital_pin prt portValue) l b) = sent b.
Proof.
  induction l as [| k l IH]; intros b; [now split |].
  cbn [fold_left]. destruct (IH (digital_pin prt portValue b k)) as [-> ->].
  apply digital_pin_quiet.
Qed.

Lemma digital_opcode prt :
  0 <= prt <= 15 -> JS.and (DIGITAL_MESSAGE + prt) 0x0F = prt.
Proof.
  intros Hp.
  assert (H : prt = 0 \/ prt = 1 \/ prt = 2 \/ prt = 3 \/ prt = 4 \/ prt = 5
              \/ prt = 6 \/ prt = 7 \/ prt = 8 \/ prt = 9 \/ prt = 10
              \/ prt = 11 \/ prt = 12 \/ prt = 13 \/ prt = 14 \/ prt = 15)
    by lia.
  repeat destruct H as [-> | H]; try subst prt; reflexivity.
Qed.

(** The eight turns of the digital handler, seen from one pin that reads
    input: the pin takes its bit and its two events are raised; firmware
    and transport are not touched. *)
Lemma digital_turns_read prt pv i p b :
  0 <= i < 8 ->
  idx (pins b) (8 * prt + i) = Some p ->
  reads_input p = true ->
  idx (pins (fold_left (digital_pin prt pv) [0; 1; 2; 3; 4; 5; 6; 7] b))
    (8 * prt + i)
  = Some (read_bit pv i p)
  /\ firmware (fold_left (digital_pin prt pv) [0; 1; 2; 3; 4; 5; 6; 7] b)
     = firmware b
  /\ sent (fold_left (digital_pin prt pv) [0; 1; 2; 3; 4; 5; 6; 7] b)
     = sent b
  /\ exists before after,
       emitted (fold_left (digital_pin prt pv) [0; 1; 2; 3; 4; 5; 6; 7] b)
       = emitted b ++ before
         ++ [Ev_digital_read_pin (8 * prt + i) (value (read_bit pv i p));
             Ev_digital_read (8 * prt + i) (value (read_bit pv i p))]
         ++ after.
Proof.
  intros Hi Hp Hin.
  destruct (digital_turns_quiet prt pv [0; 1; 2; 3; 4; 5; 6; 7] b) as [Q1 Q2].
  rewrite Q1, Q2. clear Q1 Q2.
  destruct (eight_turns_split i Hi) as (l1 & l2 & -> & Hl1 & Hl2).
  assert (Hi32 : 0 <= i < 32) by lia.
  rewrite fold_left_app. cbn [fold_left].
  destruct (digital_turns_other prt pv i l2
              (digital_pin prt pv (fold_left (digital_pin prt pv) l1 b) i)
              Hi32 Hl2) as (-> & _ & after & ->).
  destruct (digital_turns_other prt pv i l1 b Hi32 Hl1)
    as (P1 & _ & before & E1).
  rewrite <- P1 in Hp.
  destruct (digital_pin_read prt pv _ i p ltac:(lia) Hp Hin) as (-> & _ & ->).
  rewrite E1.
  split; [reflexivity |]. split; [reflexivity |]. split; [reflexivity |].
  exists before, after. now rewrite <- !app_assoc.
Qed.

(** The eight turns seen from one pin that does not read input: the pin
    stays as it is. *)
Lemma digital_turns_skip prt pv i p b :
  0 <= i < 8 ->
  idx (pins b) (8 * prt + i) = Some p ->
  reads_input p = false ->
  idx (pins (fold_left (digital_pin prt pv) [0; 1; 2; 3; 4; 5; 6; 7] b))
    (8 * prt + i)
  = Some p.
Proof.
  intros Hi Hp Hin.
  destruct (eight_turns_split i Hi) as (l1 & l2 & -> & Hl1 & Hl2).
  assert (Hi32 : 0 <= i < 32) by lia.
  rewrite fold_left_app. cbn [fold_left].
  destruct (digital_turns_other prt pv i l2
              (digital_pin prt pv (fold_left (digital_pin prt pv) l1 b) i)
              Hi32 Hl2) as (-> & _ & _).
  destruct (digital_turns_other prt pv i l1 b Hi32 Hl1) as (P1 & _ & _).
  rewrite <- P1 in Hp.
  rewrite (digital_pin_skipped prt pv (fold_left (digital_pin prt pv) l1 b) i)
    by (now rewrite Hp).
  exact Hp.
Qed.

(** The digital handler on a complete message, seen from one input pin. *)
Lemma digital_message_read f first lsb msb prt i p :
  currentBuffer f = [first; lsb; msb] ->
  JS.and first 0x0F = prt ->
  0 <= i < 8 ->
  idx (pins f) (8 * prt + i) = Some p ->
  reads_input p = true ->
  idx (pins (MIDI_DIGITAL_MESSAGE f)) (8 * prt + i)
  = Some (read_bit (JS.or lsb (JS.shl msb 7)) i p)
  /\ firmware (MIDI_DIGITAL_MESSAGE f) = firmware f
  /\ sent (MIDI_DIGITAL_MESSAGE f) = sent f
  /\ exists before after,
       emitted (MIDI_DIGITAL_MESSAGE f)
       = emitted f ++ before
         ++ [Ev_digital_read_pin (8 * prt + i)
               (value (read_bit (JS.or lsb (JS.shl msb 7)) i p));
             Ev_digital_read (8 * prt + i)
               (value (read_bit (JS.or lsb (JS.shl msb 7)) i p))]
         ++ after.
Proof.
  intros Hbuf Hport Hi Hp Hin.
  unfold MIDI_DIGITAL_MESSAGE. rewrite Hbuf. cbn [lookup list_lookup].
  rewrite !num_Some, Hport.
  now apply digital_turns_read.
Qed.

(** The digital handler on a complete message, seen from a pin that does
    not read input. *)
Lemma digital_message_skip f first lsb msb prt i p :
  currentBuffer f = [first; lsb; msb] ->
  JS.and first 0x0F = prt ->
  0 <= i < 8 ->
  idx (pins f) (8 * prt + i) = Some p ->
  reads_input p = false ->
  idx (pins (MIDI_DIGITAL_MESSAGE f)) (8 * prt + i) = Some p.
Proof.
  intros Hbuf Hport Hi Hp Hin.
  unfold MIDI_DIGITAL_MESSAGE. rewrite Hbuf. cbn [lookup list_lookup].
  rewrite !num_Some, Hport.
  now apply digital_turns_skip.
Qed.

Lemma pins_set_currentBuffer buf b : pins (set_currentBuffer buf b) = pins b.
Proof. reflexivity. Qed.

Lemma firmware_set_currentBuffer buf b :
  firmware (set_currentBuffer buf b) = firmware b.
Proof. reflexivity. Qed.

Lemma sent_set_currentBuffer buf b : sent (set_currentBuffer buf b) = sent b.
Proof. reflexivity. Qed.

Lemma emitted_set_currentBuffer buf b :
  emitted (set_currentBuffer buf b) = emitted b.
Proof. reflexivity. Qed.

(** A digital message through the parser, seen from one input pin. *)
Lemma feed_digital_read b prt i p lsb msb :
  versionReceived b = true -> currentBuffer b = [] ->
  0 <= prt <= 15 -> 0 <= i < 8 ->
  idx (pins b) (8 * prt + i) = Some p ->
  reads_input p = true ->
  exists b',
    feed [DIGITAL_MESSAGE + prt; lsb; msb] b = Done b'
    /\ idx (pins b') (8 * prt + i)
       = Some (read_bit (JS.or lsb (JS.shl msb 7)) i p)
    /\ firmware b' = firmware b
    /\ sent b' = sent b
    /\ exists before after,
         emitted b'
         = emitted b ++ before
           ++ [Ev_digital_read_pin (8 * prt + i)
                 (value (read_bit (JS.or lsb (JS.shl msb 7)) i p));
               Ev_digital_read (8 * prt + i)
                 (value (read_bit (JS.or lsb (JS.shl msb 7)) i p))]
           ++ after.
Proof.
  intros Hv Hbuf Hprt Hi Hp Hin.
  pose proof (feed_digital_message b (DIGITAL_MESSAGE + prt) lsb msb Hbuf Hv
                ltac:(unfold DIGITAL_MESSAGE; lia)) as Hfeed.
  destruct (digital_message_read
              (set_versionReceived true
                 (set_currentBuffer [DIGITAL_MESSAGE + prt; lsb; msb] b))
              (DIGITAL_MESSAGE + prt) lsb msb prt i p
              eq_refl (digital_opcode prt Hprt) Hi Hp Hin) as (A & B & C & D).
  remember (MIDI_DIGITAL_MESSAGE
              (set_versionReceived true
                 (set_currentBuffer [DIGITAL_MESSAGE + prt; lsb; msb] b)))
    as m eqn:Hm.
  clear Hm.
  exists (set_currentBuffer [] m). split; [exact Hfeed |].
  rewrite pins_set_currentBuffer, firmware_set_currentBuffer,
    sent_set_currentBuffer, emitted_set_currentBuffer.
  split; [exact A |]. split; [exact B |]. split; [exact C | exact D].
Qed.

(** A digital message through the parser, seen from a pin that does not
    read input. *)
Lemma feed_digital_skip b prt i p lsb msb :
  versionReceived b = true -> currentBuffer b = [] ->
  0 <= prt <= 15 -> 0 <= i < 8 ->
  idx (pins b) (8 * prt + i) = Some p ->
  reads_input p = false ->
  exists b',
    feed [DIGITAL_MESSAGE + prt; lsb; msb] b = Done b'
    /\ idx (pins b') (8 * prt + i) = Some p.
Proof.
  intros Hv Hbuf Hprt Hi Hp Hin.
  pose proof (feed_digital_message b (DIGITAL_MESSAGE + prt) lsb msb Hbuf Hv
                ltac:(unfold DIGITAL_MESSAGE; lia)) as Hfeed.
  pose proof (digital_message_skip
                (set_versionReceived true
                   (set_currentBuffer [DIGITAL_MESSAGE + prt; lsb; msb] b))
                (DIGITAL_MESSAGE + prt) lsb msb prt i p
                eq_refl (digital_opcode prt Hprt) Hi Hp Hin) as A.
  remember (MIDI_DIGITAL_MESSAGE
              (set_versionReceived true
                 (set_currentBuffer [DIGITAL_MESSAGE + prt; lsb; msb] b)))
    as m eqn:Hm.
  clear Hm.
  exists (set_currentBuffer [] m). split; [exact Hfeed |].
  rewrite pins_set_currentBuffer. exact A.
Qed.

(** The first [digitalRead] of a pin that is not in INPUT mode: both
    messages are handed over within the call; the mode is assigned when
    the first write is acknowledged. *)
Lemma digitalRead_first b pin q p :
  remap b pin = q -> idx (pins b) q = Some p ->
  mode p <> Some MODES.INPUT ->
  digitalRead pin b
  = (set_sent
       (sent b ++ [[PIN_MODE; q; MODES.INPUT];
                   if is_sp b
                   then [0xD0; 0x01; 0xD1; 0x01; 0xD2; 0x01; 0xD3; 0x01]
                   else [0xD0; 0x01; 0xD1; 0x01; 0xD2; 0x01]]) b,
     Awaiting (fun ack b' =>
                 match (if ack then assign_mode q MODES.INPUT b'
                        else (b', Settled Refused)) with
                 | (b'', c') => (b'', detached c')
                 end)).
Proof.
  intros Hpin Hp Hm. pose proof (idx_Some_range _ _ _ Hp) as Hr.
  unfold digitalRead. cbv zeta. rewrite Hpin.
  replace (Z.of_nat (length (pins b)) >? q) with true
    by (symmetry; apply Z.gtb_lt; lia).
  rewrite Hp. rewrite bool_decide_eq_false_2 by exact Hm. cbn [negb].
  rewrite is_sp_pinMode.
  unfold pinMode, write_then. cbn [fst snd detached].
  unfold writeToTransport.
  destruct (is_sp b); simpl_board; now rewrite <- app_assoc.
Qed.

(** A [digitalRead] of a pin in INPUT mode. *)
Lemma digitalRead_cached b pin q p :
  remap b pin = q -> idx (pins b) q = Some p ->
  mode p = Some MODES.INPUT ->
  digitalRead pin b = (b, Settled (Resolved (Some (value p)))).
Proof.
  intros Hpin Hp Hm. pose proof (idx_Some_range _ _ _ Hp) as Hr.
  unfold digitalRead. cbv zeta. rewrite Hpin.
  replace (Z.of_nat (length (pins b)) >? q) with true
    by (symmetry; apply Z.gtb_lt; lia).
  rewrite Hp. now rewrite bool_decide_eq_true_2 by exact Hm.
Qed.

Lemma remap_firmware b b' pin :
  firmware b' = firmware b -> remap b' pin = remap b pin.
Proof. intros H. unfold remap, is_sp. now rewrite H. Qed.

(** X21. [digitalRead] on an existing pin that is not in INPUT mode hands
    over the mode message and the report request for the ports within the
    call, changes no pin, and leaves its promise pending.  The pin takes
    INPUT mode only when the mode write is acknowledged; a refused write
    leaves the board as it is.  A digital message for the pin's port that
    arrives before the acknowledgment leaves a pin that is not in PULLUP
    mode untouched.  One that arrives after it raises the pin's two read
    events with the pin's bit of the two payload bytes, and [digitalRead]
    then resolves at once with that bit and sends nothing more.  The pin
    is the one the command addresses, 8 * port + i. *)
Theorem digitalRead_then_message (b : Board) (pin prt i : Z) (p : Pin)
    (lsb msb : Z) :
  versionReceived b = true -> currentBuffer b = [] ->
  0 <= prt <= 15 -> 0 <= i < 8 ->
  remap b pin = 8 * prt + i ->
  idx (pins b) (8 * prt + i) = Some p ->
  mode p <> Some MODES.INPUT ->
  0 <= lsb <= 127 -> 0 <= msb <= 127 ->
  let bit := Z.b2z (Z.testbit (lsb + 128 * msb) i) in
  sent (fst (digitalRead pin b))
  = sent b ++ [[PIN_MODE; 8 * prt + i; MODES.INPUT];
               if is_sp b
               then [0xD0; 0x01; 0xD1; 0x01; 0xD2; 0x01; 0xD3; 0x01]
               else [0xD0; 0x01; 0xD1; 0x01; 0xD2; 0x01]]
  /\ pins (fst (digitalRead pin b)) = pins b
  /\ (exists k, snd (digitalRead pin b) = Awaiting k)
  /\ acknowledge false (digitalRead pin b)
     = (fst (digitalRead pin b), Settled Pending)
  /\ (mode p <> Some MODES.PULLUP ->
      exists bx,
        feed [DIGITAL_MESSAGE + prt; lsb; msb] (fst (digitalRead pin b))
        = Done bx
        /\ idx (pins bx) (8 * prt + i) = Some p)
  /\ exists b1 b2,
       acknowledge true (digitalRead pin b) = (b1, Settled Pending)
       /\ sent b1 = sent (fst (digitalRead pin b))
       /\ idx (pins b1) (8 * prt + i) = Some (set_mode (Some MODES.INPUT) p)
       /\ feed [DIGITAL_MESSAGE + prt; lsb; msb] b1 = Done b2
       /\ (exists before after,
              emitted b2
              = emitted b1 ++ before
                ++ [Ev_digital_read_pin (8 * prt + i) bit;
                    Ev_digital_read (8 * prt + i) bit]
                ++ after)
       /\ digitalRead pin b2 = (b2, Settled (Resolved (Some bit)))
       /\ sent b2 = sent b1.
Proof.
  intros Hv Hbuf Hprt Hi Hpin Hp Hm Hl Hmsb bit.
  rewrite (digitalRead_first b pin _ p Hpin Hp Hm).
  remember (set_sent
              (sent b ++ [[PIN_MODE; 8 * prt + i; MODES.INPUT];
                          if is_sp b
                          then [0xD0; 0x01; 0xD1; 0x01; 0xD2; 0x01; 0xD3; 0x01]
                          else [0xD0; 0x01; 0xD1; 0x01; 0xD2; 0x01]]) b)
    as b0 eqn:Hb0.
  assert (Hv0 : versionReceived b0 = true) by (now subst b0).
  assert (Hbuf0 : currentBuffer b0 = []) by (now subst b0).
  assert (Hfw0 : firmware b0 = firmware b) by (now subst b0).
  assert (Hp0 : idx (pins b0) (8 * prt + i) = Some p) by (now subst b0).
  assert (Hpins0 : pins b0 = pins b) by (now subst b0).
  assert (Hsent0 : sent b0
                   = sent b ++ [[PIN_MODE; 8 * prt + i; MODES.INPUT];
                                if is_sp b
                                then [0xD0; 0x01; 0xD1; 0x01; 0xD2; 0x01;
                                      0xD3; 0x01]
                                else [0xD0; 0x01; 0xD1; 0x01; 0xD2; 0x01]])
    by (now subst b0).
  clear Hb0. unfold acknowledge. cbn [fst snd detached].
  split; [exact Hsent0 |]. split; [exact Hpins0 |].
  split; [eexists; reflexivity |]. split; [reflexivity |].
  split.
  { intros Hpu.
    apply (feed_digital_skip b0 prt i p lsb msb Hv0 Hbuf0 Hprt Hi Hp0).
    unfold reads_input.
    rewrite bool_decide_eq_false_2 by exact Hm.
    now rewrite bool_decide_eq_false_2 by exact Hpu. }
  rewrite (assign_mode_Some _ MODES.INPUT b0 p Hp0). cbn [detached].
  remember (set_pins (store (pins b0) (8 * prt + i)
                        (set_mode (Some MODES.INPUT) p)) b0) as b1 eqn:Hb1.
  assert (Hv1 : versionReceived b1 = true) by (now subst b1).
  assert (Hbuf1 : currentBuffer b1 = []) by (now subst b1).
  assert (Hfw1 : firmware b1 = firmware b) by (now subst b1).
  assert (Hp1 : idx (pins b1) (8 * prt + i)
                = Some (set_mode (Some MODES.INPUT) p))
    by (subst b1; cbn [pins set_pins]; now apply idx_store_eq with p).
  assert (Hsent1 : sent b1 = sent b0) by (now subst b1).
  clear Hb1.
  assert (Hin : reads_input (set_mode (Some MODES.INPUT) p) = true).
  { unfold reads_input. cbn [mode set_mode].
    now rewrite bool_decide_eq_true_2 by reflexivity. }
  destruct (feed_digital_read b1 prt i _ lsb msb Hv1 Hbuf1 Hprt Hi Hp1 Hin)
    as (b2 & H2 & Hp2 & Hfw2 & Hsent2 & before & after & Hev).
  assert (Hbit : value (read_bit (JS.or lsb (JS.shl msb 7)) i
                          (set_mode (Some MODES.INPUT) p)) = bit).
  { unfold read_bit. cbv zeta. cbn [value set_value].
    rewrite digital_current_value by lia.
    unfold bit. now rewrite lor_shiftl_7 by lia. }
  rewrite Hbit in Hev.
  exists b1, b2.
  split; [reflexivity |]. split; [exact Hsent1 |]. split; [exact Hp1 |].
  split; [exact H2 |].
  split; [exists before, after; exact Hev |].
  split; [| exact Hsent2].
  assert (Hremap : remap b2 pin = 8 * prt + i).
  { rewrite (remap_firmware b b2) by congruence. exact Hpin. }
  destruct (read_bit_fields (JS.or lsb (JS.shl msb 7)) i
              (set_mode (Some MODES.INPUT) p)) as (_ & Hmode & _).
  rewrite (digitalRead_cached b2 pin _ _ Hremap Hp2) by exact Hmode.
  now rewrite Hbit.
Qed.

Lemma digitalRead_then_message_witness :
  exists b1 b2,
    acknowledge true (digitalRead 0 ready_board) = (b1, Settled Pending)
    /\ feed [DIGITAL_MESSAGE + 0; 0x01; 0x00] b1 = Done b2
    /\ digitalRead 0 b2 = (b2, Settled (Resolved (Some 1))).
Proof.
  destruct (pins ready_board !! 0%nat) as [p |] eqn:Hp;
    [| vm_compute in Hp; discriminate].
  destruct (digitalRead_then_message ready_board 0 0 0 p 0x01 0x00)
    as (_ & _ & _ & _ & _ & b1 & b2 & H1 & _ & _ & H3 & _ & H4 & _).
  - vm_compute. reflexivity.
  - vm_compute. reflexivity.
  - lia.
  - lia.
  - vm_compute. reflexivity.
  - exact Hp.
  - vm_compute in Hp. injection Hp as <-. discriminate.
  - lia.
  - lia.
  - exists b1, b2. split; [exact H1 |]. split; [exact H3 | exact H4].
Defined.
